(** * entra-node: the parallel user-enrichment pipeline

    A shallow embedding of the TypeScript services of the exporter
    (retry helper, batch / MFA / group / license services and the
    [UserProcessor] fan-out) together with the properties that the
    design document states about them.

    Conventions of the embedding.
    - A JavaScript string is a [string]; the default [Array.prototype.sort]
      on strings is the lexicographic order on character codes, which is
      [String.le].
    - An optional property ([x?: T]) is an [option]; [undefined] and [null]
      are both [None].
    - A promise that may reject, and a [try]/[catch] body that may throw, is
      a value of [Exn A]: [inl e] is the thrown error, [inr v] the result.
      Where the promise or the call belongs to an object that a service is
      handed, so that it may reject with or throw anything, [null] and
      [undefined] included, it is a value of [Promise A].
    - JavaScript numbers that the code only uses as integers are in [Z]. *)

From Stdlib Require Import ZArith String Ascii List Lia Bool.
From stdpp Require Import base option list strings gmap sorting pretty.

Local Open Scope string_scope.
Local Open Scope list_scope.
Local Open Scope Z_scope.

(* ===================================================================== *)
(** * Part I. Definitions                                                  *)
(* ===================================================================== *)

(** ** JavaScript primitives used by the services *)

Module Js.

(** [s.includes(needle)] *)
Fixpoint includes (s needle : string) : bool :=
  String.prefix needle s ||
  match s with
  | EmptyString => false
  | String _ s' => includes s' needle
  end.

(** [s.split(sep)] for a one-character separator. *)
Fixpoint split (sep : ascii) (s : string) : list string :=
  match s with
  | EmptyString => [EmptyString]
  | String c s' =>
      if Ascii.eqb c sep then EmptyString :: split sep s'
      else match split sep s' with
           | seg :: rest => String c seg :: rest
           | [] => [String c EmptyString]
           end
  end.

(** The characters of [s] in front of its first [sep] (all of [s] when it
    has none): the first element of [s.split(sep)]. *)
Fixpoint before (sep : ascii) (s : string) : string :=
  match s with
  | EmptyString => EmptyString
  | String c s' => if Ascii.eqb c sep then EmptyString else String c (before sep s')
  end.

(** The substring of [s] after its first [sep], if it has one. *)
Fixpoint afterFirst (sep : ascii) (s : string) : option string :=
  match s with
  | EmptyString => None
  | String c s' => if Ascii.eqb c sep then Some s' else afterFirst sep s'
  end.

(** The substring of [s] after its last [sep], if it has one. *)
Fixpoint afterLast (sep : ascii) (s : string) : option string :=
  match s with
  | EmptyString => None
  | String c s' =>
      match afterLast sep s' with
      | Some t => Some t
      | None => if Ascii.eqb c sep then Some s' else None
      end
  end.

(** [arr.join(sep)] on an array of strings. *)
Definition join (sep : string) (l : list string) : string :=
  String.concat sep l.

(** [arr.sort()] on an array of strings: the default comparator orders
    by character code, so the result is the unique sorted permutation. *)
Definition sort (l : list string) : list string :=
  merge_sort String.le l.

(** Truthiness of an optional string: [undefined], [null] and the empty
    string are falsy. *)
Definition truthy (o : option string) : bool :=
  match o with
  | Some s => negb (String.eqb s "")
  | None => false
  end.

(** [o || dflt] for an optional string. *)
Definition or_else (o : option string) (dflt : string) : string :=
  match o with
  | Some s => if String.eqb s "" then dflt else s
  | None => dflt
  end.

(** [o || null] for an optional string. *)
Definition or_null (o : option string) : option string :=
  if truthy o then o else None.

(** [new Set(l)] followed by iteration: first occurrences, in insertion
    order. [add] is [Set.prototype.add]. *)
Definition add (x : string) (seen : list string) : list string :=
  if bool_decide (x ∈ seen) then seen else seen ++ [x].

Definition to_set (l : list string) : list string :=
  foldl (fun seen x => add x seen) [] l.

End Js.

(** ** Errors and fallible computations *)

(** [ErrorWithStatus] of the retry utility: an [Error] whose [statusCode]
    and [message] may both be missing. *)
Record ErrorWithStatus := mkError {
  statusCode : option Z;
  message : option string
}.

Definition Exn (A : Type) : Type := ErrorWithStatus + A.

Definition throw {A} (e : ErrorWithStatus) : Exn A := inl e.
Definition ret {A} (a : A) : Exn A := inr a.

Definition bind {A B} (m : Exn A) (k : A -> Exn B) : Exn B :=
  match m with
  | inl e => inl e
  | inr a => k a
  end.

(** [try { body } catch (error) { handler error }] *)
Definition try_catch {A} (body : Exn A) (handler : ErrorWithStatus -> Exn A) : Exn A :=
  match body with
  | inl e => handler e
  | inr a => inr a
  end.

Notation "'let*' x ':=' m 'in' k" := (bind m (fun x => k))
  (at level 10, x name, m at level 100, k at level 200, only parsing).

(** The [TypeError] raised by a property access on [undefined]. *)
Definition TypeError (msg : string) : ErrorWithStatus :=
  mkError None (Some msg).

Definition raises {E A} (m : E + A) : bool :=
  match m with inl _ => true | inr _ => false end.

(** A value that a [catch] clause may receive. A rejected promise and a
    [throw] carry any value at all: [null], [undefined], or a value whose
    properties can be read, of which the code reads [statusCode] and
    [message]. *)
Inductive Thrown :=
  | ThrownNull
  | ThrownUndefined
  | ThrownValue (error : ErrorWithStatus).

(** A promise that has settled, or a call that has returned or thrown,
    where what was thrown may be [null] or [undefined]: the promises and
    calls of the objects that a service is constructed with. *)
Definition Promise (A : Type) : Type := Thrown + A.

(** A computation of the code itself, which throws objects only. *)
Definition settled {A} (m : Exn A) : Promise A :=
  match m with
  | inl e => inl (ThrownValue e)
  | inr a => inr a
  end.

(** [m] and then [k]: a call that throws, or an awaited promise that
    rejects, ends the computation with what was thrown. *)
Definition await {A B} (m : Promise A) (k : A -> Promise B) : Promise B :=
  match m with
  | inl thrown => inl thrown
  | inr a => k a
  end.

(** [try { body } catch (error) { handler error }] around promises. *)
Definition try_await {A} (body : Promise A) (handler : Thrown -> Promise A) : Promise A :=
  match body with
  | inl thrown => handler thrown
  | inr a => inr a
  end.

(** [(error as Error).message]: the cast checks nothing, and reading a
    property of [null] or [undefined] throws a [TypeError]. *)
Definition message_of (error : Thrown) : Exn (option string) :=
  match error with
  | ThrownNull => throw (TypeError "Cannot read properties of null (reading 'message')")
  | ThrownUndefined =>
      throw (TypeError "Cannot read properties of undefined (reading 'message')")
  | ThrownValue e => ret (message e)
  end.

(** The promise rejects with [null] or [undefined]. *)
Definition rejects_nullish {A} (m : Promise A) : bool :=
  match m with
  | inl ThrownNull | inl ThrownUndefined => true
  | _ => false
  end.

(** ** utils/retry.ts *)

Module Retry.

Record RetryOptions := mkOptions {
  maxRetries : Z;
  retryDelayMs : Z
}.

(** [isThrottlingError] *)
Definition isThrottlingError (error : ErrorWithStatus) : bool :=
  bool_decide (statusCode error = Some 429)
  || match message error with
     | Some m => Js.includes m "throttled"
     | None => false
     end
  || match message error with
     | Some m => Js.includes m "Too Many Requests"
     | None => false
     end.

(** What one call of [retryWithBackoff] did: its outcome, how many times
    it invoked the operation, and the delays it slept, in order. *)
Record Run (T : Type) := mkRun {
  outcome : Exn T;
  invocations : nat;
  waits : list Z
}.
Arguments mkRun {T}.
Arguments outcome {T}.
Arguments invocations {T}.
Arguments waits {T}.

Section retryWithBackoff.
Context {T : Type}.
(** The operation [fn]: [fn k] is what its invocation number [k]
    (counted from 0) settles to. *)
Variable fn : nat -> Exn T.
Variable options : RetryOptions.

(** The [for (let i = 0; i < maxRetries; i++)] loop; [remaining] is the
    number of iterations the loop condition still allows, [calls] and
    [ws] record the invocations and sleeps so far. *)
Fixpoint retry_loop (remaining : nat) (i : Z) (calls : nat) (ws : list Z) : Run T :=
  match remaining with
  | O =>
      mkRun (throw (mkError None (Some "Retry logic failed unexpectedly"))) calls ws
  | S remaining' =>
      match fn calls with
      | inr v => mkRun (ret v) (S calls) ws
      | inl err =>
          let isThrottled := isThrottlingError err in
          if isThrottled && (i <? maxRetries options - 1) then
            let delay := retryDelayMs options * 2 ^ i in
            retry_loop remaining' (i + 1) (S calls) (ws ++ [delay])
          else if i =? maxRetries options - 1 then
            mkRun (throw err) (S calls) ws
          else
            mkRun (throw err) (S calls) ws
      end
  end.

Definition retryWithBackoff : Run T :=
  retry_loop (Z.to_nat (maxRetries options)) 0 0%nat [].

(** The operation was rejected with a throttling error at invocation
    number [j]. *)
Definition throttled_at (j : nat) : Prop :=
  exists e, fn j = inl e /\ isThrottlingError e = true.

(** The delays [retryDelayMs * 2^i], [retryDelayMs * 2^(i+1)], ... of
    [n] consecutive retries from attempt [i] on. *)
Definition backoff (i : Z) (n : nat) : list Z :=
  map (fun j => retryDelayMs options * 2 ^ (i + Z.of_nat j)) (seq 0 n).

End retryWithBackoff.

End Retry.

(** ** types/index.ts *)

Record Manager := mkManager {
  manager_displayName : option string;
  manager_userPrincipalName : option string
}.

Record SignInActivity := mkSignInActivity {
  lastSuccessfulSignInDateTime : option string
}.

Record AssignedLicense := mkAssignedLicense {
  skuId : string;
  disabledPlans : option (list string)
}.

Record ServicePlan := mkServicePlan {
  servicePlanId : string;
  servicePlanName : string;
  provisioningStatus : string
}.

Module LicenseSku.
Record t := mk {
  skuId : string;
  skuPartNumber : string;
  displayName : string;
  servicePlans : list ServicePlan
}.
End LicenseSku.

Module GraphUser.
Record t := mk {
  id : string;
  givenName : option string;
  surname : option string;
  displayName : option string;
  userPrincipalName : option string;
  mail : option string;
  jobTitle : option string;
  department : option string;
  companyName : option string;
  officeLocation : option string;
  employeeId : option string;
  mobilePhone : option string;
  businessPhones : option (list string);
  streetAddress : option string;
  city : option string;
  postalCode : option string;
  state : option string;
  country : option string;
  userType : option string;
  onPremisesSyncEnabled : option bool;
  accountEnabled : option bool;
  createdDateTime : option string;
  assignedLicenses : option (list AssignedLicense);
  signInActivity : option SignInActivity;
  manager : option Manager
}.
End GraphUser.

Record MfaMethodFlags := mkFlags {
  emailAuth : bool;
  fido2Auth : bool;
  msAuthenticatorApp : bool;
  msAuthenticatorLite : bool;
  phoneAuth : bool;
  softwareOath : bool;
  temporaryAccessPass : bool;
  windowsHello : bool
}.

(** ['Enabled' | 'Disabled' | 'Unknown'] *)
Inductive MfaStatus := Enabled | Disabled | Unknown.

Definition MfaStatus_string (s : MfaStatus) : string :=
  match s with
  | Enabled => "Enabled"
  | Disabled => "Disabled"
  | Unknown => "Unknown"
  end.

(** [MfaInfo extends MfaMethodFlags] *)
Record MfaInfo := mkMfaInfo {
  defaultMethod : string;
  mfaStatus : MfaStatus;
  methodFlags : MfaMethodFlags
}.

Record SecurityGroupInfo := mkSecurityGroupInfo {
  groups : list string;
  count : nat
}.

Record LicenseDetails := mkLicenseDetails {
  licenseSkus : list string;
  licenseCount : nat;
  servicePlans : list string
}.

Record ProcessedUserRecord := mkRecord {
  ID : string;
  First_name : option string;
  Last_name : option string;
  Display_name : option string;
  User_principal_name : option string;
  Domain_name : option string;
  Email_address : option string;
  Job_title : option string;
  Manager_display_name : option string;
  Manager_user_principal_name : option string;
  Department : option string;
  Company : option string;
  Office : option string;
  Employee_ID : option string;
  Mobile : option string;
  Phone : option string;
  Street : option string;
  City : option string;
  Postal_code : option string;
  State : option string;
  Country : option string;
  User_type : option string;
  On_Premises_sync : string;
  Account_status : string;
  Account_Created_on : option string;
  Last_successful_sign_in : string;
  Licensed : string;
  DefaultMFAMethod : string;
  MFA_status : string;
  Email_authentication : bool;
  FIDO2_authentication : bool;
  Microsoft_Authenticator_App : bool;
  Microsoft_Authenticator_Lite : bool;
  Phone_authentication : bool;
  Software_Oath : bool;
  Temporary_Access_Pass : bool;
  Windows_Hello_for_Business : bool;
  Security_Groups : string;
  Security_Group_Count : nat;
  License_SKUs : string;
  License_Count : nat;
  Enabled_Service_Plans : string
}.

Record BatchRequestItem := mkBatchRequestItem {
  request_id : string;
  method : string;
  url : string
}.

Record BatchRequest := mkBatchRequest {
  requests : list BatchRequestItem
}.

(** One authentication method of the [authentication/methods] listing. *)
Record AuthMethod := mkAuthMethod {
  method_odata_type : option string;     (* method['@odata.type'] *)
  deviceTag : option string
}.

(** The [body?: any] of a batch response item, narrowed to the two
    properties that the MFA service reads. *)
Record ResponseBody := mkBody {
  body_value : option (list AuthMethod);
  userPreferredMethodForSecondaryAuthentication : option string
}.

Record BatchResponseItem := mkBatchResponseItem {
  response_id : string;
  status : Z;
  body : option ResponseBody
}.

Record BatchResponse := mkBatchResponse {
  responses : list BatchResponseItem
}.

Record ProcessingStats := mkStats {
  totalUsers : nat;
  processed : nat;
  errors : nat;
  startTime : option Z
}.

(** ** services/batchService.ts *)

(** What [MfaService] needs from the batch service it is constructed
    with: the object may be the class below or a stand-in for it, so both
    methods may throw anything. *)
Record BatchService := mkBatchService {
  createBatchRequest : list string -> Promise BatchRequest;
  executeBatch : BatchRequest -> Promise BatchResponse
}.

Module BatchServiceImpl.

Section BatchService.
(** [client.api('/$batch').post(batchRequest)]: what attempt number [k]
    of posting a request settles to. *)
Variable client_post : BatchRequest -> nat -> Exn BatchResponse.
Variable retryOptions : Retry.RetryOptions.

Definition createBatchRequest (urls : list string) : BatchRequest :=
  mkBatchRequest
    (imap (fun index url => mkBatchRequestItem (pretty (index + 1)%nat) "GET" url) urls).

Definition executeBatch (batchRequest : BatchRequest) : Exn BatchResponse :=
  try_catch
    (Retry.outcome (Retry.retryWithBackoff (client_post batchRequest) retryOptions))
    (fun error => ret (mkBatchResponse [])).

Definition service : BatchService :=
  mkBatchService
    (fun urls => inr (createBatchRequest urls))
    (fun batchRequest => settled (executeBatch batchRequest)).
End BatchService.

End BatchServiceImpl.

(** ** services/mfaService.ts *)

Module MfaService.

Definition noFlags : MfaMethodFlags :=
  mkFlags false false false false false false false false.

(** The body of the [mfaMethods.forEach] callback, acting on the two
    variables it assigns. *)
Definition visit (acc : MfaMethodFlags * MfaStatus) (method : AuthMethod)
  : MfaMethodFlags * MfaStatus :=
  let '(f, mfaStatus) := acc in
  let odataType := method_odata_type method in
  if bool_decide (odataType = Some "#microsoft.graph.emailAuthenticationMethod") then
    (mkFlags true (fido2Auth f) (msAuthenticatorApp f) (msAuthenticatorLite f)
       (phoneAuth f) (softwareOath f) (temporaryAccessPass f) (windowsHello f), Enabled)
  else if bool_decide (odataType = Some "#microsoft.graph.fido2AuthenticationMethod") then
    (mkFlags (emailAuth f) true (msAuthenticatorApp f) (msAuthenticatorLite f)
       (phoneAuth f) (softwareOath f) (temporaryAccessPass f) (windowsHello f), Enabled)
  else if bool_decide
            (odataType = Some "#microsoft.graph.microsoftAuthenticatorAuthenticationMethod") then
    if bool_decide (deviceTag method = Some "SoftwareTokenActivated") then
      (mkFlags (emailAuth f) (fido2Auth f) true (msAuthenticatorLite f)
         (phoneAuth f) (softwareOath f) (temporaryAccessPass f) (windowsHello f), Enabled)
    else
      (mkFlags (emailAuth f) (fido2Auth f) (msAuthenticatorApp f) true
         (phoneAuth f) (softwareOath f) (temporaryAccessPass f) (windowsHello f), Enabled)
  else if bool_decide (odataType = Some "#microsoft.graph.phoneAuthenticationMethod") then
    (mkFlags (emailAuth f) (fido2Auth f) (msAuthenticatorApp f) (msAuthenticatorLite f)
       true (softwareOath f) (temporaryAccessPass f) (windowsHello f), Enabled)
  else if bool_decide (odataType = Some "#microsoft.graph.softwareOathAuthenticationMethod") then
    (mkFlags (emailAuth f) (fido2Auth f) (msAuthenticatorApp f) (msAuthenticatorLite f)
       (phoneAuth f) true (temporaryAccessPass f) (windowsHello f), Enabled)
  else if bool_decide
            (odataType = Some "#microsoft.graph.temporaryAccessPassAuthenticationMethod") then
    (mkFlags (emailAuth f) (fido2Auth f) (msAuthenticatorApp f) (msAuthenticatorLite f)
       (phoneAuth f) (softwareOath f) true (windowsHello f), Enabled)
  else if bool_decide
            (odataType = Some "#microsoft.graph.windowsHelloForBusinessAuthenticationMethod") then
    (mkFlags (emailAuth f) (fido2Auth f) (msAuthenticatorApp f) (msAuthenticatorLite f)
       (phoneAuth f) (softwareOath f) (temporaryAccessPass f) true, Enabled)
  else (f, mfaStatus).

(** The object returned by the [catch] block. *)
Definition errorInfo : MfaInfo :=
  mkMfaInfo "Error" Unknown
    (mkFlags false false false false false false false false).

(** The empty object [{}] that stands for a preference call without data. *)
Definition emptyBody : ResponseBody := mkBody None None.

(** The two URLs of the batch. *)
Definition urls (userId : string) : list string :=
  [ "/users/" +:+ userId +:+ "/authentication/methods";
    "/users/" +:+ userId +:+ "/authentication/signInPreferences" ].

(** The call of [createBatchRequest] in front of the [try] block: what it
    throws is not caught. *)
Definition mfaBatchRequest (batchService : BatchService) (userId : string)
  : Promise BatchRequest :=
  createBatchRequest batchService (urls userId).

(** The [try] block from the response on. *)
Definition mfaInfoOf (response : BatchResponse) : Exn MfaInfo :=
  (* responses[0]?.status === 200 ? responses[0].body.value : [] *)
  let* mfaMethods :=
    match responses response !! 0%nat with
    | Some r0 =>
        if status r0 =? 200 then
          match body r0 with
          | Some b => ret (body_value b)
          | None => throw (TypeError "Cannot read properties of undefined (reading 'value')")
          end
        else ret (Some [])
    | None => ret (Some [])
    end in
  (* responses[1]?.status === 200 ? responses[1].body : {} *)
  let mfaPreference :=
    match responses response !! 1%nat with
    | Some r1 => if status r1 =? 200 then body r1 else Some emptyBody
    | None => Some emptyBody
    end in
  let* methods :=
    match mfaMethods with
    | Some l => ret l
    | None => throw (TypeError "Cannot read properties of undefined (reading 'forEach')")
    end in
  let '(flags, mfaStatus) := foldl visit (noFlags, Disabled) methods in
  let* preference :=
    match mfaPreference with
    | Some b => ret b
    | None =>
        throw (TypeError
          "Cannot read properties of undefined (reading 'userPreferredMethodForSecondaryAuthentication')")
    end in
  ret (mkMfaInfo
         (Js.or_else (userPreferredMethodForSecondaryAuthentication preference) "Not set")
         mfaStatus flags).

(** The [catch] block: it reads [err.message] for the log line, then
    returns the fixed object. *)
Definition recover (error : Thrown) : Exn MfaInfo :=
  let* message := message_of error in
  ret errorInfo.

Definition getUserMfaInfo (batchService : BatchService) (userId : string) : Promise MfaInfo :=
  await (mfaBatchRequest batchService userId) (fun batchRequest =>
    try_await
      (await (executeBatch batchService batchRequest) (fun response =>
         settled (mfaInfoOf response)))
      (fun error => settled (recover error))).

End MfaService.

(** ** services/groupService.ts *)

Module GroupService.

(** One member of the [memberOf] listing, with the three properties that
    the service reads. *)
Record DirectoryObject := mkDirectoryObject {
  odata_type : option string;            (* group['@odata.type'] *)
  securityEnabled : option bool;
  displayName : string
}.

Record MemberOfResponse := mkMemberOfResponse {
  value : option (list DirectoryObject)
}.

(** The predicate given to [response.value.filter]. *)
Definition isSecurityGroup (group : DirectoryObject) : bool :=
  bool_decide (odata_type group = Some "#microsoft.graph.group")
  && match securityEnabled group with
     | Some b => b
     | None => false
     end.

(** A member is a security group: its type discriminator is that of a
    group and its security-enabled flag is true. *)
Definition eligible (group : DirectoryObject) : Prop :=
  odata_type group = Some "#microsoft.graph.group" /\ securityEnabled group = Some true.

#[global] Instance eligible_dec group : Decision (eligible group).
Proof. unfold eligible. apply _. Defined.

Section GroupService.
(** [client.api(path).get()]: what attempt number [k] settles to. *)
Variable client_get : string -> nat -> Exn MemberOfResponse.
Variable retryOptions : Retry.RetryOptions.

(** [await retryWithBackoff(() => client.api(path).get(), retryOptions)] *)
Definition memberOf (userId : string) : Exn MemberOfResponse :=
  Retry.outcome
    (Retry.retryWithBackoff (client_get ("/users/" +:+ userId +:+ "/memberOf"))
       retryOptions).

Definition getUserSecurityGroups (userId : string) : Exn SecurityGroupInfo :=
  try_catch
    (let* response := memberOf userId in
     let* members :=
       match value response with
       | Some l => ret l
       | None => throw (TypeError "Cannot read properties of undefined (reading 'filter')")
       end in
     let securityGroups := List.filter isSecurityGroup members in
     ret (mkSecurityGroupInfo
            (Js.sort (map displayName securityGroups))
            (length securityGroups)))
    (fun error => ret (mkSecurityGroupInfo [] 0%nat)).
End GroupService.

End GroupService.

(** ** services/licenseService.ts *)

Module LicenseService.

Section LicenseService.
(** The cache [licenseSkuMap : Map<string, LicenseSku>]. *)
Variable licenseSkuMap : gmap string LicenseSku.t.

(** The callback of [skuInfo.servicePlans.forEach], acting on the set
    [allServicePlans]. *)
Definition collectPlan (disabled : list string) (allServicePlans : list string)
    (plan : ServicePlan) : list string :=
  if negb (bool_decide (servicePlanId plan ∈ disabled))
     && String.eqb (provisioningStatus plan) "Success"
  then Js.add (servicePlanName plan) allServicePlans
  else allServicePlans.

(** The callback of [assignedLicenses.forEach], acting on the array
    [licenseNames] and the set [allServicePlans]. *)
Definition visit (acc : list string * list string) (license : AssignedLicense)
  : list string * list string :=
  let '(licenseNames, allServicePlans) := acc in
  match licenseSkuMap !! skuId license with
  | Some skuInfo =>
      let disabled := default [] (disabledPlans license) in
      ((licenseNames ++ [LicenseSku.displayName skuInfo])%list,
       foldl (collectPlan disabled) allServicePlans (LicenseSku.servicePlans skuInfo))
  | None => ((licenseNames ++ [skuId license])%list, allServicePlans)
  end.

(** The display name an assignment stands for: the catalog's name of its
    SKU, or the raw SKU identifier when the catalog has no entry. *)
Definition licenseName (license : AssignedLicense) : string :=
  match licenseSkuMap !! skuId license with
  | Some skuInfo => LicenseSku.displayName skuInfo
  | None => skuId license
  end.

(** [name] is a service plan of the assignment's SKU that the assignment
    does not disable and whose provisioning status is "Success". *)
Definition enabledPlan (license : AssignedLicense) (name : string) : Prop :=
  exists skuInfo plan,
    licenseSkuMap !! skuId license = Some skuInfo
    /\ plan ∈ LicenseSku.servicePlans skuInfo
    /\ (servicePlanId plan ∉ default [] (disabledPlans license))
    /\ provisioningStatus plan = "Success"
    /\ servicePlanName plan = name.

Definition getUserLicenseDetails (assignedLicenses : option (list AssignedLicense))
  : LicenseDetails :=
  match assignedLicenses with
  | None => mkLicenseDetails [] 0%nat []
  | Some [] => mkLicenseDetails [] 0%nat []
  | Some licenses =>
      let '(licenseNames, allServicePlans) := foldl visit ([], []) licenses in
      mkLicenseDetails
        (Js.sort (Js.to_set licenseNames))
        (length licenses)
        (Js.sort allServicePlans)
  end.
End LicenseService.

End LicenseService.

(** ** The limiter of [processAllUsers] *)

(** Modelled from the spec: the package [p-limit], whose [pLimit] the
    processor imports, is not among the sources. The design document
    (section 4.2, step 3, and section 5) describes it: at most N tasks are
    running at once, the others wait in submission order and are admitted
    as running tasks complete, first in first out. A job is named by the
    index of its user. The check that [pLimit] makes on its argument is not
    described there and is left out; the properties of the fan-out that
    need a usable limit assume [1 <= concurrency]. *)
Module PLimit.

Record t := mk {
  concurrency : Z;
  queue : list nat;        (* submitted, not yet started; head is next *)
  running : list nat       (* started, promise not yet settled *)
}.

(** [pLimit(concurrency)] *)
Definition pLimit (concurrency : Z) : t := mk concurrency [] [].

(** [limit(job)]: the job joins the end of the queue. *)
Definition enqueue (l : t) (job : nat) : t :=
  mk (concurrency l) (queue l ++ [job]) (running l).

(** The head of the queue starts when fewer than [concurrency] jobs run. *)
Definition next (l : t) : option (nat * t) :=
  match queue l with
  | job :: rest =>
      if Z.of_nat (length (running l)) <? concurrency l
      then Some (job, mk (concurrency l) rest (running l ++ [job]))
      else None
  | [] => None
  end.

(** A running job has settled and leaves. *)
Definition release (l : t) (job : nat) : t :=
  mk (concurrency l) (queue l) (filter (fun j => j <> job) (running l)).

End PLimit.

(** ** services/userProcessor.ts *)

Module UserProcessor.

(** The three services a [UserProcessor] is constructed with, which may
    be the classes of the repository or stand-ins for them. The last field
    belongs to the timing of the two lookups: for a user both of whose
    lookups reject, whether the rejection of the group lookup comes
    first. *)
Record Services := mkServices {
  getUserMfaInfo : string -> Promise MfaInfo;
  getUserSecurityGroups : string -> Promise SecurityGroupInfo;
  getUserLicenseDetails : option (list AssignedLicense) -> LicenseDetails;
  groupsRejectFirst : string -> bool
}.

(** [await Promise.all([a, b])]: rejects as soon as one of them does, with
    what that one rejects with; [bFirst] tells which one that is when both
    reject. *)
Definition Promise_all2 {A B} (bFirst : bool) (a : Promise A) (b : Promise B)
  : Promise (A * B) :=
  match a, b with
  | inr x, inr y => inr (x, y)
  | inl thrown, inr _ => inl thrown
  | inr _, inl thrown => inl thrown
  | inl thrownA, inl thrownB => inl (if bFirst then thrownB else thrownA)
  end.

Definition enabled_string (b : option bool) : string :=
  match b with
  | Some true => "enabled"
  | _ => "disabled"
  end.

(** [user.userPrincipalName?.includes('@')
      ? user.userPrincipalName.split('@')[1] : null] *)
Definition domainName (user : GraphUser.t) : option string :=
  match GraphUser.userPrincipalName user with
  | Some upn =>
      if Js.includes upn "@" then Js.split "@"%char upn !! 1%nat else None
  | None => None
  end.

(** The sign-in activity expression. *)
Definition lastSignIn (user : GraphUser.t) (hasPremium : bool) : string :=
  match GraphUser.signInActivity user ≫= lastSuccessfulSignInDateTime with
  | Some ts =>
      if hasPremium && Js.truthy (Some ts) then ts
      else if hasPremium then "No sign in"
      else "No Microsoft Entra ID Premium license"
  | None =>
      if hasPremium then "No sign in"
      else "No Microsoft Entra ID Premium license"
  end.

Definition licensed (user : GraphUser.t) : string :=
  match GraphUser.assignedLicenses user with
  | Some l => if (0 <? length l)%nat then "Yes" else "No"
  | None => "No"
  end.

Section UserProcessor.
Variable services : Services.

(** The [try] block of [processUser] without its counter update: the two
    awaited lookups, the license details and the record. The object
    literal that follows [this.stats.processed++] only reads properties and
    joins arrays of strings, so nothing is thrown between that update and
    the [return]; the lookups are the only part that can fail. *)
Definition buildRecord (user : GraphUser.t) (hasPremium : bool)
  : Promise ProcessedUserRecord :=
  await
    (Promise_all2 (groupsRejectFirst services (GraphUser.id user))
       (getUserMfaInfo services (GraphUser.id user))
       (getUserSecurityGroups services (GraphUser.id user)))
    (fun both =>
  let mfaInfo := fst both in
  let securityGroups := snd both in
  let licenseDetails := getUserLicenseDetails services (GraphUser.assignedLicenses user) in
  let managerDisplayName :=
    Js.or_null (GraphUser.manager user ≫= manager_displayName) in
  let managerUserPrincipalName :=
    Js.or_null (GraphUser.manager user ≫= manager_userPrincipalName) in
  inr {|
    ID := GraphUser.id user;
    First_name := GraphUser.givenName user;
    Last_name := GraphUser.surname user;
    Display_name := GraphUser.displayName user;
    User_principal_name := GraphUser.userPrincipalName user;
    Domain_name := domainName user;
    Email_address := GraphUser.mail user;
    Job_title := GraphUser.jobTitle user;
    Manager_display_name := managerDisplayName;
    Manager_user_principal_name := managerUserPrincipalName;
    Department := GraphUser.department user;
    Company := GraphUser.companyName user;
    Office := GraphUser.officeLocation user;
    Employee_ID := GraphUser.employeeId user;
    Mobile := GraphUser.mobilePhone user;
    Phone := Js.join "," <$> GraphUser.businessPhones user;
    Street := GraphUser.streetAddress user;
    City := GraphUser.city user;
    Postal_code := GraphUser.postalCode user;
    State := GraphUser.state user;
    Country := GraphUser.country user;
    User_type := GraphUser.userType user;
    On_Premises_sync := enabled_string (GraphUser.onPremisesSyncEnabled user);
    Account_status := enabled_string (GraphUser.accountEnabled user);
    Account_Created_on := GraphUser.createdDateTime user;
    Last_successful_sign_in := lastSignIn user hasPremium;
    Licensed := licensed user;
    DefaultMFAMethod := defaultMethod mfaInfo;
    MFA_status := MfaStatus_string (mfaStatus mfaInfo);
    Email_authentication := emailAuth (methodFlags mfaInfo);
    FIDO2_authentication := fido2Auth (methodFlags mfaInfo);
    Microsoft_Authenticator_App := msAuthenticatorApp (methodFlags mfaInfo);
    Microsoft_Authenticator_Lite := msAuthenticatorLite (methodFlags mfaInfo);
    Phone_authentication := phoneAuth (methodFlags mfaInfo);
    Software_Oath := softwareOath (methodFlags mfaInfo);
    Temporary_Access_Pass := temporaryAccessPass (methodFlags mfaInfo);
    Windows_Hello_for_Business := windowsHello (methodFlags mfaInfo);
    Security_Groups := Js.join "; " (groups securityGroups);
    Security_Group_Count := count securityGroups;
    License_SKUs := Js.join "; " (licenseSkus licenseDetails);
    License_Count := licenseCount licenseDetails;
    Enabled_Service_Plans := Js.join "; " (servicePlans licenseDetails)
  |}).

(** [processUser]: what the promise settles to ([None] is [null]) and
    the update it makes to [this.stats] when the awaited lookups have
    settled. From that point to its end the method runs without another
    [await], so the update is one step on the shared counters. The [catch]
    block counts the error first and then reads [err.message] for the log
    line, which throws when the lookup rejected with [null] or
    [undefined]: the promise of [processUser] then rejects. *)
Definition processUser (user : GraphUser.t) (hasPremium : bool) (stats : ProcessingStats)
  : Exn (option ProcessedUserRecord) * ProcessingStats :=
  match buildRecord user hasPremium with
  | inr record =>
      (ret (Some record),
       mkStats (totalUsers stats) (S (processed stats)) (errors stats) (startTime stats))
  | inl error =>
      (let* message := message_of error in ret None,
       mkStats (totalUsers stats) (processed stats) (S (errors stats)) (startTime stats))
  end.

(** What the promise of [processUser] settles to for a user. *)
Definition settlement (user : GraphUser.t) (hasPremium : bool)
  : Exn (option ProcessedUserRecord) :=
  match buildRecord user hasPremium with
  | inr record => ret (Some record)
  | inl error => let* message := message_of error in ret None
  end.

(** What [processUser] resolves to for a user when it resolves. *)
Definition recordOf (user : GraphUser.t) (hasPremium : bool) : option ProcessedUserRecord :=
  match buildRecord user hasPremium with
  | inr record => Some record
  | inl error => None
  end.

(** The enrichment of the user fails: one of the awaited lookups rejects. *)
Definition fails (user : GraphUser.t) (hasPremium : bool) : bool :=
  raises (buildRecord user hasPremium).

End UserProcessor.

(** *** [processAllUsers] *)

(** One turn of the event loop during the fan-out: the limiter starts
    the next queued [processUser], or the lookups of the running
    invocation for user number [i] have settled and it runs to its
    [return]. (The progress timer only reads the counters.) *)
Inductive Action := Start | Settle (i : nat).

(** The state between two turns: the limiter, the slots of the
    [Promise.all] array ([None]: no value yet, [Some r]: resolved to
    [r]), [this.stats], and what the promise of [Promise.all] has rejected
    with, if one of its tasks has rejected. *)
Record State := mkState {
  limiter : PLimit.t;
  slots : list (option (option ProcessedUserRecord));
  stats : ProcessingStats;
  rejected : option ErrorWithStatus
}.

(** The promise of [Promise.all] rejects with what the first of its
    tasks to reject has rejected with. *)
Definition reject {R} (first : option ErrorWithStatus) (outcome : Exn R)
  : option ErrorWithStatus :=
  match first, outcome with
  | None, inl error => Some error
  | first, _ => first
  end.

(** The non-null results among the slots, in slot order. *)
Definition resolved {R} (slots : list (option (option R))) : list R :=
  omap (fun slot => default None slot) slots.

(** The number of slots resolved to [null]. *)
Definition null_count {R} (slots : list (option (option R))) : nat :=
  length (List.filter (fun slot => match slot with Some None => true | _ => false end) slots).

Section processAllUsers.
Variable services : Services.
Variable maxConcurrency : Z.
Variable users : list GraphUser.t.
Variable hasPremium : bool.
(** [Date.now()] at the start of the run. *)
Variable now : Z.

(** The state after [users.map((user) => limit(...))]: the counters are
    reset, one limiter holds every user, every slot is pending. *)
Definition start : State :=
  mkState
    (foldl PLimit.enqueue (PLimit.pLimit maxConcurrency) (seq 0 (length users)))
    (replicate (length users) None)
    (mkStats (length users) 0 0 (Some now))
    None.

Definition step (a : Action) (s : State) : option State :=
  match a with
  | Start =>
      match PLimit.next (limiter s) with
      | Some (_, l') => Some (mkState l' (slots s) (stats s) (rejected s))
      | None => None
      end
  | Settle i =>
      if bool_decide (i ∈ PLimit.running (limiter s)) then
        match users !! i with
        | Some user =>
            let '(outcome, stats') := processUser services user hasPremium (stats s) in
            Some (mkState (PLimit.release (limiter s) i)
                    match outcome with
                    | inr r => <[i := Some r]> (slots s)
                    | inl error => slots s
                    end
                    stats'
                    (reject (rejected s) outcome))
        | None => None
        end
      else None
  end.

Fixpoint run (schedule : list Action) (s : State) : option State :=
  match schedule with
  | [] => Some s
  | a :: rest =>
      match step a s with
      | Some s' => run rest s'
      | None => None
      end
  end.

(** Every task has settled: nothing is queued or running. *)
Definition finished (s : State) : bool :=
  match PLimit.queue (limiter s), PLimit.running (limiter s) with
  | [], [] => true
  | _, _ => false
  end.

(** [results.filter((r) => r !== null)] *)
Definition collect (s : State) : list ProcessedUserRecord :=
  resolved (slots s).

(** [processAllUsers] along one schedule of the event loop. The [await]
    of [Promise.all] throws as soon as one task has rejected, and nothing
    catches it: the call rejects. Otherwise, when every task has settled,
    the call returns the records, leaving the counters. [None] when the
    schedule is no run of the fan-out, or ends with the call still
    waiting. *)
Definition processAllUsers (schedule : list Action)
  : option (Exn (list ProcessedUserRecord * ProcessingStats)) :=
  match run schedule start with
  | Some s =>
      match rejected s with
      | Some error => Some (throw error)
      | None => if finished s then Some (ret (collect s, stats s)) else None
      end
  | None => None
  end.

(** The number of slots resolved to [null]. *)
Definition nulls (s : State) : nat :=
  null_count (slots s).

(** What holds between any two turns of the fan-out, [started] users
    having been started so far. The users from number [started] on are
    still queued, in order; the running ones come before them; as long as
    no task has rejected, a slot is pending exactly while its user is
    queued or running, and otherwise holds what [processUser] has
    resolved to for that user, and the counters count the resolved
    slots. *)
Record Invariant (started : nat) (s : State) : Prop := mkInvariant {
  inv_concurrency : PLimit.concurrency (limiter s) = maxConcurrency;
  inv_started_le : (started <= length users)%nat;
  inv_queue : PLimit.queue (limiter s) = seq started (length users - started);
  inv_running : forall i, i ∈ PLimit.running (limiter s) -> (i < started)%nat;
  inv_running_NoDup : NoDup (PLimit.running (limiter s));
  inv_bound : Z.of_nat (length (PLimit.running (limiter s))) <= Z.max 0 maxConcurrency;
  inv_slots : rejected s = None -> forall i user, users !! i = Some user ->
    slots s !! i =
    Some (if decide (i ∈ PLimit.running (limiter s) \/ (started <= i)%nat)
          then None else Some (recordOf services user hasPremium));
  inv_length : length (slots s) = length users;
  inv_total : totalUsers (stats s) = length users;
  inv_processed : rejected s = None -> processed (stats s) = length (collect s);
  inv_errors : rejected s = None -> errors (stats s) = nulls s;
  inv_startTime : startTime (stats s) = Some now;
  inv_settled : rejected s = None -> forall i user, users !! i = Some user ->
    ~ (i ∈ PLimit.running (limiter s) \/ (started <= i)%nat) ->
    exists r, settlement services user hasPremium = inr r
}.

(** How far a state is from the end of the fan-out. *)
Definition distance (s : State) : nat :=
  2 * length (PLimit.queue (limiter s)) + length (PLimit.running (limiter s)).

(** The greatest number of [processUser] invocations unresolved at any
    point of a schedule. *)
Fixpoint peak (schedule : list Action) (s : State) : nat :=
  match schedule with
  | [] => length (PLimit.running (limiter s))
  | a :: rest =>
      match step a s with
      | Some s' => Nat.max (length (PLimit.running (limiter s))) (peak rest s')
      | None => length (PLimit.running (limiter s))
      end
  end.

End processAllUsers.

(** The run in which every user is admitted and settles before the next
    one starts. *)
Definition sequential (n : nat) : list Action :=
  flat_map (fun i => [Start; Settle i]) (seq 0 n).

End UserProcessor.

(** ** index.ts: the services as [main] wires them *)

Definition repositoryServices
    (client_post : BatchRequest -> nat -> Exn BatchResponse)
    (client_get : string -> nat -> Exn GroupService.MemberOfResponse)
    (retryOptions : Retry.RetryOptions)
    (licenseSkuMap : gmap string LicenseSku.t) : UserProcessor.Services :=
  UserProcessor.mkServices
    (MfaService.getUserMfaInfo (BatchServiceImpl.service client_post retryOptions))
    (fun userId => settled (GroupService.getUserSecurityGroups client_get retryOptions userId))
    (LicenseService.getUserLicenseDetails licenseSkuMap)
    (fun userId => false).

(** ** Sample data, after tests/unit and tests/fixtures *)

Module Fixtures.

Definition tooManyRequests : ErrorWithStatus :=
  mkError (Some 429) (Some "Too Many Requests").


Definition apiError : ErrorWithStatus :=
  mkError None (Some "API Error").



Definition threeAttempts : Retry.RetryOptions := Retry.mkOptions 3 100.

(** A user with the given identifier, principal name, sign-in activity
    and licenses, and no other property. *)
Definition user (id : string) (userPrincipalName : option string)
    (signInActivity : option SignInActivity)
    (assignedLicenses : option (list AssignedLicense)) : GraphUser.t :=
  GraphUser.mk id None None None userPrincipalName None None None None None None None None
    None None None None None None None None None assignedLicenses signInActivity None.

Definition john : GraphUser.t :=
  user "12345678" (Some "john.doe@contoso.com")
    (Some (mkSignInActivity (Some "2024-03-01T08:30:00Z")))
    (Some [mkAssignedLicense "sku-1" (Some ["plan-2"])]).

Definition jane : GraphUser.t :=
  user "87654321" (Some "jane.smith@contoso.com") None
    (Some [mkAssignedLicense "X" None]).

Definition ghost : GraphUser.t :=
  user "00000000" (Some "ghost") (Some (mkSignInActivity (Some ""))) None.

(** The catalog of the license service tests. *)
Definition enterpriseCatalog : gmap string LicenseSku.t :=
  {[ "sku-1" :=
       LicenseSku.mk "sku-1" "ENTERPRISEPACK" "Office 365 E3"
         [ mkServicePlan "plan-1" "EXCHANGE_S_ENTERPRISE" "Success";
           mkServicePlan "plan-2" "SHAREPOINTENTERPRISE" "Success";
           mkServicePlan "plan-3" "DISABLED_PLAN" "Disabled" ] ]}.

(** A batch service whose [executeBatch] is mocked to reject, as in the
    unit test 'should handle API errors gracefully'. *)
Definition rejectingBatchService : BatchService :=
  mkBatchService (fun _ => inr (mkBatchRequest [])) (fun _ => inl (ThrownValue apiError)).

(** A batch service whose [executeBatch] rejects with [null]. *)
Definition nullBatchService : BatchService :=
  mkBatchService (fun _ => inr (mkBatchRequest [])) (fun _ => inl ThrownNull).

(** The membership listing of the design document's scenario: a security
    group, a group that is not security-enabled, and a security-enabled
    administrative unit. *)
Definition mixedMembers : list GroupService.DirectoryObject :=
  [ GroupService.mkDirectoryObject (Some "#microsoft.graph.group") (Some true) "Security Team";
    GroupService.mkDirectoryObject (Some "#microsoft.graph.group") (Some false) "Lunch Club";
    GroupService.mkDirectoryObject (Some "#microsoft.graph.administrativeUnit") (Some true)
      "Head Office" ].

Definition mixedMembership (path : string) (k : nat) : Exn GroupService.MemberOfResponse :=
  inr (GroupService.mkMemberOfResponse (Some mixedMembers)).

Definition failingGet (path : string) (k : nat) : Exn GroupService.MemberOfResponse :=
  inl apiError.

(** A Graph client whose every [post] is rejected. *)
Definition failingPost (request : BatchRequest) (k : nat) : Exn BatchResponse :=
  inl apiError.

(** The services as [main] wires them, over a client whose batch posts
    fail and whose membership listing is [mixedMembers]. *)
Definition quietServices : UserProcessor.Services :=
  repositoryServices failingPost mixedMembership threeAttempts enterpriseCatalog.

Definition noMfa : MfaInfo :=
  mkMfaInfo "Not set" Disabled (mkFlags false false false false false false false false).

(** Mocked services: the MFA lookup rejects for the listed user ids. *)
Definition flakyServices (failing : list string) : UserProcessor.Services :=
  UserProcessor.mkServices
    (fun userId =>
       if bool_decide (userId ∈ failing) then inl (ThrownValue apiError) else inr noMfa)
    (fun userId => inr (mkSecurityGroupInfo [] 0))
    (LicenseService.getUserLicenseDetails enterpriseCatalog)
    (fun userId => false).

(** Mocked services: the MFA lookup rejects with [null] for the listed
    user ids. *)
Definition nullServices (failing : list string) : UserProcessor.Services :=
  UserProcessor.mkServices
    (fun userId => if bool_decide (userId ∈ failing) then inl ThrownNull else inr noMfa)
    (fun userId => inr (mkSecurityGroupInfo [] 0))
    (LicenseService.getUserLicenseDetails enterpriseCatalog)
    (fun userId => false).

(** The batch service of the test 'should detect Microsoft Authenticator
    App'. *)
Definition authenticatorBatchService : BatchService :=
  mkBatchService (fun _ => inr (mkBatchRequest []))
    (fun _ =>
       inr (mkBatchResponse
              [ mkBatchResponseItem "1" 200
                  (Some (mkBody
                           (Some [ mkAuthMethod
                                     (Some "#microsoft.graph.microsoftAuthenticatorAuthenticationMethod")
                                     (Some "SoftwareTokenActivated");
                                   mkAuthMethod
                                     (Some "#microsoft.graph.phoneAuthenticationMethod") None ])
                           None));
                mkBatchResponseItem "2" 200 (Some (mkBody None (Some "push"))) ])).

(** A response with status 200 that carries no body. *)
Definition bodilessBatchService : BatchService :=
  mkBatchService (fun _ => inr (mkBatchRequest []))
    (fun _ => inr (mkBatchResponse [ mkBatchResponseItem "1" 200 None ])).

Definition alwaysThrottled (k : nat) : Exn string := inl tooManyRequests.

(** Three users, of whom Jane's MFA lookup is made to fail. *)
Definition team : list GraphUser.t := [john; jane; ghost].

Definition janeFails : UserProcessor.Services := flakyServices ["87654321"].

(** Three users, of whom Jane's MFA lookup rejects with [null]. *)
Definition janeRejectsNull : UserProcessor.Services := nullServices ["87654321"].

(** A run with two invocations in flight in which the users settle out of
    order: the third before the first. *)
Definition outOfOrder : list UserProcessor.Action :=
  [ UserProcessor.Start; UserProcessor.Start; UserProcessor.Settle 1; UserProcessor.Start;
    UserProcessor.Settle 2; UserProcessor.Settle 0 ].

(** A user whose principal name has two "@". *)
Definition twoAts : GraphUser.t := user "11111111" (Some "a@b@c") None None.

End Fixtures.

(** ** Further vocabulary for the retry helper *)

Module RetrySpec.

(** The time one call of [retryWithBackoff] spent sleeping. *)
Definition totalWait {T} (r : Retry.Run T) : Z :=
  foldr Z.add 0 (Retry.waits r).

(** [jest.fn().mockRejectedValueOnce(429) ... .mockResolvedValue('success')]
    with [k] rejections. *)
Definition throttledThenSuccess (k : nat) (j : nat) : Exn string :=
  if (j <? k)%nat then inl (mkError (Some 429) None) else inr "success".

End RetrySpec.

(** ** Vocabulary for the MFA lookup *)

Module MfaSpec.

Definition emailType : string := "#microsoft.graph.emailAuthenticationMethod".
Definition fido2Type : string := "#microsoft.graph.fido2AuthenticationMethod".
Definition authenticatorType : string :=
  "#microsoft.graph.microsoftAuthenticatorAuthenticationMethod".
Definition phoneType : string := "#microsoft.graph.phoneAuthenticationMethod".
Definition softwareOathType : string := "#microsoft.graph.softwareOathAuthenticationMethod".
Definition temporaryAccessPassType : string :=
  "#microsoft.graph.temporaryAccessPassAuthenticationMethod".
Definition windowsHelloType : string :=
  "#microsoft.graph.windowsHelloForBusinessAuthenticationMethod".

(** The method has the given ['@odata.type']. *)
Definition isType (type : string) (method : AuthMethod) : bool :=
  bool_decide (method_odata_type method = Some type).

(** An authenticator method registered as the full app. *)
Definition isApp (method : AuthMethod) : bool :=
  isType authenticatorType method
  && bool_decide (deviceTag method = Some "SoftwareTokenActivated").

(** Any other authenticator method. *)
Definition isLite (method : AuthMethod) : bool :=
  isType authenticatorType method
  && negb (bool_decide (deviceTag method = Some "SoftwareTokenActivated")).

(** The method has one of the seven types that the service knows. *)
Definition recognised (method : AuthMethod) : bool :=
  isType emailType method || isType fido2Type method
  || isType authenticatorType method || isType phoneType method
  || isType softwareOathType method || isType temporaryAccessPassType method
  || isType windowsHelloType method.

(** One flag per kind of method: is a method of that kind listed? *)
Definition flagsOf (methods : list AuthMethod) : MfaMethodFlags :=
  mkFlags (existsb (isType emailType) methods)
          (existsb (isType fido2Type) methods)
          (existsb isApp methods)
          (existsb isLite methods)
          (existsb (isType phoneType) methods)
          (existsb (isType softwareOathType) methods)
          (existsb (isType temporaryAccessPassType) methods)
          (existsb (isType windowsHelloType) methods).

Definition statusOf (methods : list AuthMethod) : MfaStatus :=
  if existsb recognised methods then Enabled else Disabled.

Definition orFlags (f g : MfaMethodFlags) : MfaMethodFlags :=
  mkFlags (emailAuth f || emailAuth g) (fido2Auth f || fido2Auth g)
          (msAuthenticatorApp f || msAuthenticatorApp g)
          (msAuthenticatorLite f || msAuthenticatorLite g)
          (phoneAuth f || phoneAuth g) (softwareOath f || softwareOath g)
          (temporaryAccessPass f || temporaryAccessPass g)
          (windowsHello f || windowsHello g).

(** At least one of the eight flags is set. *)
Definition anyFlag (f : MfaMethodFlags) : bool :=
  emailAuth f || fido2Auth f || msAuthenticatorApp f || msAuthenticatorLite f
  || phoneAuth f || softwareOath f || temporaryAccessPass f || windowsHello f.

(** Both calls of the batch were answered with status 200 and a body: the
    first with the list [methods], the second with the preference
    [preferred]. *)
Definition answered (response : BatchResponse) (methods : list AuthMethod)
    (preferred : option string) : Prop :=
  exists r0 b0 r1 b1,
    responses response !! 0%nat = Some r0 /\ status r0 = 200 /\ body r0 = Some b0
    /\ body_value b0 = Some methods
    /\ responses response !! 1%nat = Some r1 /\ status r1 = 200 /\ body r1 = Some b1
    /\ userPreferredMethodForSecondaryAuthentication b1 = preferred.

(** The call at position [i] of the batch has no answer, or an answer
    whose status is not 200. *)
Definition unanswered (response : BatchResponse) (i : nat) : Prop :=
  match responses response !! i with
  | Some r => status r <> 200
  | None => True
  end.

(** The list that the [forEach] runs over; [None] when reading it throws
    (status 200 without a body, or a body without [value]). *)
Definition methodsOf (response : BatchResponse) : option (list AuthMethod) :=
  match responses response !! 0%nat with
  | Some r0 => if status r0 =? 200 then body r0 ≫= body_value else Some []
  | None => Some []
  end.

(** The preferred method read from the second answer; [None] when reading
    it throws (status 200 without a body). *)
Definition preferenceOf (response : BatchResponse) : option (option string) :=
  match responses response !! 1%nat with
  | Some r1 =>
      if status r1 =? 200
      then userPreferredMethodForSecondaryAuthentication <$> body r1
      else Some None
  | None => Some None
  end.

(** A batch service that resolves to the given response. *)
Definition answering (response : BatchResponse) : BatchService :=
  mkBatchService (fun _ => inr (mkBatchRequest [])) (fun _ => inr response).

Definition twoMethods : list AuthMethod :=
  [ mkAuthMethod (Some phoneType) None;
    mkAuthMethod (Some authenticatorType) (Some "SoftwareTokenActivated") ].

Definition twoMethodsResponse (methods : list AuthMethod) : BatchResponse :=
  mkBatchResponse
    [ mkBatchResponseItem "1" 200 (Some (mkBody (Some methods) None));
      mkBatchResponseItem "2" 200 (Some (mkBody None (Some "push"))) ].

(** Both calls refused: 404 and 403, as in the test 'should handle failed
    batch responses'. *)
Definition refusedResponse : BatchResponse :=
  mkBatchResponse
    [ mkBatchResponseItem "1" 404 (Some (mkBody (Some twoMethods) None));
      mkBatchResponseItem "2" 403 (Some (mkBody None (Some "push"))) ].

End MfaSpec.

(** ** services/skuMappingService.ts *)

Module SkuMappingService.

(** The double quote character. *)
Definition quote : ascii := ascii_of_nat 34.

(** The loop of [parseCsvLine] over the characters that are left, with
    its three variables. *)
Fixpoint parseCsvLine_from (line : string) (fields : list string) (currentField : string)
    (insideQuotes : bool) : list string :=
  match line with
  | EmptyString => fields ++ [currentField]
  | String char rest =>
      if Ascii.eqb char quote then
        parseCsvLine_from rest fields currentField (negb insideQuotes)
      else if Ascii.eqb char "," && negb insideQuotes then
        parseCsvLine_from rest (fields ++ [currentField]) EmptyString insideQuotes
      else
        parseCsvLine_from rest fields (currentField +:+ String char EmptyString) insideQuotes
  end.

Definition parseCsvLine (line : string) : list string :=
  parseCsvLine_from line [] EmptyString false.

(** The two lookup tables of the service. *)
Record Mapping := mkMapping {
  mappingByStringId : gmap string string;
  mappingByGuid : gmap string string
}.

Definition getFriendlyNameByStringId (m : Mapping) (stringId : string) : option string :=
  mappingByStringId m !! stringId.

Definition getFriendlyNameByGuid (m : Mapping) (guid : string) : option string :=
  mappingByGuid m !! guid.

(** The tables of a service whose download failed: both empty. *)
Definition noMapping : Mapping := mkMapping ∅ ∅.

(** The line with its double quotes taken out. *)
Fixpoint withoutQuotes (line : string) : string :=
  match line with
  | EmptyString => EmptyString
  | String char rest =>
      if Ascii.eqb char quote then withoutQuotes rest
      else String char (withoutQuotes rest)
  end.

(** A string without the character [c]. *)
Fixpoint free_of (c : ascii) (s : string) : bool :=
  match s with
  | EmptyString => true
  | String char rest => negb (Ascii.eqb char c) && free_of c rest
  end.

(** The line feed, the separator of [csvContent.split('\n')]. *)
Definition newline : ascii := ascii_of_nat 10.

Section parseCsvAndBuildMap.
(** [String.prototype.trim] and [String.prototype.toLowerCase]. *)
Variable trim : string -> string.
Variable toLowerCase : string -> string.

(** The body of the loop of [parseCsvAndBuildMap] for [lines[i]], acting
    on the two tables and on the sets [seenStringIds] and [seenGuids]. *)
Definition visitLine (state : Mapping * list string * list string) (rawLine : string)
  : Mapping * list string * list string :=
  let '(tables, seenStringIds, seenGuids) := state in
  let line := trim rawLine in
  if negb (Js.truthy (Some line)) then state
  else
    let fields := parseCsvLine line in
    if (length fields <? 3)%nat then state
    else
      match fields with
      | field0 :: field1 :: field2 :: _ =>
          let productDisplayName := trim field0 in
          let stringId := trim field1 in
          let guid := toLowerCase (trim field2) in
          let '(byStringId, seenStringIds) :=
            if negb (bool_decide (stringId ∈ seenStringIds))
               && Js.truthy (Some stringId) && Js.truthy (Some productDisplayName)
            then (<[ stringId := productDisplayName ]> (mappingByStringId tables),
                  Js.add stringId seenStringIds)
            else (mappingByStringId tables, seenStringIds) in
          let '(byGuid, seenGuids) :=
            if negb (bool_decide (guid ∈ seenGuids))
               && Js.truthy (Some guid) && Js.truthy (Some productDisplayName)
            then (<[ guid := productDisplayName ]> (mappingByGuid tables),
                  Js.add guid seenGuids)
            else (mappingByGuid tables, seenGuids) in
          (mkMapping byStringId byGuid, seenStringIds, seenGuids)
      | _ => state
      end.

(** [parseCsvAndBuildMap]: the tables it leaves. The loop starts at the
    second line. *)
Definition parseCsvAndBuildMap (tables : Mapping) (csvContent : string) : Mapping :=
  let lines := Js.split newline csvContent in
  (foldl visitLine (tables, [], []) (drop 1 lines)).1.1.

(** The three columns that the loop reads from a line, when it does not
    skip the line: display name, string identifier and GUID. *)
Definition rowOf (rawLine : string) : option (string * string * string) :=
  let line := trim rawLine in
  if negb (Js.truthy (Some line)) then None
  else
    match parseCsvLine line with
    | field0 :: field1 :: field2 :: _ =>
        Some (trim field0, trim field1, toLowerCase (trim field2))
    | _ => None
    end.

(** The display name of the first row under the header whose key column
    is [key] and whose display name is not empty. *)
Definition firstName (column : string * string * string -> string) (key : string)
    (csvContent : string) : option string :=
  (fun row => row.1.1) <$>
  List.find
    (fun row => String.eqb (column row) key && Js.truthy (Some row.1.1))
    (omap rowOf (drop 1 (Js.split newline csvContent))).

End parseCsvAndBuildMap.

(** [trim] restricted to blanks, tabs, carriage returns and line feeds at
    both ends. *)
Definition blank (c : ascii) : bool :=
  Ascii.eqb c " " || Ascii.eqb c (ascii_of_nat 9) || Ascii.eqb c (ascii_of_nat 13)
  || Ascii.eqb c newline.

Fixpoint trimStart (s : string) : string :=
  match s with
  | String c rest => if blank c then trimStart rest else s
  | EmptyString => EmptyString
  end.

Fixpoint trimEnd (s : string) : string :=
  match s with
  | String c rest =>
      match trimEnd rest with
      | EmptyString => if blank c then EmptyString else String c EmptyString
      | rest' => String c rest'
      end
  | EmptyString => EmptyString
  end.

Definition trimBlanks (s : string) : string := trimEnd (trimStart s).

(** [toLowerCase] restricted to the letters A to Z. *)
Fixpoint lowerCaseAscii (s : string) : string :=
  match s with
  | String c rest =>
      let n := nat_of_ascii c in
      String (if (65 <=? n)%nat && (n <=? 90)%nat then ascii_of_nat (n + 32) else c)
        (lowerCaseAscii rest)
  | EmptyString => EmptyString
  end.

(** A file with a header and three rows, two of them for the same SKU. *)
Definition sampleCsv : string :=
  "Product_Display_Name,String_Id,GUID,Service_Plan_Name" +:+ String newline
  ("Office 365 E3,ENTERPRISEPACK,guid-1,MESH" +:+ String newline
  ("Office 365 E3 (second row),ENTERPRISEPACK,guid-1,TEAMS" +:+ String newline
  ("Power BI,POWER_BI_STANDARD,guid-2,BI" +:+ String newline ""))).

End SkuMappingService.

(** ** services/licenseService.ts: building the catalog *)

Module LicenseCatalog.

(** One entry of the [/subscribedSkus] listing. *)
Record SubscribedSku := mkSubscribedSku {
  skuId : string;
  skuPartNumber : string;
  servicePlans : list ServicePlan
}.

Record SkusResponse := mkSkusResponse {
  value : option (list SubscribedSku)
}.

Section LicenseService.
Variable mapping : SkuMappingService.Mapping.
(** [client.api('/subscribedSkus').get()]: what attempt number [k] settles
    to. *)
Variable client_get : nat -> Exn SkusResponse.
Variable retryOptions : Retry.RetryOptions.

(** [getFriendlyNameByStringId(sku.skuPartNumber)
      || getFriendlyNameByGuid(sku.skuId) || sku.skuPartNumber || sku.skuId] *)
Definition friendlyName (sku : SubscribedSku) : string :=
  Js.or_else (SkuMappingService.getFriendlyNameByStringId mapping (skuPartNumber sku))
    (Js.or_else (SkuMappingService.getFriendlyNameByGuid mapping (skuId sku))
       (Js.or_else (Some (skuPartNumber sku)) (skuId sku))).

(** The callback of [response.value.forEach] in [buildLicenseSkuMap]. *)
Definition cache (licenseSkuMap : gmap string LicenseSku.t) (sku : SubscribedSku)
  : gmap string LicenseSku.t :=
  <[ skuId sku :=
       LicenseSku.mk (skuId sku) (skuPartNumber sku) (friendlyName sku) (servicePlans sku) ]>
    licenseSkuMap.

(** [buildLicenseSkuMap], after the friendly names were fetched: the cache
    it leaves. It returns nothing and catches every error. *)
Definition buildLicenseSkuMap (licenseSkuMap : gmap string LicenseSku.t)
  : gmap string LicenseSku.t :=
  match
    try_catch
      (let* response := Retry.outcome (Retry.retryWithBackoff client_get retryOptions) in
       let* skus :=
         match value response with
         | Some l => ret l
         | None => throw (TypeError "Cannot read properties of undefined (reading 'forEach')")
         end in
       ret (foldl cache licenseSkuMap skus))
      (fun error => ret licenseSkuMap)
  with
  | inr m => m
  | inl _ => licenseSkuMap
  end.

(** [checkPremiumSubscription] *)
Definition checkPremiumSubscription : Exn bool :=
  try_catch
    (let* response := Retry.outcome (Retry.retryWithBackoff client_get retryOptions) in
     let* skus :=
       match value response with
       | Some l => ret l
       | None => throw (TypeError "Cannot read properties of undefined (reading 'some')")
       end in
     ret (existsb
            (fun sku =>
               existsb (fun plan => String.eqb (servicePlanName plan) "AAD_PREMIUM")
                 (servicePlans sku))
            skus))
    (fun error => ret false).

End LicenseService.

(** The entry that [buildLicenseSkuMap] stores for a listed SKU. *)
Definition entryOf (mapping : SkuMappingService.Mapping) (sku : SubscribedSku) : LicenseSku.t :=
  LicenseSku.mk (skuId sku) (skuPartNumber sku) (friendlyName mapping sku) (servicePlans sku).

(** The listing of the license service tests. *)
Definition enterprisePack : SubscribedSku :=
  mkSubscribedSku "sku-1" "ENTERPRISEPACK"
    [ mkServicePlan "plan-1" "EXCHANGE_S_ENTERPRISE" "Success";
      mkServicePlan "plan-2" "SHAREPOINTENTERPRISE" "Success";
      mkServicePlan "plan-3" "DISABLED_PLAN" "Disabled" ].

Definition premiumPack : SubscribedSku :=
  mkSubscribedSku "sku-2" "AAD_PREMIUM_P1" [ mkServicePlan "plan-9" "AAD_PREMIUM" "Success" ].

Definition listing (skus : list SubscribedSku) (k : nat) : Exn SkusResponse :=
  inr (mkSkusResponse (Some skus)).

Definition failingListing (k : nat) : Exn SkusResponse :=
  inl (mkError (Some 403) (Some "Forbidden")).

Definition officeMapping : SkuMappingService.Mapping :=
  SkuMappingService.mkMapping {[ "ENTERPRISEPACK" := "Office 365 E3" ]} ∅.

End LicenseCatalog.

(** ** services/userService.ts *)

Module UserService.

(** [s.split(sep)] for a separator of one or more characters, read from
    left to right: [skip] characters of a separator just found are still
    to be passed over, [current] is the piece being collected. *)
Fixpoint split_from (sep : string) (s : string) (skip : nat) (current : string)
  : list string :=
  match s with
  | EmptyString => [current]
  | String c s' =>
      match skip with
      | S skip' => split_from sep s' skip' current
      | O =>
          if String.prefix sep s
          then current :: split_from sep s' (String.length sep - 1) EmptyString
          else split_from sep s' O (current +:+ String c EmptyString)
      end
  end.

Definition split (sep : string) (s : string) : list string :=
  split_from sep s O EmptyString.

(** One page of the [/users] listing. [value] is the array of users of
    the page, as the listing of a collection carries it. *)
Record UsersResponse := mkUsersResponse {
  value : list GraphUser.t;
  odata_nextLink : option string
}.

Definition baseProperties : list string :=
  [ "id"; "givenName"; "surname"; "displayName"; "userPrincipalName"; "mail"; "jobTitle";
    "department"; "companyName"; "officeLocation"; "employeeId"; "mobilePhone";
    "businessPhones"; "streetAddress"; "city"; "postalCode"; "state"; "country"; "userType";
    "onPremisesSyncEnabled"; "accountEnabled"; "createdDateTime"; "assignedLicenses" ].

(** [properties] after [if (hasPremium) properties.push('signInActivity')]. *)
Definition properties (hasPremium : bool) : list string :=
  if hasPremium then baseProperties ++ ["signInActivity"] else baseProperties.

(** The first value of [nextLink]. *)
Definition firstLink (hasPremium : bool) : string :=
  "/users?$select=" +:+ Js.join "," (properties hasPremium)
  +:+ "&$expand=manager($select=displayName,userPrincipalName)&$top=999".

(** [response['@odata.nextLink']
      ? response['@odata.nextLink'].split('/v1.0')[1] : null];
    [None] stands for both [null] and [undefined]. *)
Definition nextLinkOf (response : UsersResponse) : option string :=
  match odata_nextLink response with
  | Some link => if Js.truthy (Some link) then split "/v1.0" link !! 1%nat else None
  | None => None
  end.

Section UserService.
(** [client.api(path).get()]: what attempt number [k] on [path] settles
    to. *)
Variable client_get : string -> nat -> Exn UsersResponse.
Variable retryOptions : Retry.RetryOptions.

(** The [while (nextLink)] loop of [getAllUsers] inside its [try], which
    rethrows what it catches. The loop runs as long as the service hands
    out next links, so the model counts the turns it may take: [None]
    means that [fuel] turns were not enough. *)
Fixpoint getAllUsers_loop (fuel : nat) (nextLink : option string) (users : list GraphUser.t)
  : option (Exn (list GraphUser.t)) :=
  match nextLink with
  | Some link =>
      if Js.truthy (Some link) then
        match fuel with
        | O => None
        | S fuel' =>
            match Retry.outcome (Retry.retryWithBackoff (client_get link) retryOptions) with
            | inr response =>
                getAllUsers_loop fuel' (nextLinkOf response) (users ++ value response)
            | inl error => Some (throw error)
            end
        end
      else Some (ret users)
  | None => Some (ret users)
  end.

Definition getAllUsers (fuel : nat) (hasPremium : bool) : option (Exn (list GraphUser.t)) :=
  getAllUsers_loop fuel (Some (firstLink hasPremium)) [].

(** What the service answers from [nextLink] on: the pages it hands out
    one after the other, and the error of the request that fails, if one
    does. *)
Inductive Listing : option string -> list (list GraphUser.t) -> option ErrorWithStatus -> Prop :=
  | listing_end nextLink :
      Js.truthy nextLink = false -> Listing nextLink [] None
  | listing_fails link error :
      Js.truthy (Some link) = true ->
      Retry.outcome (Retry.retryWithBackoff (client_get link) retryOptions) = inl error ->
      Listing (Some link) [] (Some error)
  | listing_page link response pages failure :
      Js.truthy (Some link) = true ->
      Retry.outcome (Retry.retryWithBackoff (client_get link) retryOptions) = inr response ->
      Listing (nextLinkOf response) pages failure ->
      Listing (Some link) (value response :: pages) failure.

End UserService.


(** A service with two pages, the second one reached through the next
    link of the first. *)
Definition secondPage : string := "/users?$skiptoken=abc".

Definition twoPages (first second : list GraphUser.t) (path : string) (k : nat)
  : Exn UsersResponse :=
  if String.eqb path secondPage then inr (mkUsersResponse second None)
  else inr (mkUsersResponse first (Some ("https://graph.microsoft.com/v1.0" +:+ secondPage))).

(** A service whose next link always leads back to the same page. *)
Definition circular (page : list GraphUser.t) (path : string) (k : nat) : Exn UsersResponse :=
  inr (mkUsersResponse page (Some ("https://graph.microsoft.com/v1.0" +:+ path))).

(** A service whose second page cannot be fetched. *)
Definition brokenSecondPage (first : list GraphUser.t) (path : string) (k : nat)
  : Exn UsersResponse :=
  if String.eqb path secondPage then inl (mkError (Some 500) (Some "Server Error"))
  else inr (mkUsersResponse first (Some ("https://graph.microsoft.com/v1.0" +:+ secondPage))).

End UserService.

(** ** services/tenantService.ts *)

Module TenantService.

Record VerifiedDomain := mkVerifiedDomain {
  isDefault : option bool;
  name : option string
}.

(** An organization as [/organization] lists it. *)
Record Organization := mkOrganization {
  id : string;
  displayName : option string;
  verifiedDomains : option (list VerifiedDomain);
  tenantType : option string
}.

Record TenantInfo := mkTenantInfo {
  tenant_id : string;
  tenant_displayName : string;
  defaultDomain : string;
  tenant_tenantType : option string
}.

(** The listing; [value] is [None] when it is missing or not an array. *)
Record OrganizationsResponse := mkOrganizationsResponse {
  value : option (list Organization)
}.

(** [new Error(message)] *)
Definition Error (message : string) : ErrorWithStatus := mkError None (Some message).

Section TenantService.
(** [client.api('/organization').select(...).get()] *)
Variable client_get : Exn OrganizationsResponse.
(** [client.api(path).select(...).get()] for one organization; [None]
    is a falsy response. *)
Variable client_get_one : string -> Exn (option Organization).

(** The body of the [for (const org of response.value)] loop. *)
Definition visit (tenants : list TenantInfo) (org : Organization) : list TenantInfo :=
  let defaultDomain :=
    Js.or_else
      ((verifiedDomains org
          ≫= (fun domains => List.find (fun domain => default false (isDefault domain)) domains))
         ≫= name)
      (Js.or_else ((verifiedDomains org ≫= (fun domains => domains !! 0%nat)) ≫= name)
         "unknown") in
  tenants ++
  [ mkTenantInfo (id org) (Js.or_else (displayName org) "Unnamed Organization")
      defaultDomain (tenantType org) ].

Definition getAvailableTenants : Exn (list TenantInfo) :=
  try_catch
    (let* response := client_get in
     ret match value response with
         | Some organizations => foldl visit [] organizations
         | None => []
         end)
    (fun error =>
       throw (Error
                "Unable to fetch available tenants. Make sure you have the necessary permissions.")).

(** [getTenantById]; [None] is [null]. *)
Definition getTenantById (tenantId : string) : Exn (option TenantInfo) :=
  try_catch
    (let* response := client_get_one ("/organization/" +:+ tenantId) in
     match response with
     | None => ret None
     | Some response =>
         let defaultDomain :=
           Js.or_else
             ((verifiedDomains response
                 ≫= (fun domains =>
                        List.find (fun domain => default false (isDefault domain)) domains))
                ≫= name)
             (Js.or_else
                ((verifiedDomains response ≫= (fun domains => domains !! 0%nat)) ≫= name)
                "unknown") in
         ret (Some (mkTenantInfo (id response)
                      (Js.or_else (displayName response) "Unnamed Organization")
                      defaultDomain (tenantType response)))
     end)
    (fun error => ret None).

End TenantService.

(** A tenant with two verified domains, the second one the default. *)
Definition contoso : Organization :=
  mkOrganization "tenant-1" (Some "Contoso")
    (Some [ mkVerifiedDomain (Some false) (Some "contoso.onmicrosoft.com");
            mkVerifiedDomain (Some true) (Some "contoso.com") ])
    (Some "AAD").

(** A tenant without a name and without domains. *)
Definition bare : Organization := mkOrganization "tenant-2" None None None.

End TenantService.

(* ===================================================================== *)
(** * Part II. Properties                                                  *)
(* ===================================================================== *)

(** ** The retry helper *)

Section retry_facts.
Context {T : Type}.
Variable fn : nat -> Exn T.
Variable options : Retry.RetryOptions.

Let maxRetries := Retry.maxRetries options.
Let retryDelayMs := Retry.retryDelayMs options.

Lemma backoff_S i n :
  Retry.backoff options i (S n) = retryDelayMs * 2 ^ i :: Retry.backoff options (i + 1) n.
Proof.
  unfold Retry.backoff. rewrite <- cons_seq. cbn [map].
  rewrite Z.add_0_r. f_equal.
  rewrite <- seq_shift, map_map.
  apply map_ext. intros j. do 2 f_equal. lia.
Qed.


(** As long as the operation is throttled and the attempt is not the last
    one, the loop sleeps and goes round again. *)
Lemma retry_loop_throttled n : forall remaining i calls ws,
  (forall j, (j < n)%nat -> Retry.throttled_at fn (calls + j)) ->
  (n <= remaining)%nat ->
  i + Z.of_nat n <= maxRetries - 1 ->
  Retry.retry_loop fn options remaining i calls ws =
  Retry.retry_loop fn options (remaining - n) (i + Z.of_nat n) (calls + n)
    (ws ++ Retry.backoff options i n).
Proof.
  induction n as [|n IH]; intros remaining i calls ws Hthr Hrem Hi.
  - rewrite Nat.sub_0_r, Z.add_0_r, Nat.add_0_r.
    unfold Retry.backoff. cbn. by rewrite app_nil_r.
  - destruct remaining as [|remaining]; [lia|].
    destruct (Hthr 0%nat) as (e & He & Hthrottle); [lia|].
    rewrite Nat.add_0_r in He.
    cbn [Retry.retry_loop]. rewrite He. cbn zeta. rewrite Hthrottle.
    fold maxRetries.
    assert ((i <? maxRetries - 1) = true) as -> by (apply Z.ltb_lt; lia).
    cbn [andb].
    rewrite IH.
    + rewrite backoff_S. fold retryDelayMs.
      rewrite <- app_assoc. cbn [app].
      f_equal; lia.
    + intros j Hj. replace (S calls + j)%nat with (calls + S j)%nat by lia.
      apply Hthr. lia.
    + lia.
    + lia.
Qed.



End retry_facts.



Section retry_policy.
Context {T : Type}.
Variable fn : nat -> Exn T.
Variable options : Retry.RetryOptions.




End retry_policy.



(** ** The MFA lookup *)

(** What [getUserMfaInfo] gives once the request is built and the batch
    has settled: the [catch] block takes every failure of the [try] block,
    and fails itself on [null] and [undefined]. *)
Lemma getUserMfaInfo_settled batchService userId batchRequest :
  MfaService.mfaBatchRequest batchService userId = inr batchRequest ->
  MfaService.getUserMfaInfo batchService userId
  = match executeBatch batchService batchRequest with
    | inr response =>
        inr match MfaService.mfaInfoOf response with
            | inr info => info
            | inl error => MfaService.errorInfo
            end
    | inl error => settled (MfaService.recover error)
    end.
Proof.
  intros Hrequest. unfold MfaService.getUserMfaInfo. rewrite Hrequest.
  cbn [await]. destruct (executeBatch batchService batchRequest) as [error|response];
    [done|].
  cbn [await try_await]. by destruct (MfaService.mfaInfoOf response).
Qed.

Lemma recover_value e : MfaService.recover (ThrownValue e) = ret MfaService.errorInfo.
Proof. reflexivity. Qed.

(** The repository's own [executeBatch] has a [catch] of its own, so it
    never rejects: a failed post reaches the MFA service as the empty
    response list. *)
Lemma executeBatch_never_raises client_post retryOptions batchRequest :
  exists response,
    BatchServiceImpl.executeBatch client_post retryOptions batchRequest = inr response.
Proof.
  unfold BatchServiceImpl.executeBatch, try_catch.
  destruct (Retry.outcome _); eauto.
Qed.

Lemma executeBatch_swallows client_post retryOptions batchRequest e :
  Retry.outcome (Retry.retryWithBackoff (client_post batchRequest) retryOptions) = inl e ->
  BatchServiceImpl.executeBatch client_post retryOptions batchRequest
  = inr (mkBatchResponse []).
Proof.
  intros He. unfold BatchServiceImpl.executeBatch, try_catch. by rewrite He.
Qed.

(** [getUserMfaInfo] over the repository's batch service, as a function
    of what [executeBatch] gives. *)
Lemma getUserMfaInfo_repository client_post retryOptions userId response :
  BatchServiceImpl.executeBatch client_post retryOptions
    (BatchServiceImpl.createBatchRequest (MfaService.urls userId)) = inr response ->
  MfaService.getUserMfaInfo (BatchServiceImpl.service client_post retryOptions) userId
  = inr match MfaService.mfaInfoOf response with
        | inr info => info
        | inl error => MfaService.errorInfo
        end.
Proof.
  intros Hresponse.
  rewrite (getUserMfaInfo_settled _ _
             (BatchServiceImpl.createBatchRequest (MfaService.urls userId))) by done.
  cbn [executeBatch BatchServiceImpl.service]. by rewrite Hresponse.
Qed.

(** With that batch service every path through [getUserMfaInfo] ends in
    a [return]. *)
Lemma getUserMfaInfo_repository_never_raises client_post retryOptions userId :
  exists info,
    MfaService.getUserMfaInfo (BatchServiceImpl.service client_post retryOptions) userId
    = inr info.
Proof.
  destruct (executeBatch_never_raises client_post retryOptions
              (BatchServiceImpl.createBatchRequest (MfaService.urls userId)))
    as [response Hresponse].
  rewrite (getUserMfaInfo_repository _ _ _ _ Hresponse). by eexists.
Qed.

(** With that batch service a post that fails leaves the user reported as
    "Disabled" / "Not set". *)
Lemma getUserMfaInfo_repository_post_failure client_post retryOptions userId e :
  Retry.outcome
    (Retry.retryWithBackoff
       (client_post (BatchServiceImpl.createBatchRequest (MfaService.urls userId)))
       retryOptions) = inl e ->
  MfaService.getUserMfaInfo (BatchServiceImpl.service client_post retryOptions) userId
  = inr (mkMfaInfo "Not set" Disabled MfaService.noFlags).
Proof.
  intros He.
  by rewrite (getUserMfaInfo_repository _ _ _ _ (executeBatch_swallows _ _ _ e He)).
Qed.

(** C1. When the request has been built and the batch execution rejects
    with a value other than [null] or [undefined], [getUserMfaInfo] does
    not raise: it returns the MfaInfo with default method "Error", status
    Unknown and the eight method flags false. The repository's own batch
    service never lets that happen: its [executeBatch] never rejects, a
    post that fails for good is reported as default method "Not set",
    status Disabled and the eight flags false, and with it [getUserMfaInfo]
    never raises. *)
Theorem getUserMfaInfo_batch_failure :
  (forall (batchService : BatchService) (userId : string) (batchRequest : BatchRequest)
          (e : ErrorWithStatus),
     MfaService.mfaBatchRequest batchService userId = inr batchRequest ->
     executeBatch batchService batchRequest = inl (ThrownValue e) ->
     MfaService.getUserMfaInfo batchService userId =
     inr {| defaultMethod := "Error";
            mfaStatus := Unknown;
            methodFlags :=
              {| emailAuth := false; fido2Auth := false;
                 msAuthenticatorApp := false; msAuthenticatorLite := false;
                 phoneAuth := false; softwareOath := false;
                 temporaryAccessPass := false; windowsHello := false |} |})
  /\ (forall (client_post : BatchRequest -> nat -> Exn BatchResponse)
             (retryOptions : Retry.RetryOptions) (userId : string),
        let batchService := BatchServiceImpl.service client_post retryOptions in
        (forall batchRequest,
           exists response, executeBatch batchService batchRequest = inr response)
        /\ (forall e,
              Retry.outcome
                (Retry.retryWithBackoff
                   (client_post (BatchServiceImpl.createBatchRequest (MfaService.urls userId)))
                   retryOptions) = inl e ->
              MfaService.getUserMfaInfo batchService userId
              = inr (mkMfaInfo "Not set" Disabled
                       (mkFlags false false false false false false false false)))
        /\ exists info, MfaService.getUserMfaInfo batchService userId = inr info).
Proof.
  split.
  - intros batchService userId batchRequest e Hrequest Hfail.
    by rewrite (getUserMfaInfo_settled _ _ _ Hrequest), Hfail.
  - intros client_post retryOptions userId batchService. split; [|split].
    + intros batchRequest. subst batchService. cbn [executeBatch BatchServiceImpl.service].
      destruct (executeBatch_never_raises client_post retryOptions batchRequest)
        as [response ->].
      by exists response.
    + intros e. apply getUserMfaInfo_repository_post_failure.
    + apply getUserMfaInfo_repository_never_raises.
Qed.

Lemma getUserMfaInfo_batch_failure_witness :
  MfaService.getUserMfaInfo Fixtures.rejectingBatchService "123" =
  inr (mkMfaInfo "Error" Unknown
         (mkFlags false false false false false false false false)).
Proof.
  apply (proj1 getUserMfaInfo_batch_failure Fixtures.rejectingBatchService "123"
           (mkBatchRequest []) Fixtures.apiError); reflexivity.
Defined.

(** The claim as the design document has it fails twice. Over the
    repository's batch service every post of the batch fails, and the user
    is not reported with the object of the [catch] block; and a batch
    service that rejects with [null] makes [getUserMfaInfo] raise. *)
Lemma getUserMfaInfo_batch_failure_counterexample :
  (Retry.outcome
     (Retry.retryWithBackoff
        (Fixtures.failingPost (BatchServiceImpl.createBatchRequest (MfaService.urls "123")))
        Fixtures.threeAttempts) = inl Fixtures.apiError
   /\ MfaService.getUserMfaInfo
        (BatchServiceImpl.service Fixtures.failingPost Fixtures.threeAttempts) "123"
      = inr (mkMfaInfo "Not set" Disabled
               (mkFlags false false false false false false false false))
   /\ MfaService.getUserMfaInfo
        (BatchServiceImpl.service Fixtures.failingPost Fixtures.threeAttempts) "123"
      <> inr MfaService.errorInfo)
  /\ (executeBatch Fixtures.nullBatchService (mkBatchRequest []) = inl ThrownNull
      /\ MfaService.getUserMfaInfo Fixtures.nullBatchService "123"
         = inl (ThrownValue
                  (TypeError "Cannot read properties of null (reading 'message')"))).
Proof.
  split; [split; [|split]|split].
  - reflexivity.
  - vm_compute. reflexivity.
  - vm_compute. discriminate.
  - reflexivity.
  - reflexivity.
Qed.

(** ** Sorting and sets of strings *)

Lemma sort_Permutation l : Js.sort l ≡ₚ l.
Proof. apply merge_sort_Permutation. Qed.

Lemma sort_sorted l : StronglySorted String.le (Js.sort l).
Proof. apply StronglySorted_merge_sort; apply _. Qed.

Lemma sort_length l : length (Js.sort l) = length l.
Proof. apply Permutation_length, sort_Permutation. Qed.

Lemma sort_elem_of x l : x ∈ Js.sort l <-> x ∈ l.
Proof. by rewrite sort_Permutation. Qed.

Lemma sort_NoDup l : NoDup l -> NoDup (Js.sort l).
Proof. by rewrite sort_Permutation. Qed.

(** ** The security-group lookup *)

Lemma isSecurityGroup_eligible group :
  GroupService.isSecurityGroup group = true <-> GroupService.eligible group.
Proof.
  unfold GroupService.isSecurityGroup, GroupService.eligible.
  rewrite andb_true_iff, bool_decide_eq_true.
  destruct (GroupService.securityEnabled group) as [[]|]; intuition congruence.
Qed.

Lemma filter_isSecurityGroup members :
  List.filter GroupService.isSecurityGroup members = filter GroupService.eligible members.
Proof.
  induction members as [|g members IH]; [done|].
  cbn [List.filter]. rewrite filter_cons.
  destruct (GroupService.isSecurityGroup g) eqn:Hg.
  - rewrite decide_True by (by apply isSecurityGroup_eligible). by rewrite IH.
  - rewrite decide_False; [done|].
    intros He%isSecurityGroup_eligible. congruence.
Qed.

Section group_facts.
Variable client_get : string -> nat -> Exn GroupService.MemberOfResponse.
Variable retryOptions : Retry.RetryOptions.

Lemma getUserSecurityGroups_success userId response members :
  GroupService.memberOf client_get retryOptions userId = inr response ->
  GroupService.value response = Some members ->
  GroupService.getUserSecurityGroups client_get retryOptions userId =
  inr (mkSecurityGroupInfo
         (Js.sort (map GroupService.displayName (filter GroupService.eligible members)))
         (length (filter GroupService.eligible members))).
Proof.
  intros Hget Hvalue.
  unfold GroupService.getUserSecurityGroups, try_catch, bind.
  rewrite Hget, Hvalue. cbn. by rewrite filter_isSecurityGroup.
Qed.

Lemma getUserSecurityGroups_failure userId e :
  GroupService.memberOf client_get retryOptions userId = inl e ->
  GroupService.getUserSecurityGroups client_get retryOptions userId =
  inr (mkSecurityGroupInfo [] 0).
Proof.
  intros Hget. unfold GroupService.getUserSecurityGroups, try_catch, bind.
  by rewrite Hget.
Qed.

Lemma getUserSecurityGroups_never_raises userId :
  exists info, GroupService.getUserSecurityGroups client_get retryOptions userId = inr info.
Proof.
  unfold GroupService.getUserSecurityGroups, try_catch.
  destruct (bind _ _); eauto.
Qed.

End group_facts.

(** C8. [getUserSecurityGroups] returns exactly the members that are
    groups with the security-enabled flag set, their display names sorted
    ascending; when the underlying call fails it returns the empty result;
    and it never raises. *)
Theorem getUserSecurityGroups_spec
    (client_get : string -> nat -> Exn GroupService.MemberOfResponse)
    (retryOptions : Retry.RetryOptions) (userId : string) :
  (forall response members,
      GroupService.memberOf client_get retryOptions userId = inr response ->
      GroupService.value response = Some members ->
      exists names,
        GroupService.getUserSecurityGroups client_get retryOptions userId
        = inr (mkSecurityGroupInfo names (length (filter GroupService.eligible members)))
        /\ names ≡ₚ map GroupService.displayName (filter GroupService.eligible members)
        /\ StronglySorted String.le names)
  /\ (forall e,
      GroupService.memberOf client_get retryOptions userId = inl e ->
      GroupService.getUserSecurityGroups client_get retryOptions userId
      = inr (mkSecurityGroupInfo [] 0))
  /\ (exists info,
      GroupService.getUserSecurityGroups client_get retryOptions userId = inr info).
Proof.
  split; [|split].
  - intros response members Hget Hvalue. eexists. split; [|split].
    + by apply getUserSecurityGroups_success with response.
    + apply sort_Permutation.
    + apply sort_sorted.
  - apply getUserSecurityGroups_failure.
  - apply getUserSecurityGroups_never_raises.
Qed.

Lemma getUserSecurityGroups_spec_witness :
  (exists names,
      GroupService.getUserSecurityGroups Fixtures.mixedMembership Fixtures.threeAttempts "123"
      = inr (mkSecurityGroupInfo names 1)
      /\ names ≡ₚ ["Security Team"]
      /\ StronglySorted String.le names)
  /\ GroupService.getUserSecurityGroups Fixtures.failingGet Fixtures.threeAttempts "123"
     = inr (mkSecurityGroupInfo [] 0).
Proof.
  split.
  - apply (proj1 (getUserSecurityGroups_spec Fixtures.mixedMembership Fixtures.threeAttempts
                    "123")
             (GroupService.mkMemberOfResponse (Some Fixtures.mixedMembers))
             Fixtures.mixedMembers); reflexivity.
  - apply (proj1 (proj2 (getUserSecurityGroups_spec Fixtures.failingGet Fixtures.threeAttempts
                           "123")) Fixtures.apiError).
    reflexivity.
Defined.

(** The group fields of the record are the joined names and the count of
    the lookup's result. *)
Lemma buildRecord_groups services user hasPremium record info :
  UserProcessor.getUserSecurityGroups services (GraphUser.id user) = inr info ->
  UserProcessor.buildRecord services user hasPremium = inr record ->
  Security_Groups record = Js.join "; " (groups info)
  /\ Security_Group_Count record = count info.
Proof.
  intros Hinfo. unfold UserProcessor.buildRecord, UserProcessor.Promise_all2, await.
  rewrite Hinfo.
  destruct (UserProcessor.getUserMfaInfo services (GraphUser.id user)); [done|].
  intros [= <-]. done.
Qed.

(** C10. Whatever the underlying call does, failure included, the [count]
    of the SecurityGroupInfo that [getUserSecurityGroups] returns is the
    length of its [groups] list; so the count written to a record is the
    number of names joined into its group column. *)
Theorem getUserSecurityGroups_count
    (client_get : string -> nat -> Exn GroupService.MemberOfResponse)
    (retryOptions : Retry.RetryOptions) (userId : string) :
  exists info,
    GroupService.getUserSecurityGroups client_get retryOptions userId = inr info
    /\ count info = length (groups info)
    /\ (forall services user hasPremium record,
          GraphUser.id user = userId ->
          UserProcessor.getUserSecurityGroups services
          = (fun userId =>
               settled (GroupService.getUserSecurityGroups client_get retryOptions userId)) ->
          UserProcessor.buildRecord services user hasPremium = inr record ->
          Security_Groups record = Js.join "; " (groups info)
          /\ Security_Group_Count record = length (groups info)).
Proof.
  assert (exists info,
    GroupService.getUserSecurityGroups client_get retryOptions userId = inr info
    /\ count info = length (groups info)) as (info & Hinfo & Hcount).
  { unfold GroupService.getUserSecurityGroups, try_catch, bind.
    destruct (GroupService.memberOf client_get retryOptions userId) as [e|response].
    - by eexists.
    - destruct (GroupService.value response) as [members|].
      + eexists. split; [reflexivity|]. cbn.
        by rewrite sort_length, length_map.
      + by eexists. }
  exists info. split; [done|]. split; [done|].
  intros services user hasPremium record Hid Hservice Hrecord.
  rewrite <- Hcount.
  apply (buildRecord_groups services user hasPremium); [|done].
  by rewrite Hservice, Hid, Hinfo.
Qed.

Lemma getUserSecurityGroups_count_witness :
  exists record,
    UserProcessor.buildRecord Fixtures.quietServices Fixtures.john true = inr record
    /\ Security_Groups record = "Security Team"
    /\ Security_Group_Count record = 1%nat.
Proof.
  destruct (getUserSecurityGroups_count Fixtures.mixedMembership Fixtures.threeAttempts
              "12345678") as (info & Hinfo & Hcount & Hrecord).
  destruct (UserProcessor.buildRecord Fixtures.quietServices Fixtures.john true)
    as [e|record] eqn:Hbuild.
  - vm_compute in Hbuild. discriminate Hbuild.
  - exists record.
    destruct (Hrecord Fixtures.quietServices Fixtures.john true record
                eq_refl eq_refl Hbuild) as [Hnames Hnumber].
    vm_compute in Hinfo. injection Hinfo as <-.
    split; [reflexivity|]. split; [exact Hnames | exact Hnumber].
Defined.

Lemma add_elem_of x y seen : x ∈ Js.add y seen <-> x = y \/ x ∈ seen.
Proof.
  unfold Js.add. case_bool_decide as Hy.
  - split; [auto|]. intros [->|]; done.
  - rewrite elem_of_app, list_elem_of_singleton. tauto.
Qed.

Lemma add_NoDup y seen : NoDup seen -> NoDup (Js.add y seen).
Proof.
  intros Hnd. unfold Js.add. case_bool_decide as Hy; [done|].
  apply NoDup_app. split; [done|]. split.
  - intros x Hx ->%list_elem_of_singleton. done.
  - apply NoDup_singleton.
Qed.

Lemma to_set_from_elem_of l : forall seen x,
  x ∈ foldl (fun seen x => Js.add x seen) seen l <-> x ∈ seen \/ x ∈ l.
Proof.
  induction l as [|y l IH]; intros seen x; cbn [foldl].
  - rewrite elem_of_nil. tauto.
  - rewrite IH, add_elem_of, elem_of_cons. tauto.
Qed.

Lemma to_set_from_NoDup l : forall seen,
  NoDup seen -> NoDup (foldl (fun seen x => Js.add x seen) seen l).
Proof.
  induction l as [|y l IH]; intros seen Hnd; cbn [foldl]; [done|].
  by apply IH, add_NoDup.
Qed.

Lemma to_set_elem_of l x : x ∈ Js.to_set l <-> x ∈ l.
Proof. unfold Js.to_set. rewrite to_set_from_elem_of, elem_of_nil. tauto. Qed.

Lemma to_set_NoDup l : NoDup (Js.to_set l).
Proof. apply to_set_from_NoDup, NoDup_nil_2. Qed.

(** ** License details *)

Section license_facts.
Variable licenseSkuMap : gmap string LicenseSku.t.

Let visit := LicenseService.visit licenseSkuMap.
Let licenseName := LicenseService.licenseName licenseSkuMap.
Let enabledPlan := LicenseService.enabledPlan licenseSkuMap.

Lemma collectPlan_elem_of disabled plans : forall seen x,
  x ∈ foldl (LicenseService.collectPlan disabled) seen plans <->
  x ∈ seen \/ exists plan, plan ∈ plans /\ (servicePlanId plan ∉ disabled)
                        /\ provisioningStatus plan = "Success"
                        /\ servicePlanName plan = x.
Proof.
  induction plans as [|p plans IH]; intros seen x; cbn [foldl].
  - split; [auto|]. intros [|(plan & []%elem_of_nil & _)]; done.
  - rewrite IH. unfold LicenseService.collectPlan.
    destruct (negb _ && _) eqn:Hok.
    + apply andb_true_iff in Hok as [Hdis Hst].
      apply negb_true_iff, bool_decide_eq_false in Hdis.
      apply String.eqb_eq in Hst.
      rewrite add_elem_of. split.
      * intros [[->|]|(plan & ? & ?)]; [right; exists p | by left | right; exists plan].
        -- repeat split; [left | done..].
        -- split; [by right | done].
      * intros [|(plan & [->|]%elem_of_cons & Hd & Hs & Hn)];
          [tauto | by left; left |].
        right. by exists plan.
    + split.
      * intros [|(plan & ? & ?)]; [by left | right; exists plan].
        split; [by right | done].
      * intros [|(plan & [->|]%elem_of_cons & Hd & Hs & Hn)]; [tauto | | ].
        -- exfalso. apply andb_false_iff in Hok as [Hok|Hok].
           ++ apply negb_false_iff, bool_decide_eq_true in Hok. done.
           ++ apply String.eqb_neq in Hok. done.
        -- right. by exists plan.
Qed.

Lemma collectPlan_NoDup disabled plans : forall seen,
  NoDup seen -> NoDup (foldl (LicenseService.collectPlan disabled) seen plans).
Proof.
  induction plans as [|p plans IH]; intros seen Hnd; cbn [foldl]; [done|].
  apply IH. unfold LicenseService.collectPlan.
  destruct (negb _ && _); [by apply add_NoDup | done].
Qed.

Lemma visit_step names plans a :
  exists plans',
    visit (names, plans) a = (names ++ [licenseName a], plans')
    /\ plans' = match licenseSkuMap !! skuId a with
                | Some skuInfo =>
                    foldl (LicenseService.collectPlan (default [] (disabledPlans a)))
                      plans (LicenseSku.servicePlans skuInfo)
                | None => plans
                end.
Proof.
  subst visit licenseName. unfold LicenseService.visit, LicenseService.licenseName.
  destruct (licenseSkuMap !! skuId a) as [skuInfo|]; eauto.
Qed.

Lemma visit_names licenses : forall names plans,
  (foldl visit (names, plans) licenses).1 = names ++ map licenseName licenses.
Proof.
  induction licenses as [|a licenses IH]; intros names plans; cbn [foldl map].
  - by rewrite app_nil_r.
  - destruct (visit_step names plans a) as (plans' & -> & _).
    by rewrite IH, <- app_assoc.
Qed.

Lemma visit_plans_NoDup licenses : forall names plans,
  NoDup plans -> NoDup (foldl visit (names, plans) licenses).2.
Proof.
  induction licenses as [|a licenses IH]; intros names plans Hnd; cbn [foldl]; [done|].
  destruct (visit_step names plans a) as (plans' & -> & ->).
  apply IH. destruct (licenseSkuMap !! skuId a); [|done].
  by apply collectPlan_NoDup.
Qed.

Lemma visit_plans_elem_of licenses : forall names plans x,
  x ∈ (foldl visit (names, plans) licenses).2 <->
  x ∈ plans \/ exists a, a ∈ licenses /\ enabledPlan a x.
Proof.
  induction licenses as [|a licenses IH]; intros names plans x; cbn [foldl].
  - split; [auto|]. intros [|(a & []%elem_of_nil & _)]; done.
  - destruct (visit_step names plans a) as (plans' & -> & ->).
    rewrite IH.
    destruct (licenseSkuMap !! skuId a) as [skuInfo|] eqn:Hsku.
    + rewrite collectPlan_elem_of. split.
      * intros [[|(plan & Hin & Hd & Hs & Hn)]|(b & Hb & Hen)].
        -- by left.
        -- right. exists a. split; [left|]. by exists skuInfo, plan.
        -- right. exists b. split; [by right | done].
      * intros [|(b & [->|Hb]%elem_of_cons & Hen)].
        -- by left; left.
        -- destruct Hen as (skuInfo' & plan & Hsku' & Hin & Hd & Hs & Hn).
           left; right. exists plan. by simplify_eq.
        -- right. by exists b.
    + split.
      * intros [|(b & Hb & Hen)]; [by left | right; exists b].
        split; [by right | done].
      * intros [|(b & [->|Hb]%elem_of_cons & Hen)]; [by left | |].
        -- destruct Hen as (skuInfo' & plan & Hsku' & _). congruence.
        -- right. by exists b.
Qed.

End license_facts.

Lemma getUserLicenseDetails_cons licenseSkuMap a licenses :
  LicenseService.getUserLicenseDetails licenseSkuMap (Some (a :: licenses)) =
  mkLicenseDetails
    (Js.sort (Js.to_set (map (LicenseService.licenseName licenseSkuMap) (a :: licenses))))
    (length (a :: licenses))
    (Js.sort (foldl (LicenseService.visit licenseSkuMap) ([], []) (a :: licenses)).2).
Proof.
  unfold LicenseService.getUserLicenseDetails.
  pose proof (visit_names licenseSkuMap (a :: licenses) [] []) as Hnames.
  destruct (foldl (LicenseService.visit licenseSkuMap) ([], []) (a :: licenses))
    as [names plans].
  cbn [fst snd] in *. by rewrite Hnames.
Qed.

Lemma getUserLicenseDetails_unknown_sku licenseSkuMap X disabled :
  licenseSkuMap !! X = None ->
  LicenseService.getUserLicenseDetails licenseSkuMap (Some [mkAssignedLicense X disabled])
  = mkLicenseDetails [X] 1 [].
Proof.
  intros Habsent. rewrite getUserLicenseDetails_cons.
  cbn [map foldl length]. unfold LicenseService.licenseName, LicenseService.visit.
  cbn [skuId]. rewrite Habsent. reflexivity.
Qed.

(** C7. For every assigned-license list and catalog, the license names
    returned by [getUserLicenseDetails] are sorted, free of duplicates and
    are exactly the display names of the assignments (the raw SKU
    identifier when the catalog lacks the SKU); [licenseCount] is the length
    of the assigned list as given; the service plans are sorted, free of
    duplicates and are exactly the names of the plans that some assignment
    does not disable and that have provisioning status "Success"; and one
    assignment of a SKU "X" missing from the catalog gives the license list
    ["X"] and no service plan. Sorted means ordered by [String.le], the
    order of the default [sort()]. *)
Theorem getUserLicenseDetails_spec
    (licenseSkuMap : gmap string LicenseSku.t)
    (assignedLicenses : option (list AssignedLicense)) :
  let details := LicenseService.getUserLicenseDetails licenseSkuMap assignedLicenses in
  let licenses := default [] assignedLicenses in
  (StronglySorted String.le (licenseSkus details)
   /\ NoDup (licenseSkus details)
   /\ (forall name, name ∈ licenseSkus details <->
         exists a, a ∈ licenses /\ name = LicenseService.licenseName licenseSkuMap a)
   /\ (forall a, a ∈ licenses -> licenseSkuMap !! skuId a = None ->
         skuId a ∈ licenseSkus details))
  /\ licenseCount details = length licenses
  /\ (StronglySorted String.le (servicePlans details)
      /\ NoDup (servicePlans details)
      /\ (forall name, name ∈ servicePlans details <->
            exists a, a ∈ licenses /\ LicenseService.enabledPlan licenseSkuMap a name))
  /\ (forall disabled,
        licenseSkuMap !! "X" = None ->
        LicenseService.getUserLicenseDetails licenseSkuMap
          (Some [mkAssignedLicense "X" disabled])
        = mkLicenseDetails ["X"] 1 []).
Proof.
  intros details licenses.
  assert (Hnames : forall name, name ∈ licenseSkus details <->
            exists a, a ∈ licenses /\ name = LicenseService.licenseName licenseSkuMap a).
  { subst details licenses. intros name.
    destruct assignedLicenses as [[|a ls]|]; cbn [default].
    - cbn. split; [by intros ?%elem_of_nil | by intros (a & ?%elem_of_nil & _)].
    - rewrite getUserLicenseDetails_cons. cbn [licenseSkus].
      rewrite sort_elem_of, to_set_elem_of, list_elem_of_fmap.
      split; intros (b & ? & ?); by exists b.
    - cbn. split; [by intros ?%elem_of_nil | by intros (a & ?%elem_of_nil & _)]. }
  repeat split.
  - subst details. destruct assignedLicenses as [[|a ls]|]; [constructor | | constructor].
    rewrite getUserLicenseDetails_cons. apply sort_sorted.
  - subst details. destruct assignedLicenses as [[|a ls]|]; [constructor | | constructor].
    rewrite getUserLicenseDetails_cons. apply sort_NoDup, to_set_NoDup.
  - apply Hnames.
  - apply Hnames.
  - intros a Ha Habsent. apply Hnames. exists a. split; [done|].
    unfold LicenseService.licenseName. by rewrite Habsent.
  - subst details licenses. destruct assignedLicenses as [[|a ls]|]; [done | | done].
    by rewrite getUserLicenseDetails_cons.
  - subst details. destruct assignedLicenses as [[|a ls]|]; [constructor | | constructor].
    rewrite getUserLicenseDetails_cons. apply sort_sorted.
  - subst details. destruct assignedLicenses as [[|a ls]|]; [constructor | | constructor].
    rewrite getUserLicenseDetails_cons. apply sort_NoDup, visit_plans_NoDup, NoDup_nil_2.
  - subst details licenses. destruct assignedLicenses as [[|a ls]|]; cbn [default].
    + by intros ?%elem_of_nil.
    + rewrite getUserLicenseDetails_cons. cbn [servicePlans].
      rewrite sort_elem_of, visit_plans_elem_of.
      intros [[]%elem_of_nil|]; done.
    + by intros ?%elem_of_nil.
  - subst details licenses. destruct assignedLicenses as [[|a ls]|]; cbn [default].
    + by intros (a & ?%elem_of_nil & _).
    + rewrite getUserLicenseDetails_cons. cbn [servicePlans].
      rewrite sort_elem_of, visit_plans_elem_of. auto.
    + by intros (a & ?%elem_of_nil & _).
  - intros disabled Habsent. by apply getUserLicenseDetails_unknown_sku.
Qed.

Lemma getUserLicenseDetails_spec_witness :
  LicenseService.getUserLicenseDetails Fixtures.enterpriseCatalog
    (Some [mkAssignedLicense "X" None])
  = mkLicenseDetails ["X"] 1 [].
Proof.
  apply (getUserLicenseDetails_spec Fixtures.enterpriseCatalog None).
  reflexivity.
Defined.

Example getUserLicenseDetails_disabled_plan :
  LicenseService.getUserLicenseDetails Fixtures.enterpriseCatalog
    (Some [mkAssignedLicense "sku-1" (Some ["plan-2"]);
           mkAssignedLicense "sku-9" None;
           mkAssignedLicense "sku-1" None])
  = mkLicenseDetails ["Office 365 E3"; "sku-9"] 3
      ["EXCHANGE_S_ENTERPRISE"; "SHAREPOINTENTERPRISE"].
Proof. vm_compute. reflexivity. Qed.

(** ** Splitting a principal name at "@" *)

Lemma prefix_at c s : String.prefix "@" (String c s) = Ascii.eqb c "@".
Proof.
  cbn [String.prefix].
  destruct (ascii_dec "@" c) as [<-|Hne].
  - by destruct s.
  - symmetry. apply Ascii.eqb_neq. congruence.
Qed.

Lemma includes_at_cons c s :
  Js.includes (String c s) "@" = Ascii.eqb c "@" || Js.includes s "@".
Proof. cbn [Js.includes]. by rewrite prefix_at. Qed.

Lemma includes_at_app local rest :
  Js.includes (local +:+ "@" +:+ rest) "@" = true.
Proof.
  induction local as [|c local IH].
  - change ("" +:+ "@" +:+ rest) with (String "@" rest).
    by rewrite includes_at_cons.
  - change (String c local +:+ "@" +:+ rest) with (String c (local +:+ "@" +:+ rest)).
    rewrite includes_at_cons, IH. apply orb_true_r.
Qed.

Lemma split_head sep s : exists rest, Js.split sep s = Js.before sep s :: rest.
Proof.
  induction s as [|c s [rest IH]]; cbn [Js.split Js.before]; [by eexists|].
  destruct (Ascii.eqb c sep); [by eexists|].
  rewrite IH. by eexists.
Qed.

Lemma split_no_at s : Js.includes s "@" = false -> Js.split "@" s = [s].
Proof.
  induction s as [|c s IH]; [done|].
  rewrite includes_at_cons. intros [Hc Hs]%orb_false_iff.
  cbn [Js.split]. by rewrite Hc, IH.
Qed.

Lemma split_at_app local rest :
  Js.includes local "@" = false ->
  Js.split "@" (local +:+ "@" +:+ rest) = local :: Js.split "@" rest.
Proof.
  induction local as [|c local IH].
  - reflexivity.
  - rewrite includes_at_cons. intros [Hc Hs]%orb_false_iff.
    change (String c local +:+ "@" +:+ rest) with (String c (local +:+ "@" +:+ rest)).
    cbn [Js.split]. by rewrite Hc, IH.
Qed.

(** A string that includes "@" is a part without "@", the "@", and a rest. *)
Lemma includes_at_inv s :
  Js.includes s "@" = true ->
  exists local rest, s = local +:+ "@" +:+ rest /\ Js.includes local "@" = false.
Proof.
  induction s as [|c s IH]; [done|].
  rewrite includes_at_cons. destruct (Ascii.eqb c "@") eqn:Hc.
  - apply Ascii.eqb_eq in Hc as ->. intros _. by exists "", s.
  - intros (local & rest & -> & Hlocal)%IH.
    exists (String c local), rest. split; [done|].
    by rewrite includes_at_cons, Hc, Hlocal.
Qed.

Lemma domainName_at (user : GraphUser.t) local rest :
  GraphUser.userPrincipalName user = Some (local +:+ "@" +:+ rest) ->
  Js.includes local "@" = false ->
  UserProcessor.domainName user = Some (Js.before "@" rest).
Proof.
  intros Hupn Hlocal. unfold UserProcessor.domainName.
  rewrite Hupn, includes_at_app, split_at_app by done.
  by destruct (split_head "@" rest) as [tl ->].
Qed.

Lemma before_no_at s : Js.includes s "@" = false -> Js.before "@" s = s.
Proof.
  induction s as [|c s IH]; [done|].
  rewrite includes_at_cons. intros [Hc Hs]%orb_false_iff.
  cbn [Js.before]. by rewrite Hc, IH.
Qed.

(** ** The record of one user *)

Section record_facts.
Variable services : UserProcessor.Services.

(** The parts of the record that the processor derives from the user. *)
Lemma buildRecord_derived user hasPremium record :
  UserProcessor.buildRecord services user hasPremium = inr record ->
  Domain_name record = UserProcessor.domainName user
  /\ Last_successful_sign_in record = UserProcessor.lastSignIn user hasPremium.
Proof.
  unfold UserProcessor.buildRecord, await.
  destruct (UserProcessor.Promise_all2 _ _ _) as [e|both]; [done|].
  intros [= <-]. done.
Qed.

(** The record is built exactly when both lookups resolve. *)
Lemma buildRecord_raises user hasPremium :
  raises (UserProcessor.buildRecord services user hasPremium) =
  raises (UserProcessor.getUserMfaInfo services (GraphUser.id user))
  || raises (UserProcessor.getUserSecurityGroups services (GraphUser.id user)).
Proof.
  unfold UserProcessor.buildRecord, UserProcessor.Promise_all2, await.
  by destruct (UserProcessor.getUserMfaInfo _ _), (UserProcessor.getUserSecurityGroups _ _).
Qed.

(** What the record's promise rejects with is what one of the two lookups
    rejects with. *)
Lemma buildRecord_rejects_nullish user hasPremium :
  rejects_nullish (UserProcessor.getUserMfaInfo services (GraphUser.id user)) = false ->
  rejects_nullish (UserProcessor.getUserSecurityGroups services (GraphUser.id user)) = false ->
  rejects_nullish (UserProcessor.buildRecord services user hasPremium) = false.
Proof.
  unfold UserProcessor.buildRecord, UserProcessor.Promise_all2, await.
  destruct (UserProcessor.getUserMfaInfo _ _) as [thrownA|mfaInfo],
    (UserProcessor.getUserSecurityGroups _ _) as [thrownB|securityGroups];
    try done.
  by destruct (UserProcessor.groupsRejectFirst services (GraphUser.id user)).
Qed.

End record_facts.

(** ** Sign-in status *)

Lemma lastSignIn_no_premium user :
  UserProcessor.lastSignIn user false = "No Microsoft Entra ID Premium license".
Proof.
  unfold UserProcessor.lastSignIn.
  by destruct (GraphUser.signInActivity user ≫= lastSuccessfulSignInDateTime).
Qed.

Lemma lastSignIn_timestamp user ts :
  GraphUser.signInActivity user ≫= lastSuccessfulSignInDateTime = Some ts ->
  ts <> "" ->
  UserProcessor.lastSignIn user true = ts.
Proof.
  intros Hts Hne. unfold UserProcessor.lastSignIn. rewrite Hts.
  cbn. apply String.eqb_neq in Hne. by rewrite Hne.
Qed.

Lemma lastSignIn_nothing user :
  GraphUser.signInActivity user ≫= lastSuccessfulSignInDateTime = None
  \/ GraphUser.signInActivity user ≫= lastSuccessfulSignInDateTime = Some "" ->
  UserProcessor.lastSignIn user true = "No sign in".
Proof.
  unfold UserProcessor.lastSignIn. by intros [-> | ->].
Qed.

(** C6, as the code has it. Without the premium entitlement the sign-in
    field of the record is the fixed premium-absent string whatever the
    user's sign-in activity; with it, a non-empty last-successful-sign-in
    timestamp is copied verbatim, and a missing or empty one gives the fixed
    no-sign-in string. *)
Theorem lastSignIn_spec
    (services : UserProcessor.Services) (user : GraphUser.t) (hasPremium : bool)
    (record : ProcessedUserRecord) :
  UserProcessor.buildRecord services user hasPremium = inr record ->
  let timestamp := GraphUser.signInActivity user ≫= lastSuccessfulSignInDateTime in
  (hasPremium = false ->
     Last_successful_sign_in record = "No Microsoft Entra ID Premium license")
  /\ (hasPremium = true -> forall ts, timestamp = Some ts -> ts <> "" ->
        Last_successful_sign_in record = ts)
  /\ (hasPremium = true -> timestamp = None \/ timestamp = Some "" ->
        Last_successful_sign_in record = "No sign in").
Proof.
  intros [_ ->]%buildRecord_derived timestamp. split; [|split].
  - intros ->. apply lastSignIn_no_premium.
  - intros -> ts Hts Hne. by apply lastSignIn_timestamp.
  - intros -> Hnone. by apply lastSignIn_nothing.
Qed.

Lemma lastSignIn_spec_witness :
  exists record,
    UserProcessor.buildRecord Fixtures.quietServices Fixtures.john true = inr record
    /\ Last_successful_sign_in record = "2024-03-01T08:30:00Z".
Proof.
  destruct (UserProcessor.buildRecord Fixtures.quietServices Fixtures.john true)
    as [e|record] eqn:Hrecord.
  - vm_compute in Hrecord. discriminate Hrecord.
  - exists record. split; [reflexivity|].
    apply (proj1 (proj2 (lastSignIn_spec Fixtures.quietServices Fixtures.john true record
                           Hrecord)) eq_refl).
    + reflexivity.
    + discriminate.
Defined.

(** "With the entitlement, the field is the user's timestamp" does not
    hold for every user: the user [ghost] has the empty string as
    timestamp and the record says "No sign in". *)
Lemma lastSignIn_empty_timestamp_counterexample :
  exists record,
    UserProcessor.buildRecord Fixtures.quietServices Fixtures.ghost true = inr record
    /\ GraphUser.signInActivity Fixtures.ghost ≫= lastSuccessfulSignInDateTime = Some ""
    /\ Last_successful_sign_in record = "No sign in"
    /\ Last_successful_sign_in record <> "".
Proof.
  destruct (UserProcessor.buildRecord Fixtures.quietServices Fixtures.ghost true)
    as [e|record] eqn:Hrecord.
  - vm_compute in Hrecord. discriminate Hrecord.
  - exists record. split; [reflexivity|]. split; [reflexivity|].
    apply buildRecord_derived in Hrecord as [_ ->].
    split; [reflexivity | discriminate].
Qed.

(** ** Domain name *)

(** C9, as the code has it. The domain-name field of the record is the
    part of the principal name between its first "@" and the next "@" or the
    end, hence the whole substring after the "@" when there is exactly one;
    it is absent when the principal name is missing or has no "@". *)
Theorem domainName_spec
    (services : UserProcessor.Services) (user : GraphUser.t) (hasPremium : bool)
    (record : ProcessedUserRecord) :
  UserProcessor.buildRecord services user hasPremium = inr record ->
  (GraphUser.userPrincipalName user = None -> Domain_name record = None)
  /\ (forall upn, GraphUser.userPrincipalName user = Some upn ->
        Js.includes upn "@" = false -> Domain_name record = None)
  /\ (forall local rest,
        GraphUser.userPrincipalName user = Some (local +:+ "@" +:+ rest) ->
        Js.includes local "@" = false ->
        Domain_name record = Some (Js.before "@" rest))
  /\ (forall local domain,
        GraphUser.userPrincipalName user = Some (local +:+ "@" +:+ domain) ->
        Js.includes local "@" = false -> Js.includes domain "@" = false ->
        Domain_name record = Some domain).
Proof.
  intros [-> _]%buildRecord_derived. repeat split.
  - intros Hupn. unfold UserProcessor.domainName. by rewrite Hupn.
  - intros upn Hupn Hno. unfold UserProcessor.domainName. by rewrite Hupn, Hno.
  - intros local rest Hupn Hlocal. by apply domainName_at with local.
  - intros local domain Hupn Hlocal Hdomain.
    rewrite (domainName_at user local domain) by done.
    by rewrite before_no_at.
Qed.

Lemma domainName_spec_witness :
  exists record,
    UserProcessor.buildRecord Fixtures.quietServices Fixtures.john false = inr record
    /\ Domain_name record = Some "contoso.com".
Proof.
  destruct (UserProcessor.buildRecord Fixtures.quietServices Fixtures.john false)
    as [e|record] eqn:Hrecord.
  - vm_compute in Hrecord. discriminate Hrecord.
  - exists record. split; [reflexivity|].
    apply (proj2 (proj2 (proj2 (domainName_spec Fixtures.quietServices Fixtures.john false
                                  record Hrecord))) "john.doe" "contoso.com");
      reflexivity.
Defined.

(** For the principal name "a@b@c" the field is "b": neither the substring
    after the first "@", nor the one after the last "@", nor absent. *)
Lemma domainName_two_ats_counterexample :
  exists record,
    UserProcessor.buildRecord Fixtures.quietServices Fixtures.twoAts false = inr record
    /\ Domain_name record = Some "b"
    /\ Js.afterFirst "@" "a@b@c" = Some "b@c"
    /\ Js.afterLast "@" "a@b@c" = Some "c"
    /\ Domain_name record <> Js.afterFirst "@" "a@b@c"
    /\ Domain_name record <> Js.afterLast "@" "a@b@c"
    /\ Domain_name record <> None.
Proof.
  destruct (UserProcessor.buildRecord Fixtures.quietServices Fixtures.twoAts false)
    as [e|record] eqn:Hrecord.
  - vm_compute in Hrecord. discriminate Hrecord.
  - exists record. split; [reflexivity|].
    apply buildRecord_derived in Hrecord as [-> _].
    vm_compute. repeat split; discriminate.
Qed.

(** ** The fan-out *)

Lemma enqueue_all jobs : forall l,
  foldl PLimit.enqueue l jobs
  = PLimit.mk (PLimit.concurrency l) (PLimit.queue l ++ jobs) (PLimit.running l).
Proof.
  induction jobs as [|job jobs IH]; intros l; cbn [foldl].
  - rewrite app_nil_r. by destruct l.
  - rewrite IH. cbn. by rewrite <- app_assoc.
Qed.

Lemma omap_cons_eq {A B} (f : A -> option B) x l :
  omap f (x :: l) = match f x with Some y => y :: omap f l | None => omap f l end.
Proof. reflexivity. Qed.

Section slot_facts.
Context {R : Type}.
Implicit Types (slots : list (option (option R))) (r : option R).

Lemma null_count_app slots1 slots2 :
  UserProcessor.null_count (slots1 ++ slots2)
  = (UserProcessor.null_count slots1 + UserProcessor.null_count slots2)%nat.
Proof. unfold UserProcessor.null_count. by rewrite List.filter_app, length_app. Qed.

Lemma resolved_pending n :
  UserProcessor.resolved (replicate n (None : option (option R))) = [].
Proof. induction n; [done|]. by cbn. Qed.

Lemma null_count_pending n :
  UserProcessor.null_count (replicate n (None : option (option R))) = 0%nat.
Proof. induction n; [done|]. by cbn. Qed.

(** A pending slot is resolved: one more record, or one more null. *)
Lemma resolve_slot slots i r :
  slots !! i = Some None ->
  length (UserProcessor.resolved (<[i := Some r]> slots))
  = (length (UserProcessor.resolved slots) + match r with Some _ => 1 | None => 0 end)%nat
  /\ UserProcessor.null_count (<[i := Some r]> slots)
    = (UserProcessor.null_count slots + match r with Some _ => 0 | None => 1 end)%nat.
Proof.
  intros Hi.
  assert (i < length slots)%nat as Hlt by (by eapply lookup_lt_Some).
  rewrite insert_take_drop by done.
  rewrite <- (take_drop_middle slots i None Hi) at 3 6.
  rewrite !null_count_app.
  unfold UserProcessor.resolved. rewrite !omap_app, !length_app.
  cbn [omap]. destruct r as [record|]; cbn; lia.
Qed.

End slot_facts.

Section pipeline_facts.
Variable services : UserProcessor.Services.
Variable maxConcurrency : Z.
Variable users : list GraphUser.t.
Variable hasPremium : bool.
Variable now : Z.

Let Invariant := UserProcessor.Invariant services maxConcurrency users hasPremium now.
Let step := UserProcessor.step services users hasPremium.
Let run := UserProcessor.run services users hasPremium.
Let start := UserProcessor.start maxConcurrency users now.
Let recordOf := fun user => UserProcessor.recordOf services user hasPremium.

Lemma start_limiter :
  UserProcessor.limiter start = PLimit.mk maxConcurrency (seq 0 (length users)) [].
Proof.
  subst start. unfold UserProcessor.start. cbn [UserProcessor.limiter].
  by rewrite enqueue_all.
Qed.

Lemma start_invariant : Invariant 0%nat start.
Proof.
  pose proof start_limiter as Hl.
  split; rewrite ?Hl; cbn [PLimit.concurrency PLimit.queue PLimit.running].
  - done.
  - lia.
  - by rewrite Nat.sub_0_r.
  - by intros i ?%elem_of_nil.
  - constructor.
  - cbn. lia.
  - intros _ i user Hi. subst start. cbn [UserProcessor.start UserProcessor.slots].
    rewrite lookup_replicate_2 by (by eapply lookup_lt_Some).
    rewrite decide_True; [done | right; lia].
  - subst start. cbn. apply length_replicate.
  - done.
  - intros _. subst start. unfold UserProcessor.collect.
    cbn [UserProcessor.start UserProcessor.slots UserProcessor.stats].
    by rewrite resolved_pending.
  - intros _. subst start. unfold UserProcessor.nulls.
    cbn [UserProcessor.start UserProcessor.slots UserProcessor.stats].
    by rewrite null_count_pending.
  - done.
  - intros _ i user Hi Hsettled. destruct Hsettled. right. lia.
Qed.

Lemma processUser_effect user stats :
  UserProcessor.processUser services user hasPremium stats
  = (UserProcessor.settlement services user hasPremium,
     mkStats (totalUsers stats)
       (processed stats + match recordOf user with Some _ => 1 | None => 0 end)
       (errors stats + match recordOf user with Some _ => 0 | None => 1 end)
       (startTime stats)).
Proof.
  subst recordOf.
  unfold UserProcessor.processUser, UserProcessor.settlement, UserProcessor.recordOf.
  destruct (UserProcessor.buildRecord services user hasPremium);
    cbn; do 2 f_equal; lia.
Qed.

(** When the promise of [processUser] resolves, it resolves to the
    record of the user, or to [null] when a lookup has failed. *)
Lemma settlement_recordOf user r :
  UserProcessor.settlement services user hasPremium = inr r -> r = recordOf user.
Proof.
  subst recordOf. unfold UserProcessor.settlement, UserProcessor.recordOf.
  destruct (UserProcessor.buildRecord services user hasPremium) as [[| |e]|record];
    cbn; by intros [= <-].
Qed.

(** It rejects exactly when a lookup has rejected with [null] or
    [undefined]. *)
Lemma settlement_rejects user :
  raises (UserProcessor.settlement services user hasPremium)
  = rejects_nullish (UserProcessor.buildRecord services user hasPremium).
Proof.
  unfold UserProcessor.settlement.
  by destruct (UserProcessor.buildRecord services user hasPremium) as [[| |e]|record].
Qed.

(** What one rejected task leaves of the promise of [Promise.all]. *)
Lemma reject_None {R} (first : option ErrorWithStatus) (outcome : Exn R) :
  UserProcessor.reject first outcome = None ->
  first = None /\ exists r, outcome = inr r.
Proof. destruct first, outcome; try done. intros _. by eauto. Qed.

(** One turn keeps the invariant and brings the end nearer. *)
Lemma step_invariant a started s s' :
  Invariant started s -> step a s = Some s' ->
  (exists started', Invariant started' s')
  /\ (UserProcessor.distance s' < UserProcessor.distance s)%nat.
Proof.
  intros [Hc Hle Hq Hr Hnd Hb Hs Hlen Ht Hp He Hst Hset] Hstep.
  destruct a as [|i]; cbn in Hstep.
  - (* the limiter starts the head of the queue *)
    unfold PLimit.next in Hstep. rewrite Hq in Hstep.
    destruct (length users - started)%nat as [|rest] eqn:Hrest; [done|].
    cbn [seq] in Hstep.
    destruct (Z.of_nat (length (PLimit.running (UserProcessor.limiter s)))
              <? PLimit.concurrency (UserProcessor.limiter s)) eqn:Hfree; [|done].
    apply Z.ltb_lt in Hfree. injection Hstep as <-.
    assert (forall i,
              i ∈ PLimit.running (UserProcessor.limiter s) ++ [started]
              \/ (S started <= i)%nat
              <-> i ∈ PLimit.running (UserProcessor.limiter s) \/ (started <= i)%nat)
      as Hpending.
    { intros i. rewrite elem_of_app, list_elem_of_singleton. split.
      - intros [[|]|]; [tauto | lia | lia].
      - intros [|]; [tauto|]. destruct (decide (i = started)); [tauto | right; lia]. }
    split.
    + exists (S started).
      split; cbn [UserProcessor.limiter UserProcessor.slots UserProcessor.stats
                    UserProcessor.rejected PLimit.concurrency PLimit.queue PLimit.running].
      * done.
      * lia.
      * f_equal. lia.
      * intros i [Hi| ->%list_elem_of_singleton]%elem_of_app; [|lia].
        apply Hr in Hi. lia.
      * apply NoDup_app. split; [done|]. split; [|apply NoDup_singleton].
        intros i Hi ->%list_elem_of_singleton. apply Hr in Hi. lia.
      * rewrite length_app. cbn. lia.
      * intros Hrej i user Hi. rewrite (Hs Hrej i user Hi). f_equal.
        apply decide_ext. by rewrite Hpending.
      * done.
      * done.
      * done.
      * done.
      * done.
      * intros Hrej i user Hi Hsettled. apply (Hset Hrej i user Hi).
        by rewrite <- Hpending.
    + unfold UserProcessor.distance. cbn. rewrite Hq, length_app, !length_seq. cbn. lia.
  - (* the invocation for user [i] runs to its end *)
    case_bool_decide as Hi; [|done].
    assert (i < length users)%nat as Hlt by (apply Hr in Hi; lia).
    destruct (users !! i) as [user|] eqn:Huser;
      [|by apply lookup_ge_None in Huser; lia].
    rewrite processUser_effect in Hstep. injection Hstep as <-.
    assert (forall j,
              j ∈ filter (fun j => j <> i) (PLimit.running (UserProcessor.limiter s))
              \/ (started <= j)%nat
              <-> j <> i /\ (j ∈ PLimit.running (UserProcessor.limiter s)
                             \/ (started <= j)%nat))
      as Hpending.
    { intros j. rewrite list_elem_of_filter. apply Hr in Hi. split.
      - intros [[? ?]|?]; [tauto|]. split; [lia | tauto].
      - tauto. }
    split.
    + exists started.
      split; cbn [UserProcessor.limiter UserProcessor.slots UserProcessor.stats
                    UserProcessor.rejected PLimit.release
                    PLimit.concurrency PLimit.queue PLimit.running
                    totalUsers processed errors startTime].
      * done.
      * done.
      * done.
      * intros j [_ Hj]%list_elem_of_filter. by apply Hr.
      * by apply NoDup_filter.
      * etrans; [|exact Hb]. apply inj_le, length_filter.
      * intros [Hrej [r Hsettle]]%reject_None j user' Hj.
        rewrite Hsettle. apply settlement_recordOf in Hsettle as ->.
        destruct (decide (j = i)) as [->|Hne].
        -- rewrite list_lookup_insert_eq by (rewrite Hlen; lia).
           rewrite decide_False by (rewrite Hpending; tauto).
           by simplify_eq.
        -- rewrite list_lookup_insert_ne by done.
           rewrite (Hs Hrej j user' Hj). f_equal.
           apply decide_ext. rewrite Hpending. tauto.
      * destruct (UserProcessor.settlement services user hasPremium); [done|].
        by rewrite length_insert.
      * done.
      * intros [Hrej [r Hsettle]]%reject_None.
        rewrite Hsettle. apply settlement_recordOf in Hsettle as ->.
        assert (UserProcessor.slots s !! i = Some None) as Hslot.
        { rewrite (Hs Hrej i user Huser). by rewrite decide_True by tauto. }
        destruct (resolve_slot (UserProcessor.slots s) i (recordOf user) Hslot) as [Hres _].
        unfold UserProcessor.collect in *. cbn [UserProcessor.slots].
        by rewrite Hres, (Hp Hrej).
      * intros [Hrej [r Hsettle]]%reject_None.
        rewrite Hsettle. apply settlement_recordOf in Hsettle as ->.
        assert (UserProcessor.slots s !! i = Some None) as Hslot.
        { rewrite (Hs Hrej i user Huser). by rewrite decide_True by tauto. }
        destruct (resolve_slot (UserProcessor.slots s) i (recordOf user) Hslot) as [_ Hnull].
        unfold UserProcessor.nulls in *. cbn [UserProcessor.slots].
        by rewrite Hnull, (He Hrej).
      * done.
      * intros [Hrej [r Hsettle]]%reject_None j user' Hj Hsettled.
        destruct (decide (j = i)) as [->|Hne].
        -- simplify_eq. by exists r.
        -- apply (Hset Hrej j user' Hj). rewrite Hpending in Hsettled. tauto.
    + unfold UserProcessor.distance. cbn.
      pose proof (length_filter_lt (fun j => j <> i) (PLimit.running (UserProcessor.limiter s)) i Hi)
        as Hshorter.
      assert (length (filter (fun j => j <> i) (PLimit.running (UserProcessor.limiter s)))
              < length (PLimit.running (UserProcessor.limiter s)))%nat by (apply Hshorter; tauto).
      lia.
Qed.

Lemma run_invariant schedule : forall started s s',
  Invariant started s -> run schedule s = Some s' ->
  exists started', Invariant started' s'.
Proof.
  induction schedule as [|a schedule IH]; intros started s s' Hinv Hrun; cbn in Hrun.
  - injection Hrun as <-. by exists started.
  - destruct (UserProcessor.step services users hasPremium a s) as [s1|] eqn:Hstep; [|done].
    destruct (step_invariant a started s s1 Hinv Hstep) as [[started1 Hinv1] _].
    by apply (IH started1 s1).
Qed.

(** No schedule is longer than the distance that is left. *)
Lemma run_length schedule : forall started s s',
  Invariant started s -> run schedule s = Some s' ->
  (length schedule + UserProcessor.distance s' = UserProcessor.distance s)%nat.
Proof.
  induction schedule as [|a schedule IH]; intros started s s' Hinv Hrun; cbn in Hrun.
  - by injection Hrun as <-.
  - destruct (UserProcessor.step services users hasPremium a s) as [s1|] eqn:Hstep; [|done].
    destruct (step_invariant a started s s1 Hinv Hstep) as [[started1 Hinv1] Hlt].
    specialize (IH started1 s1 s' Hinv1 Hrun). cbn [length].
    assert (UserProcessor.distance s = S (UserProcessor.distance s1)); [|lia].
    clear IH Hrun. destruct Hinv as [Hc Hle Hq Hr Hnd Hb Hs Hlen Ht Hp He Hst Hset].
    destruct a as [|i]; cbn in Hstep.
    + unfold PLimit.next in Hstep.
      destruct (PLimit.queue (UserProcessor.limiter s)) as [|job rest] eqn:Hqueue; [done|].
      destruct (_ <? _); [|done]. injection Hstep as <-.
      unfold UserProcessor.distance. cbn. rewrite Hqueue, length_app. cbn. lia.
    + case_bool_decide as Hi; [|done].
      destruct (users !! i) as [user|]; [|done].
      destruct (UserProcessor.processUser _ _ _ _) as [r stats'].
      injection Hstep as <-. unfold UserProcessor.distance. cbn.
      assert (S (length (filter (fun j => j <> i) (PLimit.running (UserProcessor.limiter s))))
              = length (PLimit.running (UserProcessor.limiter s))); [|lia].
      clear -Hi Hnd. induction Hnd as [|j l Hj Hnd IH]; [by apply elem_of_nil in Hi|].
      rewrite filter_cons. apply elem_of_cons in Hi as [<-|Hi].
      * rewrite decide_False by tauto. cbn. f_equal.
        clear IH. induction l as [|j l IH]; [done|].
        apply not_elem_of_cons in Hj as [Hne Hj].
        rewrite filter_cons, decide_True by done. cbn. f_equal.
        apply IH; [done|]. by apply NoDup_cons_1_2 in Hnd.
      * rewrite decide_True by (intros ->; done). cbn. f_equal. by apply IH.
Qed.

Lemma peak_invariant schedule : forall started s,
  Invariant started s ->
  Z.of_nat (UserProcessor.peak services users hasPremium schedule s) <= Z.max 0 maxConcurrency.
Proof.
  induction schedule as [|a schedule IH]; intros started s Hinv; cbn [UserProcessor.peak].
  - apply Hinv.
  - destruct (UserProcessor.step services users hasPremium a s) as [s1|] eqn:Hstep;
      [|apply Hinv].
    destruct (step_invariant a started s s1 Hinv Hstep) as [[started1 Hinv1] _].
    specialize (IH started1 s1 Hinv1).
    pose proof (UserProcessor.inv_bound _ _ _ _ _ _ _ Hinv). lia.
Qed.

(** When the fan-out is over every slot holds the result for its user. *)
Lemma finished_started started s :
  Invariant started s -> UserProcessor.finished s = true ->
  started = length users /\ PLimit.running (UserProcessor.limiter s) = [].
Proof.
  intros [Hc Hle Hq Hr Hnd Hb Hs Hlen Ht Hp He Hst Hset] Hfin.
  unfold UserProcessor.finished in Hfin.
  destruct (PLimit.queue (UserProcessor.limiter s)) as [|] eqn:Hqueue; [|done].
  destruct (PLimit.running (UserProcessor.limiter s)) as [|] eqn:Hrunning; [|done].
  split; [|done].
  symmetry in Hq. apply (f_equal length) in Hq. rewrite length_seq in Hq. cbn in Hq. lia.
Qed.

Lemma finished_slots started s :
  Invariant started s -> UserProcessor.finished s = true ->
  UserProcessor.rejected s = None ->
  UserProcessor.slots s = map (fun user => Some (recordOf user)) users.
Proof.
  intros Hinv Hfin Hrej.
  destruct (finished_started started s Hinv Hfin) as [-> Hrunning].
  destruct Hinv as [Hc Hle Hq Hr Hnd Hb Hs Hlen Ht Hp He Hst Hset].
  apply list_eq. intros i. rewrite list_lookup_fmap.
  destruct (users !! i) as [user|] eqn:Huser; cbn.
  - rewrite (Hs Hrej i user Huser). rewrite decide_False; [done|].
    apply lookup_lt_Some in Huser. rewrite Hrunning. intros [[]%elem_of_nil|]. lia.
  - apply lookup_ge_None. apply lookup_ge_None in Huser. lia.
Qed.

(** When every task has settled and none has rejected, no user's
    [processUser] rejects. *)
Lemma finished_settled started s user :
  Invariant started s -> UserProcessor.finished s = true ->
  UserProcessor.rejected s = None ->
  user ∈ users ->
  exists r, UserProcessor.settlement services user hasPremium = inr r.
Proof.
  intros Hinv Hfin Hrej [i Huser]%list_elem_of_lookup.
  destruct (finished_started started s Hinv Hfin) as [-> Hrunning].
  apply (UserProcessor.inv_settled _ _ _ _ _ _ _ Hinv Hrej i user Huser).
  apply lookup_lt_Some in Huser. rewrite Hrunning. intros [[]%elem_of_nil|]. lia.
Qed.

(** A task rejects only when the [processUser] of one of the users
    does. *)
Lemma step_rejected a s s' :
  (forall user, user ∈ users ->
     raises (UserProcessor.settlement services user hasPremium) = false) ->
  step a s = Some s' -> UserProcessor.rejected s = None ->
  UserProcessor.rejected s' = None.
Proof.
  intros Hnone Hstep Hrej. destruct a as [|i]; cbn in Hstep.
  - destruct (PLimit.next _) as [[job l']|]; [|done]. by injection Hstep as <-.
  - case_bool_decide; [|done].
    destruct (users !! i) as [user|] eqn:Huser; [|done].
    rewrite processUser_effect in Hstep. injection Hstep as <-.
    cbn [UserProcessor.rejected]. rewrite Hrej.
    specialize (Hnone user (list_elem_of_lookup_2 _ _ _ Huser)).
    by destruct (UserProcessor.settlement services user hasPremium).
Qed.

Lemma run_rejected schedule : forall s s',
  (forall user, user ∈ users ->
     raises (UserProcessor.settlement services user hasPremium) = false) ->
  run schedule s = Some s' -> UserProcessor.rejected s = None ->
  UserProcessor.rejected s' = None.
Proof.
  induction schedule as [|a schedule IH]; intros s s' Hnone Hrun Hrej; cbn in Hrun.
  - by injection Hrun as <-.
  - destruct (UserProcessor.step services users hasPremium a s) as [s1|] eqn:Hstep; [|done].
    apply (IH s1 s' Hnone Hrun). by eapply step_rejected.
Qed.

Lemma fails_recordOf user :
  UserProcessor.fails services user hasPremium
  = match recordOf user with Some _ => false | None => true end.
Proof.
  subst recordOf. unfold UserProcessor.fails, UserProcessor.recordOf.
  by destruct (UserProcessor.buildRecord services user hasPremium).
Qed.

Lemma resolved_results (l : list GraphUser.t) :
  UserProcessor.resolved (map (fun user => Some (recordOf user)) l) = omap recordOf l.
Proof.
  unfold UserProcessor.resolved.
  induction l as [|user l IH]; [done|].
  cbn [map]. rewrite !omap_cons_eq, IH. done.
Qed.

Lemma null_count_results (l : list GraphUser.t) :
  UserProcessor.null_count (map (fun user => Some (recordOf user)) l)
  = length (List.filter (fun user => UserProcessor.fails services user hasPremium) l).
Proof.
  unfold UserProcessor.null_count.
  induction l as [|user l IH]; [done|].
  cbn [map List.filter]. rewrite fails_recordOf.
  destruct (recordOf user); cbn [length]; by rewrite IH.
Qed.

Lemma records_and_failures (l : list GraphUser.t) :
  (length (omap recordOf l)
   + length (List.filter (fun user => UserProcessor.fails services user hasPremium) l)
   = length l)%nat.
Proof.
  induction l as [|user l IH]; [done|].
  cbn [List.filter]. rewrite omap_cons_eq, fails_recordOf.
  destruct (recordOf user); cbn [length]; lia.
Qed.

(** With room for at least one invocation the fan-out can always be
    brought to its end. *)
Lemma can_finish : 1 <= maxConcurrency -> forall d started s,
  Invariant started s -> (UserProcessor.distance s <= d)%nat ->
  exists schedule s', run schedule s = Some s' /\ UserProcessor.finished s' = true.
Proof.
  intros Hroom d. induction d as [|d IH]; intros started s Hinv Hd.
  - exists [], s. split; [done|]. unfold UserProcessor.finished, UserProcessor.distance in *.
    destruct (PLimit.queue _); [|cbn in Hd; lia].
    destruct (PLimit.running _); [done | cbn in Hd; lia].
  - destruct (UserProcessor.finished s) eqn:Hfin; [by exists [], s|].
    assert (exists a s1, step a s = Some s1) as (a & s1 & Hstep).
    { pose proof Hinv as [Hc Hle Hq Hr Hnd Hb Hs Hlen Ht Hp He Hst Hset].
      unfold UserProcessor.finished in Hfin.
      destruct (PLimit.running (UserProcessor.limiter s)) as [|i running] eqn:Hrunning.
      - destruct (PLimit.queue (UserProcessor.limiter s)) as [|job rest] eqn:Hqueue; [done|].
        exists UserProcessor.Start. subst step. cbn. unfold PLimit.next.
        rewrite Hqueue, Hrunning, Hc. cbn [length].
        assert ((Z.of_nat 0 <? maxConcurrency) = true) as -> by (apply Z.ltb_lt; lia).
        by eexists.
      - exists (UserProcessor.Settle i). subst step. cbn.
        rewrite Hrunning, bool_decide_eq_true_2 by left.
        assert (i < length users)%nat as Hlt.
        { assert (i < started)%nat; [|lia]. apply Hr. rewrite ?Hrunning. left. }
        destruct (lookup_lt_is_Some_2 users i Hlt) as [user ->].
        destruct (UserProcessor.processUser _ _ _ _). by eexists. }
    destruct (step_invariant a started s s1 Hinv Hstep) as [[started1 Hinv1] Hlt].
    destruct (IH started1 s1 Hinv1) as (schedule & s' & Hrun & Hfin'); [lia|].
    exists (a :: schedule), s'. split; [|done].
    subst run step. cbn. by rewrite Hstep.
Qed.

End pipeline_facts.

Section processAllUsers_facts.
Variable services : UserProcessor.Services.
Variable maxConcurrency : Z.
Variable users : list GraphUser.t.
Variable hasPremium : bool.
Variable now : Z.

(** A call that returns has seen every task settle and none reject. *)
Lemma processAllUsers_returned schedule out st :
  UserProcessor.processAllUsers services maxConcurrency users hasPremium now schedule
  = Some (ret (out, st)) ->
  exists s,
    UserProcessor.run services users hasPremium schedule
      (UserProcessor.start maxConcurrency users now) = Some s
    /\ UserProcessor.rejected s = None
    /\ UserProcessor.finished s = true
    /\ out = UserProcessor.collect s /\ st = UserProcessor.stats s.
Proof.
  unfold UserProcessor.processAllUsers.
  destruct (UserProcessor.run _ _ _ _ _) as [s|] eqn:Hrun; [|done].
  destruct (UserProcessor.rejected s) eqn:Hrej; [done|].
  destruct (UserProcessor.finished s) eqn:Hfin; [|done].
  intros [= <- <-]. by exists s.
Qed.

(** Every complete run of the fan-out, whatever the order in which the
    users settle, returns the same records and leaves the same counters. *)
Lemma processAllUsers_result schedule out st :
  UserProcessor.processAllUsers services maxConcurrency users hasPremium now schedule
  = Some (ret (out, st)) ->
  out = omap (fun user => UserProcessor.recordOf services user hasPremium) users
  /\ st = mkStats (length users) (length out)
            (length (List.filter
                       (fun user => UserProcessor.fails services user hasPremium) users))
            (Some now)
  /\ length schedule = (2 * length users)%nat.
Proof.
  intros (s & Hrun & Hrej & Hfin & -> & ->)%processAllUsers_returned.
  pose proof (start_invariant services maxConcurrency users hasPremium now) as Hstart.
  destruct (run_invariant _ _ _ _ _ _ _ _ _ Hstart Hrun) as [started Hinv].
  pose proof (finished_slots _ _ _ _ _ _ _ Hinv Hfin Hrej) as Hslots.
  pose proof (run_length _ _ _ _ _ _ _ _ _ Hstart Hrun) as Hlen.
  destruct Hinv as [Hc Hle Hq Hr Hnd Hb Hs Hl Ht Hp He Hst Hset].
  specialize (Hp Hrej). specialize (He Hrej).
  assert (UserProcessor.collect s
          = omap (fun user => UserProcessor.recordOf services user hasPremium) users)
    as Hcollect.
  { unfold UserProcessor.collect. rewrite Hslots. apply resolved_results. }
  split; [done|]. split.
  - unfold UserProcessor.nulls in He. rewrite Hslots, null_count_results in He.
    destruct (UserProcessor.stats s). cbn in *. by subst.
  - unfold UserProcessor.distance in Hlen. rewrite start_limiter in Hlen.
    unfold UserProcessor.finished in Hfin.
    destruct (PLimit.queue (UserProcessor.limiter s)); [|done].
    destruct (PLimit.running (UserProcessor.limiter s)); [|done].
    cbn in Hlen. rewrite length_seq in Hlen. lia.
Qed.

(** A call returns only when the [processUser] of no user rejects. *)
Lemma processAllUsers_returned_settled schedule out st user :
  UserProcessor.processAllUsers services maxConcurrency users hasPremium now schedule
  = Some (ret (out, st)) ->
  user ∈ users ->
  raises (UserProcessor.settlement services user hasPremium) = false.
Proof.
  intros (s & Hrun & Hrej & Hfin & _)%processAllUsers_returned Huser.
  pose proof (start_invariant services maxConcurrency users hasPremium now) as Hstart.
  destruct (run_invariant _ _ _ _ _ _ _ _ _ Hstart Hrun) as [started Hinv].
  by destruct (finished_settled _ _ _ _ _ _ _ _ Hinv Hfin Hrej Huser) as [r ->].
Qed.

(** With a limit of at least one, the call does settle. *)
Lemma processAllUsers_settles :
  1 <= maxConcurrency ->
  exists schedule result,
    UserProcessor.processAllUsers services maxConcurrency users hasPremium now schedule
    = Some result.
Proof.
  intros Hroom.
  destruct (can_finish services maxConcurrency users hasPremium now Hroom _ _ _
              (start_invariant services maxConcurrency users hasPremium now) (le_n _))
    as (schedule & s & Hrun & Hfin).
  exists schedule. unfold UserProcessor.processAllUsers. rewrite Hrun, Hfin.
  destruct (UserProcessor.rejected s); by eexists.
Qed.

(** With a limit of at least one and no [processUser] that rejects, the
    call does return, and it never rejects. *)
Lemma processAllUsers_returns :
  1 <= maxConcurrency ->
  (forall user, user ∈ users ->
     raises (UserProcessor.settlement services user hasPremium) = false) ->
  (exists schedule out st,
     UserProcessor.processAllUsers services maxConcurrency users hasPremium now schedule
     = Some (ret (out, st)))
  /\ (forall schedule result,
        UserProcessor.processAllUsers services maxConcurrency users hasPremium now schedule
        = Some result ->
        exists out st, result = ret (out, st)).
Proof.
  intros Hroom Hnone. split.
  - destruct (can_finish services maxConcurrency users hasPremium now Hroom _ _ _
                (start_invariant services maxConcurrency users hasPremium now) (le_n _))
      as (schedule & s & Hrun & Hfin).
    exists schedule. unfold UserProcessor.processAllUsers. rewrite Hrun, Hfin.
    rewrite (run_rejected _ _ _ _ _ _ Hnone Hrun eq_refl). by eexists _, _.
  - intros schedule result. unfold UserProcessor.processAllUsers.
    destruct (UserProcessor.run _ _ _ _ _) as [s|] eqn:Hrun; [|done].
    rewrite (run_rejected _ _ _ _ _ _ Hnone Hrun eq_refl).
    destruct (UserProcessor.finished s); [|done].
    intros [= <-]. by eexists _, _.
Qed.

(** A run that has not come to its end is never stuck. *)
Lemma processAllUsers_progress schedule s :
  1 <= maxConcurrency ->
  UserProcessor.run services users hasPremium schedule
    (UserProcessor.start maxConcurrency users now) = Some s ->
  UserProcessor.finished s = false ->
  exists a s', UserProcessor.step services users hasPremium a s = Some s'.
Proof.
  intros Hroom Hrun Hfin.
  destruct (run_invariant _ _ _ _ _ _ _ _ _
              (start_invariant services maxConcurrency users hasPremium now) Hrun)
    as [started Hinv].
  destruct (can_finish services maxConcurrency users hasPremium now Hroom _ _ _ Hinv (le_n _))
    as ([|a schedule'] & s' & Hrun' & Hfin'); cbn in Hrun'.
  - injection Hrun' as <-. congruence.
  - destruct (UserProcessor.step services users hasPremium a s) as [s1|] eqn:Hstep; [|done].
    by exists a, s1.
Qed.

End processAllUsers_facts.

Lemma filter_fails services hasPremium users :
  List.filter (fun user => UserProcessor.fails services user hasPremium) users
  = List.filter
      (fun user =>
         raises (UserProcessor.getUserMfaInfo services (GraphUser.id user))
         || raises (UserProcessor.getUserSecurityGroups services (GraphUser.id user)))
      users.
Proof.
  apply List.filter_ext. intros user. apply buildRecord_raises.
Qed.

Lemma recordOf_Some services user hasPremium record :
  UserProcessor.recordOf services user hasPremium = Some record <->
  UserProcessor.buildRecord services user hasPremium = inr record.
Proof.
  unfold UserProcessor.recordOf.
  destruct (UserProcessor.buildRecord services user hasPremium); split; congruence.
Qed.

(** The record of a user depends on the services only through the three
    lookups made for that user. *)
Lemma buildRecord_local services services' user hasPremium record :
  UserProcessor.getUserMfaInfo services (GraphUser.id user)
  = UserProcessor.getUserMfaInfo services' (GraphUser.id user) ->
  UserProcessor.getUserSecurityGroups services (GraphUser.id user)
  = UserProcessor.getUserSecurityGroups services' (GraphUser.id user) ->
  UserProcessor.getUserLicenseDetails services (GraphUser.assignedLicenses user)
  = UserProcessor.getUserLicenseDetails services' (GraphUser.assignedLicenses user) ->
  UserProcessor.buildRecord services user hasPremium = inr record <->
  UserProcessor.buildRecord services' user hasPremium = inr record.
Proof.
  intros Hmfa Hgroups Hlicense.
  unfold UserProcessor.buildRecord, UserProcessor.Promise_all2, await.
  rewrite Hmfa, Hgroups, Hlicense.
  by destruct (UserProcessor.getUserMfaInfo services' _),
    (UserProcessor.getUserSecurityGroups services' _).
Qed.

(** When no lookup rejects with [null] or [undefined], the [catch] block
    of [processUser] returns for every user. *)
Lemma settlement_resolves services hasPremium (users : list GraphUser.t) :
  (forall user, user ∈ users ->
     rejects_nullish (UserProcessor.getUserMfaInfo services (GraphUser.id user)) = false
     /\ rejects_nullish
          (UserProcessor.getUserSecurityGroups services (GraphUser.id user)) = false) ->
  forall user, user ∈ users ->
    raises (UserProcessor.settlement services user hasPremium) = false.
Proof.
  intros Hlookups user Huser. destruct (Hlookups user Huser) as [Hmfa Hgroups].
  rewrite settlement_rejects. by apply buildRecord_rejects_nullish.
Qed.

(** ** Isolation, order and the concurrency bound *)

(** C2. If exactly [k] of the users have a lookup that fails, and no
    lookup rejects with [null] or [undefined], then [processAllUsers]
    returns (the fan-out comes to its end, is never stuck before, and the
    call never rejects), and however the users settle it returns exactly
    [M - k] records with [errors = k] and [processed = M - k]; the record
    of every user whose lookups succeed is in the output as built from that
    user's own lookups, and nothing else is. The limit is assumed to be at
    least one, as the limiter requires. *)
Theorem processAllUsers_failure_isolation
    (services : UserProcessor.Services) (maxConcurrency : Z)
    (users : list GraphUser.t) (hasPremium : bool) (now : Z) (k : nat) :
  1 <= maxConcurrency ->
  (forall user, user ∈ users ->
     rejects_nullish (UserProcessor.getUserMfaInfo services (GraphUser.id user)) = false
     /\ rejects_nullish
          (UserProcessor.getUserSecurityGroups services (GraphUser.id user)) = false) ->
  length (List.filter
            (fun user =>
               raises (UserProcessor.getUserMfaInfo services (GraphUser.id user))
               || raises (UserProcessor.getUserSecurityGroups services (GraphUser.id user)))
            users) = k ->
  (exists schedule out st,
      UserProcessor.processAllUsers services maxConcurrency users hasPremium now schedule
      = Some (ret (out, st)))
  /\ (forall schedule s,
        UserProcessor.run services users hasPremium schedule
          (UserProcessor.start maxConcurrency users now) = Some s ->
        UserProcessor.finished s = false ->
        exists a s', UserProcessor.step services users hasPremium a s = Some s')
  /\ (forall schedule result,
        UserProcessor.processAllUsers services maxConcurrency users hasPremium now schedule
        = Some result ->
        exists out st,
          result = ret (out, st)
          /\ length out = (length users - k)%nat
          /\ errors st = k
          /\ processed st = (length users - k)%nat
          /\ totalUsers st = length users
          /\ (forall user record,
                user ∈ users ->
                UserProcessor.buildRecord services user hasPremium = inr record ->
                record ∈ out)
          /\ (forall record,
                record ∈ out ->
                exists user,
                  user ∈ users
                  /\ UserProcessor.buildRecord services user hasPremium = inr record)).
Proof.
  intros Hroom Hlookups Hk. rewrite <- (filter_fails services hasPremium) in Hk.
  pose proof (settlement_resolves services hasPremium users Hlookups) as Hnone.
  destruct (processAllUsers_returns services maxConcurrency users hasPremium now Hroom Hnone)
    as [Hreturns Hnever].
  split; [done|].
  split; [intros schedule s; by apply processAllUsers_progress|].
  intros schedule result Hresult.
  destruct (Hnever schedule result Hresult) as (out & st & ->).
  exists out, st. split; [done|].
  apply processAllUsers_result in Hresult as (Hout & Hst & _).
  pose proof (records_and_failures services hasPremium users) as Hcount.
  rewrite <- Hout, Hk in Hcount.
  rewrite Hk in Hst. subst st. cbn.
  repeat split; try lia.
  - intros user record Huser Hrecord. rewrite Hout.
    apply list_elem_of_omap. exists user. split; [done|]. by apply recordOf_Some.
  - intros record Hin. rewrite Hout in Hin.
    apply list_elem_of_omap in Hin as (user & Huser & Hrecord).
    exists user. split; [done|]. by apply recordOf_Some.
Qed.

Lemma processAllUsers_failure_isolation_witness :
  exists out st,
    UserProcessor.processAllUsers Fixtures.janeFails 2 Fixtures.team true 1700000000
      Fixtures.outOfOrder = Some (ret (out, st))
    /\ length out = 2%nat /\ errors st = 1%nat /\ processed st = 2%nat.
Proof.
  assert (forall user, user ∈ Fixtures.team ->
            rejects_nullish
              (UserProcessor.getUserMfaInfo Fixtures.janeFails (GraphUser.id user)) = false
            /\ rejects_nullish
                 (UserProcessor.getUserSecurityGroups Fixtures.janeFails (GraphUser.id user))
               = false) as Hlookups.
  { intros user Huser. unfold Fixtures.team in Huser.
    repeat (apply elem_of_cons in Huser as [->|Huser]; [split; reflexivity|]).
    by apply elem_of_nil in Huser. }
  destruct (UserProcessor.processAllUsers Fixtures.janeFails 2 Fixtures.team true 1700000000
              Fixtures.outOfOrder) as [result|] eqn:Hrun.
  - destruct (proj2 (proj2 (processAllUsers_failure_isolation
                              Fixtures.janeFails 2 Fixtures.team true 1700000000 1
                              ltac:(lia) Hlookups eq_refl))
                Fixtures.outOfOrder result Hrun)
      as (out & st & -> & Hlen & Herr & Hproc & _).
    exists out, st. split; [reflexivity|].
    exact (conj Hlen (conj Herr Hproc)).
  - vm_compute in Hrun. discriminate Hrun.
Defined.

(** When a lookup rejects with [null] the isolation fails. Of three users
    exactly one, Jane, has a lookup that fails; the [catch] block of her
    [processUser] throws on [err.message], the promise of [Promise.all]
    rejects, and [processAllUsers] rejects: no run returns records. *)
Lemma processAllUsers_failure_isolation_counterexample :
  length (List.filter
            (fun user =>
               raises (UserProcessor.getUserMfaInfo Fixtures.janeRejectsNull
                         (GraphUser.id user))
               || raises (UserProcessor.getUserSecurityGroups Fixtures.janeRejectsNull
                            (GraphUser.id user)))
            Fixtures.team) = 1%nat
  /\ UserProcessor.processAllUsers Fixtures.janeRejectsNull 2 Fixtures.team true 1700000000
       Fixtures.outOfOrder
     = Some (throw (TypeError "Cannot read properties of null (reading 'message')"))
  /\ (forall schedule out st,
        UserProcessor.processAllUsers Fixtures.janeRejectsNull 2 Fixtures.team true
          1700000000 schedule <> Some (ret (out, st))).
Proof.
  split; [reflexivity|]. split; [vm_compute; reflexivity|].
  intros schedule out st Hreturns.
  assert (Fixtures.jane ∈ Fixtures.team) as Hjane by (right; left).
  pose proof (processAllUsers_returned_settled _ _ _ _ _ _ _ _ _ Hreturns Hjane) as Hsettled.
  vm_compute in Hsettled. discriminate Hsettled.
Qed.

(** C3. However the per-user tasks settle, the array returned by
    [processAllUsers] is the input list mapped to the users' records with
    the failed users left out: the successful users' records in input
    order. Any other complete run, in which the tasks settle in another
    order, returns the same array. *)
Theorem processAllUsers_order
    (services : UserProcessor.Services) (maxConcurrency : Z)
    (users : list GraphUser.t) (hasPremium : bool) (now : Z)
    (schedule : list UserProcessor.Action)
    (out : list ProcessedUserRecord) (st : ProcessingStats) :
  UserProcessor.processAllUsers services maxConcurrency users hasPremium now schedule
  = Some (ret (out, st)) ->
  out = omap (fun user => UserProcessor.recordOf services user hasPremium) users
  /\ (forall schedule' out' st',
        UserProcessor.processAllUsers services maxConcurrency users hasPremium now schedule'
        = Some (ret (out', st')) ->
        out' = out).
Proof.
  intros (Hout & _)%processAllUsers_result. split; [done|].
  intros schedule' out' st' (Hout' & _)%processAllUsers_result. congruence.
Qed.

Lemma processAllUsers_order_witness :
  exists out st,
    UserProcessor.processAllUsers Fixtures.janeFails 2 Fixtures.team true 1700000000
      Fixtures.outOfOrder = Some (ret (out, st))
    /\ out = omap (fun user => UserProcessor.recordOf Fixtures.janeFails user true)
               [Fixtures.john; Fixtures.jane; Fixtures.ghost].
Proof.
  destruct (UserProcessor.processAllUsers Fixtures.janeFails 2 Fixtures.team true 1700000000
              Fixtures.outOfOrder) as [[error|[out st]]|] eqn:Hrun.
  - vm_compute in Hrun. discriminate Hrun.
  - exists out, st. split; [reflexivity|].
    exact (proj1 (processAllUsers_order Fixtures.janeFails 2 Fixtures.team true 1700000000
                    Fixtures.outOfOrder out st Hrun)).
  - vm_compute in Hrun. discriminate Hrun.
Defined.

(** C4. All users are handed to one limiter, in input order; at no point
    of any run of the fan-out are more than [maxConcurrency] invocations of
    [processUser] unresolved; and the users not yet started are always the
    last ones of the input list, so that they start first in, first out. *)
Theorem processAllUsers_concurrency_bound
    (services : UserProcessor.Services) (maxConcurrency : Z)
    (users : list GraphUser.t) (hasPremium : bool) (now : Z) :
  0 <= maxConcurrency ->
  UserProcessor.limiter (UserProcessor.start maxConcurrency users now)
  = PLimit.mk maxConcurrency (seq 0 (length users)) []
  /\ (forall schedule,
        Z.of_nat (UserProcessor.peak services users hasPremium schedule
                    (UserProcessor.start maxConcurrency users now)) <= maxConcurrency)
  /\ (forall schedule s,
        UserProcessor.run services users hasPremium schedule
          (UserProcessor.start maxConcurrency users now) = Some s ->
        Z.of_nat (length (PLimit.running (UserProcessor.limiter s))) <= maxConcurrency
        /\ exists started,
             PLimit.queue (UserProcessor.limiter s) = seq started (length users - started)
             /\ forall i, i ∈ PLimit.running (UserProcessor.limiter s) -> (i < started)%nat).
Proof.
  intros Hlimit.
  pose proof (start_invariant services maxConcurrency users hasPremium now) as Hstart.
  split; [apply start_limiter|]. split.
  - intros schedule.
    pose proof (peak_invariant _ _ _ _ _ schedule _ _ Hstart). lia.
  - intros schedule s Hrun.
    destruct (run_invariant _ _ _ _ _ _ _ _ _ Hstart Hrun) as [started Hinv].
    destruct Hinv as [Hc Hle Hq Hr Hnd Hb Hs Hl Ht Hp He Hst Hset].
    split; [lia|]. by exists started.
Qed.

Lemma processAllUsers_concurrency_bound_witness :
  Z.of_nat (UserProcessor.peak Fixtures.janeFails Fixtures.team true Fixtures.outOfOrder
              (UserProcessor.start 2 Fixtures.team 1700000000)) <= 2.
Proof.
  apply (processAllUsers_concurrency_bound Fixtures.janeFails 2 Fixtures.team true
           1700000000).
  lia.
Defined.

(** With the services as [main] wires them no lookup rejects, so no user
    is ever counted in [errors]. *)
Lemma repositoryServices_never_fail client_post client_get retryOptions licenseSkuMap
    user hasPremium :
  UserProcessor.fails
    (repositoryServices client_post client_get retryOptions licenseSkuMap) user hasPremium
  = false.
Proof.
  unfold UserProcessor.fails. rewrite buildRecord_raises.
  cbn [UserProcessor.getUserMfaInfo UserProcessor.getUserSecurityGroups repositoryServices].
  destruct (getUserMfaInfo_repository_never_raises client_post retryOptions
              (GraphUser.id user)) as [info ->].
  destruct (getUserSecurityGroups_never_raises client_get retryOptions (GraphUser.id user))
    as [groups ->].
  done.
Qed.

(** So the [catch] block of [processUser] is never entered, and its
    promise never rejects. *)
Lemma repositoryServices_resolve client_post client_get retryOptions licenseSkuMap
    user hasPremium :
  raises
    (UserProcessor.settlement
       (repositoryServices client_post client_get retryOptions licenseSkuMap) user hasPremium)
  = false.
Proof.
  pose proof (repositoryServices_never_fail client_post client_get retryOptions licenseSkuMap
                user hasPremium) as Hfails.
  unfold UserProcessor.fails in Hfails. unfold UserProcessor.settlement.
  by destruct (UserProcessor.buildRecord _ _ _).
Qed.

(** ** Checks against the unit tests *)

Example retry_exhausted :
  Retry.retryWithBackoff Fixtures.alwaysThrottled (Retry.mkOptions 2 10)
  = Retry.mkRun (inl Fixtures.tooManyRequests) 2 [10].
Proof. reflexivity. Qed.

Example retry_no_attempt :
  Retry.retryWithBackoff Fixtures.alwaysThrottled (Retry.mkOptions 0 10)
  = Retry.mkRun (inl (mkError None (Some "Retry logic failed unexpectedly"))) 0 [].
Proof. reflexivity. Qed.

Example createBatchRequest_ids :
  BatchServiceImpl.createBatchRequest ["/users/123"; "/users/456"]
  = mkBatchRequest [ mkBatchRequestItem "1" "GET" "/users/123";
                     mkBatchRequestItem "2" "GET" "/users/456" ].
Proof. reflexivity. Qed.

Example mfa_authenticator_app :
  MfaService.getUserMfaInfo Fixtures.authenticatorBatchService "123"
  = inr (mkMfaInfo "push" Enabled
           (mkFlags false false true false true false false false)).
Proof. vm_compute. reflexivity. Qed.

Example mfa_bodiless_response :
  MfaService.getUserMfaInfo Fixtures.bodilessBatchService "123"
  = inr MfaService.errorInfo.
Proof. vm_compute. reflexivity. Qed.

Example split_two_ats : Js.split "@" "a@b@c" = ["a"; "b"; "c"].
Proof. reflexivity. Qed.

Example sort_by_character_code : Js.sort ["b"; "a"; "B"; "ab"] = ["B"; "a"; "ab"; "b"].
Proof. vm_compute. reflexivity. Qed.

Example team_run :
  UserProcessor.processAllUsers Fixtures.janeFails 2 Fixtures.team true 1700000000
    (UserProcessor.sequential 3)
  = UserProcessor.processAllUsers Fixtures.janeFails 2 Fixtures.team true 1700000000
      Fixtures.outOfOrder.
Proof. vm_compute. reflexivity. Qed.

Example team_run_over_limit :
  UserProcessor.processAllUsers Fixtures.janeFails 2 Fixtures.team true 1700000000
    [ UserProcessor.Start; UserProcessor.Start; UserProcessor.Start;
      UserProcessor.Settle 0; UserProcessor.Settle 1; UserProcessor.Settle 2 ]
  = None.
Proof. vm_compute. reflexivity. Qed.

Example team_run_result :
  match UserProcessor.processAllUsers Fixtures.janeFails 2 Fixtures.team true 1700000000
          Fixtures.outOfOrder with
  | Some (inr r) => Some (map ID r.1, r.2)
  | _ => None
  end
  = Some (["12345678"; "00000000"], mkStats 3 2 1 (Some 1700000000)).
Proof. vm_compute. reflexivity. Qed.

Example team_run_null_rejection :
  UserProcessor.run Fixtures.janeRejectsNull Fixtures.team true Fixtures.outOfOrder
    (UserProcessor.start 2 Fixtures.team 1700000000)
  = Some (UserProcessor.mkState (PLimit.mk 2 [] [])
            [ Some (UserProcessor.recordOf Fixtures.janeRejectsNull Fixtures.john true);
              None;
              Some (UserProcessor.recordOf Fixtures.janeRejectsNull Fixtures.ghost true) ]
            (mkStats 3 2 1 (Some 1700000000))
            (Some (TypeError "Cannot read properties of null (reading 'message')"))).
Proof. vm_compute. reflexivity. Qed.

Example john_record_columns :
  (fun r => (Domain_name r, Last_successful_sign_in r, Licensed r, License_SKUs r,
             Enabled_Service_Plans r, MFA_status r, Security_Groups r))
    <$> UserProcessor.recordOf Fixtures.quietServices Fixtures.john true
  = Some (Some "contoso.com", "2024-03-01T08:30:00Z", "Yes", "Office 365 E3",
          "EXCHANGE_S_ENTERPRISE", "Disabled", "Security Team").
Proof. vm_compute. reflexivity. Qed.

(* ===================================================================== *)
(** * Part III. Further properties of the code                             *)
(* ===================================================================== *)

(** ** The retry helper, in general *)

Section retry_shape.
Context {T : Type}.
Variable fn : nat -> Exn T.
Variable options : Retry.RetryOptions.

Lemma retry_loop_S remaining i calls ws :
  Retry.retry_loop fn options (S remaining) i calls ws =
  match fn calls with
  | inr v => Retry.mkRun (ret v) (S calls) ws
  | inl err =>
      if Retry.isThrottlingError err && (i <? Retry.maxRetries options - 1) then
        Retry.retry_loop fn options remaining (i + 1) (S calls)
          (ws ++ [Retry.retryDelayMs options * 2 ^ i])
      else Retry.mkRun (throw err) (S calls) ws
  end.
Proof.
  cbn [Retry.retry_loop]. destruct (fn calls); [|done].
  cbn zeta. destruct (_ && _); [done|].
  by destruct (i =? Retry.maxRetries options - 1).
Qed.


End retry_shape.



Lemma backoff_total options m : forall i, 0 <= i ->
  foldr Z.add 0 (Retry.backoff options i m)
  = Retry.retryDelayMs options * 2 ^ i * (2 ^ Z.of_nat m - 1).
Proof.
  induction m as [|m IH]; intros i Hi.
  - cbn. lia.
  - rewrite backoff_S. cbn [foldr]. rewrite IH by lia.
    rewrite Nat2Z.inj_succ, Z.pow_succ_r, Z.pow_add_r by lia.
    change (2 ^ 1) with 2. ring.
Qed.

(** X2. When every one of the [maxRetries >= 1] attempts is throttled,
    the helper gives up with the error of the last attempt after exactly
    [maxRetries] invocations, having slept
    [retryDelayMs * (2^(maxRetries-1) - 1)] in total. *)
Theorem retryWithBackoff_exhausted {T : Type} (fn : nat -> Exn T)
    (options : Retry.RetryOptions) :
  1 <= Retry.maxRetries options ->
  (forall j, Z.of_nat j < Retry.maxRetries options -> Retry.throttled_at fn j) ->
  let r := Retry.retryWithBackoff fn options in
  let n := Z.to_nat (Retry.maxRetries options) in
  Retry.invocations r = n
  /\ Retry.outcome r = fn (n - 1)%nat
  /\ raises (Retry.outcome r) = true
  /\ Retry.waits r = Retry.backoff options 0 (n - 1)
  /\ RetrySpec.totalWait r
     = Retry.retryDelayMs options * (2 ^ (Retry.maxRetries options - 1) - 1).
Proof.
  intros Hmax Hthr r n.
  assert (r = Retry.mkRun (fn (n - 1)%nat) n (Retry.backoff options 0 (n - 1))) as Hr.
  { subst r n. unfold Retry.retryWithBackoff.
    destruct (Z.to_nat (Retry.maxRetries options)) as [|m] eqn:Hn; [lia|].
    rewrite (retry_loop_throttled fn options m) by (cbn; intros; try apply Hthr; lia).
    replace (S m - m)%nat with 1%nat by lia. rewrite retry_loop_S.
    cbn [Nat.add app Z.add]. replace (S m - 1)%nat with m by lia.
    destruct (Hthr m) as (e & He & Hthrottle); [lia|].
    rewrite He.
    assert ((0 + Z.of_nat m <? Retry.maxRetries options - 1) = false) as ->
      by (apply Z.ltb_ge; lia).
    by rewrite andb_false_r. }
  rewrite Hr. cbn. repeat split.
  - destruct (Hthr (n - 1)%nat) as (e & -> & _); [subst n; lia | done].
  - unfold RetrySpec.totalWait. cbn. rewrite backoff_total by lia.
    subst n. rewrite Z.pow_0_r, Z.mul_1_r. do 3 f_equal. lia.
Qed.

Lemma retryWithBackoff_exhausted_witness :
  let r := Retry.retryWithBackoff Fixtures.alwaysThrottled Fixtures.threeAttempts in
  Retry.invocations r = 3%nat
  /\ Retry.outcome r = inl Fixtures.tooManyRequests
  /\ raises (Retry.outcome r) = true
  /\ Retry.waits r = [100; 200]
  /\ RetrySpec.totalWait r = 300.
Proof.
  apply (retryWithBackoff_exhausted Fixtures.alwaysThrottled Fixtures.threeAttempts).
  - discriminate.
  - intros j Hj. exists Fixtures.tooManyRequests. split; reflexivity.
Defined.

(** X3. An operation that is throttled [k] times and then succeeds, with
    [k < maxRetries], is invoked exactly [k + 1] times and its value is
    returned after the [k] doubling sleeps. *)
Theorem retryWithBackoff_eventual_success {T : Type} (fn : nat -> Exn T)
    (options : Retry.RetryOptions) (k : nat) (v : T) :
  Z.of_nat k < Retry.maxRetries options ->
  (forall j, (j < k)%nat -> Retry.throttled_at fn j) ->
  fn k = inr v ->
  Retry.retryWithBackoff fn options
  = Retry.mkRun (inr v) (S k) (Retry.backoff options 0 k).
Proof.
  intros Hk Hthr Hv. unfold Retry.retryWithBackoff.
  rewrite (retry_loop_throttled fn options k) by (cbn; auto with lia).
  cbn [Nat.add app Z.add].
  destruct (Z.to_nat (Retry.maxRetries options) - k)%nat as [|rem] eqn:Hrem; [lia|].
  by rewrite retry_loop_S, Hv.
Qed.

Lemma retryWithBackoff_eventual_success_witness :
  Retry.retryWithBackoff (RetrySpec.throttledThenSuccess 4) (Retry.mkOptions 5 10)
  = Retry.mkRun (inr "success") 5 [10; 20; 40; 80].
Proof.
  apply (retryWithBackoff_eventual_success (RetrySpec.throttledThenSuccess 4)
           (Retry.mkOptions 5 10) 4 "success").
  - reflexivity.
  - intros j Hj. exists (mkError (Some 429) None).
    unfold RetrySpec.throttledThenSuccess.
    destruct (Nat.ltb_spec j 4) as [_|Hge]; [split; reflexivity|].
    exfalso. exact (Nat.lt_irrefl _ (Nat.lt_le_trans _ _ _ Hj Hge)).
  - reflexivity.
Defined.

(** ** The batch service *)

(** X4. [createBatchRequest] makes one GET request per URL, in order; the
    request at position [i] has the identifier [String(i + 1)], and the
    identifiers are pairwise distinct. *)
Theorem createBatchRequest_spec (urls : list string) :
  let batchRequest := BatchServiceImpl.createBatchRequest urls in
  length (requests batchRequest) = length urls
  /\ map url (requests batchRequest) = urls
  /\ (forall i item, requests batchRequest !! i = Some item ->
        request_id item = pretty (i + 1)%nat /\ method item = "GET"
        /\ urls !! i = Some (url item))
  /\ NoDup (map request_id (requests batchRequest)).
Proof.
  cbn zeta. unfold BatchServiceImpl.createBatchRequest. cbn [requests].
  split; [apply length_imap|]. split; [|split].
  - change (map url) with (fmap (M:=list) url). rewrite fmap_imap.
    etrans; [|apply list_fmap_id].
    rewrite <- imap_const. by apply imap_ext.
  - intros i item Hitem. rewrite list_lookup_imap in Hitem.
    destruct (urls !! i) as [u|]; [|done].
    by injection Hitem as <-.
  - change (map request_id) with (fmap (M:=list) request_id). rewrite fmap_imap.
    rewrite (imap_ext _ (fun i _ => pretty (i + 1)%nat)) by done.
    rewrite imap_seq_0.
    apply NoDup_fmap_2_strong; [|apply NoDup_seq].
    intros i j _ _ Hij. apply (inj pretty) in Hij. lia.
Qed.

(** ** The MFA lookup on an answered batch *)

Lemma orFlags_noFlags_r f : MfaSpec.orFlags f MfaService.noFlags = f.
Proof. destruct f. unfold MfaSpec.orFlags. cbn. by rewrite !orb_false_r. Qed.

Lemma orFlags_assoc f g h :
  MfaSpec.orFlags (MfaSpec.orFlags f g) h = MfaSpec.orFlags f (MfaSpec.orFlags g h).
Proof. unfold MfaSpec.orFlags. cbn. by rewrite !orb_assoc. Qed.

(** What the [forEach] callback does with one method. *)
Lemma visit_one f st method :
  MfaService.visit (f, st) method
  = (MfaSpec.orFlags f (MfaSpec.flagsOf [method]),
     if MfaSpec.recognised method then Enabled else st).
Proof.
  destruct f, method as [type tag].
  unfold MfaService.visit, MfaSpec.flagsOf, MfaSpec.recognised, MfaSpec.orFlags,
    MfaSpec.isApp, MfaSpec.isLite, MfaSpec.isType.
  cbn [existsb method_odata_type deviceTag emailAuth fido2Auth msAuthenticatorApp
         msAuthenticatorLite phoneAuth softwareOath temporaryAccessPass windowsHello].
  unfold MfaSpec.emailType, MfaSpec.fido2Type, MfaSpec.authenticatorType,
    MfaSpec.phoneType, MfaSpec.softwareOathType, MfaSpec.temporaryAccessPassType,
    MfaSpec.windowsHelloType.
  repeat case_bool_decide; simplify_eq;
    cbn [andb orb negb]; rewrite ?orb_false_r, ?orb_true_r; reflexivity.
Qed.

Lemma flagsOf_cons method methods :
  MfaSpec.flagsOf (method :: methods)
  = MfaSpec.orFlags (MfaSpec.flagsOf [method]) (MfaSpec.flagsOf methods).
Proof.
  unfold MfaSpec.flagsOf, MfaSpec.orFlags. cbn. by rewrite !orb_false_r.
Qed.

(** The whole [forEach]: a flag is set exactly when a method of its kind
    is listed, and the status becomes Enabled exactly when a method of a
    known type is listed. *)
Lemma visit_all methods : forall f st,
  foldl MfaService.visit (f, st) methods
  = (MfaSpec.orFlags f (MfaSpec.flagsOf methods),
     if existsb MfaSpec.recognised methods then Enabled else st).
Proof.
  induction methods as [|method methods IH]; intros f st; cbn [foldl existsb].
  - by rewrite orFlags_noFlags_r.
  - rewrite visit_one, IH, orFlags_assoc, <- flagsOf_cons.
    by destruct (MfaSpec.recognised method), (existsb MfaSpec.recognised methods).
Qed.

Lemma orFlags_noFlags_l f : MfaSpec.orFlags MfaService.noFlags f = f.
Proof. by destruct f. Qed.

(** The [try] block followed by the [catch] block, as a function of the
    response. *)
Lemma mfaInfoOf_eq response :
  match MfaService.mfaInfoOf response with
  | inr info => info
  | inl error => MfaService.errorInfo
  end
  = match MfaSpec.methodsOf response, MfaSpec.preferenceOf response with
    | Some methods, Some preferred =>
        mkMfaInfo (Js.or_else preferred "Not set")
          (MfaSpec.statusOf methods) (MfaSpec.flagsOf methods)
    | _, _ => MfaService.errorInfo
    end.
Proof.
  unfold MfaService.mfaInfoOf, bind, MfaSpec.methodsOf,
    MfaSpec.preferenceOf, MfaSpec.statusOf.
  assert (forall methods,
            foldl MfaService.visit (MfaService.noFlags, Disabled) methods
            = (MfaSpec.flagsOf methods,
               if existsb MfaSpec.recognised methods then Enabled else Disabled))
    as Hfold by (intros; by rewrite visit_all, orFlags_noFlags_l).
  destruct (responses response !! 0%nat) as [r0|]; simpl.
  - destruct (status r0 =? 200); simpl.
    + destruct (body r0) as [b0|]; simpl; [|done].
      destruct (body_value b0) as [methods|]; simpl; [|done].
      rewrite Hfold.
      destruct (responses response !! 1%nat) as [r1|]; simpl; [|done].
      destruct (status r1 =? 200); simpl; [|done].
      by destruct (body r1) as [b1|].
    + destruct (responses response !! 1%nat) as [r1|]; simpl; [|done].
      destruct (status r1 =? 200); simpl; [|done].
      by destruct (body r1) as [b1|].
  - destruct (responses response !! 1%nat) as [r1|]; simpl; [|done].
    destruct (status r1 =? 200); simpl; [|done].
    by destruct (body r1) as [b1|].
Qed.

(** [getUserMfaInfo] as a function of what the batch service gives. *)
Lemma getUserMfaInfo_eq batchService userId batchRequest :
  MfaService.mfaBatchRequest batchService userId = inr batchRequest ->
  MfaService.getUserMfaInfo batchService userId
  = match executeBatch batchService batchRequest with
    | inl error => settled (MfaService.recover error)
    | inr response =>
        inr match MfaSpec.methodsOf response, MfaSpec.preferenceOf response with
            | Some methods, Some preferred =>
                mkMfaInfo (Js.or_else preferred "Not set")
                  (MfaSpec.statusOf methods) (MfaSpec.flagsOf methods)
            | _, _ => MfaService.errorInfo
            end
    end.
Proof.
  intros Hrequest. rewrite (getUserMfaInfo_settled _ _ _ Hrequest).
  destruct (executeBatch batchService batchRequest) as [error|response]; [done|].
  by rewrite mfaInfoOf_eq.
Qed.

Lemma existsb_orb {A} (f g : A -> bool) l :
  existsb (fun x => f x || g x) l = existsb f l || existsb g l.
Proof.
  induction l as [|x l IH]; [done|]. cbn. rewrite IH.
  destruct (f x), (g x), (existsb f l), (existsb g l); done.
Qed.

Lemma existsb_pointwise {A} (f g : A -> bool) l :
  (forall x, f x = g x) -> existsb f l = existsb g l.
Proof.
  intros Hfg. induction l as [|x l IH]; [done|]. cbn. by rewrite Hfg, IH.
Qed.

Lemma existsb_Permutation {A} (f : A -> bool) l l' :
  l ≡ₚ l' -> existsb f l = existsb f l'.
Proof.
  induction 1 as [|x l l' _ IH|x y l|l l' l'' _ IH1 _ IH2]; cbn.
  - done.
  - by rewrite IH.
  - destruct (f x), (f y); done.
  - congruence.
Qed.

Lemma isApp_or_isLite method :
  MfaSpec.isApp method || MfaSpec.isLite method
  = MfaSpec.isType MfaSpec.authenticatorType method.
Proof.
  unfold MfaSpec.isApp, MfaSpec.isLite.
  destruct (MfaSpec.isType _ _), (bool_decide _); done.
Qed.

(** A method of a known type is listed exactly when some flag is set. *)
Lemma recognised_anyFlag methods :
  existsb MfaSpec.recognised methods = MfaSpec.anyFlag (MfaSpec.flagsOf methods).
Proof.
  unfold MfaSpec.anyFlag, MfaSpec.flagsOf.
  cbn [emailAuth fido2Auth msAuthenticatorApp msAuthenticatorLite phoneAuth
         softwareOath temporaryAccessPass windowsHello].
  unfold MfaSpec.recognised. rewrite !existsb_orb.
  rewrite (existsb_pointwise (MfaSpec.isType MfaSpec.authenticatorType)
             (fun m => MfaSpec.isApp m || MfaSpec.isLite m))
    by (intros m; symmetry; apply isApp_or_isLite).
  rewrite existsb_orb.
  destruct (existsb (MfaSpec.isType MfaSpec.emailType) methods),
    (existsb (MfaSpec.isType MfaSpec.fido2Type) methods),
    (existsb MfaSpec.isApp methods), (existsb MfaSpec.isLite methods); done.
Qed.

(** X5. With the repository's own batch service the [catch] of
    [getUserMfaInfo] is not reached by a failed post: [executeBatch] has
    already turned the failure into an empty response list, and the user is
    reported with default method "Not set", status Disabled and no flag. *)
Theorem getUserMfaInfo_post_failure_hidden
    (client_post : BatchRequest -> nat -> Exn BatchResponse)
    (retryOptions : Retry.RetryOptions) (userId : string) (e : ErrorWithStatus) :
  Retry.outcome
    (Retry.retryWithBackoff
       (client_post (BatchServiceImpl.createBatchRequest (MfaService.urls userId)))
       retryOptions) = inl e ->
  BatchServiceImpl.executeBatch client_post retryOptions
    (BatchServiceImpl.createBatchRequest (MfaService.urls userId))
  = inr (mkBatchResponse [])
  /\ MfaService.getUserMfaInfo (BatchServiceImpl.service client_post retryOptions) userId
     = inr (mkMfaInfo "Not set" Disabled
              (mkFlags false false false false false false false false)).
Proof.
  intros He. split.
  - by apply executeBatch_swallows with e.
  - by apply (getUserMfaInfo_repository_post_failure client_post retryOptions userId e).
Qed.

Lemma getUserMfaInfo_post_failure_hidden_witness :
  MfaService.getUserMfaInfo
    (BatchServiceImpl.service Fixtures.failingPost Fixtures.threeAttempts) "123"
  = inr (mkMfaInfo "Not set" Disabled
           (mkFlags false false false false false false false false)).
Proof.
  apply (getUserMfaInfo_post_failure_hidden Fixtures.failingPost Fixtures.threeAttempts
           "123" Fixtures.apiError).
  reflexivity.
Defined.

(** An answered batch gives the preference, the status and the flags of
    its method list. *)
Lemma getUserMfaInfo_of_answered
    (batchService : BatchService) (userId : string) (batchRequest : BatchRequest)
    (response : BatchResponse) (methods : list AuthMethod) (preferred : option string) :
  MfaService.mfaBatchRequest batchService userId = inr batchRequest ->
  executeBatch batchService batchRequest = inr response ->
  MfaSpec.answered response methods preferred ->
  MfaService.getUserMfaInfo batchService userId
  = inr (mkMfaInfo (Js.or_else preferred "Not set")
           (MfaSpec.statusOf methods) (MfaSpec.flagsOf methods)).
Proof.
  intros Hrequest Hresponse
    (r0 & b0 & r1 & b1 & Hr0 & Hs0 & Hb0 & Hv0 & Hr1 & Hs1 & Hb1 & Hp).
  rewrite (getUserMfaInfo_eq _ _ _ Hrequest), Hresponse.
  unfold MfaSpec.methodsOf, MfaSpec.preferenceOf.
  rewrite Hr0, Hs0, Hb0, Hr1, Hs1, Hb1. cbn. by rewrite Hv0, Hp.
Qed.

(** X6. When both calls of the batch are answered with status 200,
    [getUserMfaInfo] returns the preferred method (or "Not set" when the
    preference is missing or empty), a flag for each kind of method that is
    listed, and the status Enabled exactly when a method of one of the
    seven known types is listed, Disabled otherwise. *)
Theorem getUserMfaInfo_answered
    (batchService : BatchService) (userId : string) (batchRequest : BatchRequest)
    (response : BatchResponse) (methods : list AuthMethod) (preferred : option string) :
  MfaService.mfaBatchRequest batchService userId = inr batchRequest ->
  executeBatch batchService batchRequest = inr response ->
  MfaSpec.answered response methods preferred ->
  MfaService.getUserMfaInfo batchService userId
  = inr (mkMfaInfo (Js.or_else preferred "Not set")
           (MfaSpec.statusOf methods) (MfaSpec.flagsOf methods))
  /\ (MfaSpec.statusOf methods = Enabled <->
      exists method, method ∈ methods /\ MfaSpec.recognised method = true)
  /\ (MfaSpec.statusOf methods = Disabled <->
      forall method, method ∈ methods -> MfaSpec.recognised method = false).
Proof.
  intros Hrequest Hresponse Hanswered.
  split; [|split].
  - by apply getUserMfaInfo_of_answered with (batchRequest := batchRequest)
                                              (response := response).
  - unfold MfaSpec.statusOf.
    destruct (existsb MfaSpec.recognised methods) eqn:Hex.
    + split; [|done]. intros _. apply existsb_exists in Hex as (m & Hm & Hrec).
      exists m. by rewrite list_elem_of_In.
    + split; [done|]. intros (m & Hm & Hrec).
      assert (existsb MfaSpec.recognised methods = true); [|congruence].
      apply existsb_exists. exists m. by rewrite <- list_elem_of_In.
  - unfold MfaSpec.statusOf.
    destruct (existsb MfaSpec.recognised methods) eqn:Hex.
    + split; [done|]. intros Hnone.
      apply existsb_exists in Hex as (m & Hm & Hrec).
      rewrite Hnone in Hrec; [done | by apply list_elem_of_In].
    + split; [|done]. intros _ m Hm.
      destruct (MfaSpec.recognised m) eqn:Hrec; [|done].
      assert (existsb MfaSpec.recognised methods = true); [|congruence].
      apply existsb_exists. exists m. by rewrite <- list_elem_of_In.
Qed.

Lemma getUserMfaInfo_answered_witness :
  MfaService.getUserMfaInfo
    (MfaSpec.answering (MfaSpec.twoMethodsResponse MfaSpec.twoMethods)) "123"
  = inr (mkMfaInfo "push" Enabled (mkFlags false false true false true false false false)).
Proof.
  apply (getUserMfaInfo_answered
           (MfaSpec.answering (MfaSpec.twoMethodsResponse MfaSpec.twoMethods)) "123"
           (mkBatchRequest [])
           (MfaSpec.twoMethodsResponse MfaSpec.twoMethods) MfaSpec.twoMethods (Some "push")).
  - reflexivity.
  - reflexivity.
  - eexists _, _, _, _. repeat split; reflexivity.
Defined.

(** X7. Whatever the batch service does, an object that
    [getUserMfaInfo] returns is consistent: its status is Enabled exactly
    when one of the eight flags is set, it is Unknown only on the object of
    the [catch] block, and its default method is never the empty string.
    Over the repository's own batch service [getUserMfaInfo] always
    returns. *)
Theorem getUserMfaInfo_consistent :
  (forall (batchService : BatchService) (userId : string) (info : MfaInfo),
     MfaService.getUserMfaInfo batchService userId = inr info ->
     (mfaStatus info = Enabled <-> MfaSpec.anyFlag (methodFlags info) = true)
     /\ (mfaStatus info = Unknown -> info = MfaService.errorInfo)
     /\ defaultMethod info <> "")
  /\ (forall (client_post : BatchRequest -> nat -> Exn BatchResponse)
             (retryOptions : Retry.RetryOptions) (userId : string),
        exists info,
          MfaService.getUserMfaInfo (BatchServiceImpl.service client_post retryOptions) userId
          = inr info).
Proof.
  assert (forall methods preferred,
    let info := mkMfaInfo (Js.or_else preferred "Not set")
                  (MfaSpec.statusOf methods) (MfaSpec.flagsOf methods) in
    (mfaStatus info = Enabled <-> MfaSpec.anyFlag (methodFlags info) = true)
    /\ (mfaStatus info = Unknown -> info = MfaService.errorInfo)
    /\ defaultMethod info <> "") as Hbuilt.
  { intros methods preferred. cbn. unfold MfaSpec.statusOf.
    rewrite recognised_anyFlag.
    split; [|split].
    - by destruct (MfaSpec.anyFlag _).
    - by destruct (MfaSpec.anyFlag _).
    - destruct preferred as [p|]; [|done]. cbn.
      destruct (String.eqb_spec p ""); done. }
  split; [|apply getUserMfaInfo_repository_never_raises].
  intros batchService userId info.
  destruct (MfaService.mfaBatchRequest batchService userId) as [thrown|batchRequest]
    eqn:Hrequest.
  { unfold MfaService.getUserMfaInfo. by rewrite Hrequest. }
  rewrite (getUserMfaInfo_eq _ _ _ Hrequest).
  destruct (executeBatch batchService batchRequest) as [[| |e]|response]; try done.
  - intros [= <-]. by repeat split.
  - intros [= <-].
    destruct (MfaSpec.methodsOf response) as [methods|]; [|by repeat split].
    destruct (MfaSpec.preferenceOf response) as [preferred|]; [|by repeat split].
    apply Hbuilt.
Qed.

Lemma getUserMfaInfo_consistent_witness :
  MfaSpec.anyFlag (mkFlags false false true false true false false false) = true.
Proof.
  apply (proj1 getUserMfaInfo_consistent
           (MfaSpec.answering (MfaSpec.twoMethodsResponse MfaSpec.twoMethods)) "123"
           (mkMfaInfo "push" Enabled (mkFlags false false true false true false false false))).
  - vm_compute. reflexivity.
  - reflexivity.
Defined.

(** X8. A call of the batch without an answer, or answered with a status
    other than 200, counts as "no data" whatever its body says: without the
    methods call no flag is set and the status is Disabled; without the
    preference call the default method is "Not set". *)
Theorem getUserMfaInfo_unanswered
    (batchService : BatchService) (userId : string) (batchRequest : BatchRequest)
    (response : BatchResponse) :
  MfaService.mfaBatchRequest batchService userId = inr batchRequest ->
  executeBatch batchService batchRequest = inr response ->
  (MfaSpec.unanswered response 0 -> MfaSpec.unanswered response 1 ->
     MfaService.getUserMfaInfo batchService userId
     = inr (mkMfaInfo "Not set" Disabled MfaService.noFlags))
  /\ (forall r1 b1,
        MfaSpec.unanswered response 0 ->
        responses response !! 1%nat = Some r1 -> status r1 = 200 -> body r1 = Some b1 ->
        MfaService.getUserMfaInfo batchService userId
        = inr (mkMfaInfo
                 (Js.or_else (userPreferredMethodForSecondaryAuthentication b1) "Not set")
                 Disabled MfaService.noFlags))
  /\ (forall r0 b0 methods,
        responses response !! 0%nat = Some r0 -> status r0 = 200 -> body r0 = Some b0 ->
        body_value b0 = Some methods ->
        MfaSpec.unanswered response 1 ->
        MfaService.getUserMfaInfo batchService userId
        = inr (mkMfaInfo "Not set" (MfaSpec.statusOf methods) (MfaSpec.flagsOf methods))).
Proof.
  intros Hrequest Hresponse.
  assert (MfaSpec.unanswered response 0 -> MfaSpec.methodsOf response = Some []) as H0.
  { unfold MfaSpec.unanswered, MfaSpec.methodsOf.
    destruct (responses response !! 0%nat) as [r|]; [|done].
    intros Hne. by apply Z.eqb_neq in Hne as ->. }
  assert (MfaSpec.unanswered response 1 -> MfaSpec.preferenceOf response = Some None) as H1.
  { unfold MfaSpec.unanswered, MfaSpec.preferenceOf.
    destruct (responses response !! 1%nat) as [r|]; [|done].
    intros Hne. by apply Z.eqb_neq in Hne as ->. }
  rewrite (getUserMfaInfo_eq _ _ _ Hrequest), Hresponse. split; [|split].
  - intros Hu0 Hu1. by rewrite (H0 Hu0), (H1 Hu1).
  - intros r1 b1 Hu0 Hr1 Hs1 Hb1. rewrite (H0 Hu0).
    unfold MfaSpec.preferenceOf. by rewrite Hr1, Hs1, Hb1.
  - intros r0 b0 methods Hr0 Hs0 Hb0 Hv0 Hu1. rewrite (H1 Hu1).
    unfold MfaSpec.methodsOf. rewrite Hr0, Hs0, Hb0. cbn. by rewrite Hv0.
Qed.

Lemma getUserMfaInfo_unanswered_witness :
  MfaService.getUserMfaInfo (MfaSpec.answering MfaSpec.refusedResponse) "123"
  = inr (mkMfaInfo "Not set" Disabled MfaService.noFlags).
Proof.
  apply (proj1 (getUserMfaInfo_unanswered (MfaSpec.answering MfaSpec.refusedResponse) "123"
                  (mkBatchRequest []) MfaSpec.refusedResponse eq_refl eq_refl));
    cbn; discriminate.
Defined.

(** X9. The order in which the authentication methods are listed does not
    matter: two answered batches whose method lists are permutations of
    each other, with the same preference, give the same MfaInfo. *)
Theorem getUserMfaInfo_order_independent
    (batchService batchService' : BatchService) (userId userId' : string)
    (batchRequest batchRequest' : BatchRequest)
    (response response' : BatchResponse) (methods methods' : list AuthMethod)
    (preferred : option string) :
  MfaService.mfaBatchRequest batchService userId = inr batchRequest ->
  executeBatch batchService batchRequest = inr response ->
  MfaService.mfaBatchRequest batchService' userId' = inr batchRequest' ->
  executeBatch batchService' batchRequest' = inr response' ->
  MfaSpec.answered response methods preferred ->
  MfaSpec.answered response' methods' preferred ->
  methods ≡ₚ methods' ->
  MfaService.getUserMfaInfo batchService userId
  = MfaService.getUserMfaInfo batchService' userId'.
Proof.
  intros Hq Hr Hq' Hr' Ha Ha' Hperm.
  rewrite (getUserMfaInfo_of_answered _ _ _ _ _ _ Hq Hr Ha).
  rewrite (getUserMfaInfo_of_answered _ _ _ _ _ _ Hq' Hr' Ha').
  unfold MfaSpec.statusOf, MfaSpec.flagsOf.
  by rewrite !(existsb_Permutation _ _ _ Hperm).
Qed.

Lemma getUserMfaInfo_order_independent_witness :
  MfaService.getUserMfaInfo
    (MfaSpec.answering (MfaSpec.twoMethodsResponse MfaSpec.twoMethods)) "123"
  = MfaService.getUserMfaInfo
      (MfaSpec.answering (MfaSpec.twoMethodsResponse (reverse MfaSpec.twoMethods))) "123".
Proof.
  apply (getUserMfaInfo_order_independent _ _ _ _ (mkBatchRequest []) (mkBatchRequest [])
           (MfaSpec.twoMethodsResponse MfaSpec.twoMethods)
           (MfaSpec.twoMethodsResponse (reverse MfaSpec.twoMethods))
           MfaSpec.twoMethods (reverse MfaSpec.twoMethods) (Some "push")).
  - reflexivity.
  - reflexivity.
  - reflexivity.
  - reflexivity.
  - eexists _, _, _, _. repeat split; reflexivity.
  - eexists _, _, _, _. repeat split; reflexivity.
  - symmetry. apply reverse_Permutation.
Defined.

(** ** Parsing a line of the friendly-name file *)

Lemma append_cons c (s t : string) : String c s +:+ t = String c (s +:+ t).
Proof. reflexivity. Qed.

Lemma append_nil_l (s : string) : "" +:+ s = s.
Proof. reflexivity. Qed.

Lemma append_nil_r (s : string) : s +:+ "" = s.
Proof. induction s as [|c s IH]; [done|]. by rewrite append_cons, IH. Qed.

Lemma append_assoc (s1 s2 s3 : string) : (s1 +:+ s2) +:+ s3 = s1 +:+ s2 +:+ s3.
Proof. induction s1 as [|c s1 IH]; [done|]. by rewrite !append_cons, IH. Qed.

Lemma split_nonempty sep s : exists seg rest, Js.split sep s = seg :: rest.
Proof. destruct (split_head sep s) as [rest ->]. by eexists _, _. Qed.

(** Without quotes the loop cuts the line at its commas. *)
Lemma parseCsvLine_from_unquoted line : forall fields currentField,
  SkuMappingService.free_of SkuMappingService.quote line = true ->
  SkuMappingService.parseCsvLine_from line fields currentField false
  = fields ++ match Js.split "," line with
              | seg :: rest => (currentField +:+ seg) :: rest
              | [] => [currentField]
              end.
Proof.
  induction line as [|c line IH]; intros fields cur Hfree.
  - cbn. by rewrite append_nil_r.
  - cbn [SkuMappingService.free_of] in Hfree.
    apply andb_true_iff in Hfree as [Hc Hfree]. apply negb_true_iff in Hc.
    cbn [SkuMappingService.parseCsvLine_from Js.split]. rewrite Hc.
    destruct (Ascii.eqb c ",") eqn:Hcomma; cbn [andb negb].
    + rewrite IH by done. destruct (split_nonempty "," line) as (seg & rest & ->).
      rewrite <- app_assoc. cbn. by rewrite append_nil_r.
    + rewrite IH by done. destruct (split_nonempty "," line) as (seg & rest & ->).
      by rewrite append_assoc.
Qed.

(** X10. On a line without double quotes [parseCsvLine] is the split at
    the commas: [line.split(',')]. *)
Theorem parseCsvLine_unquoted (line : string) :
  SkuMappingService.free_of SkuMappingService.quote line = true ->
  SkuMappingService.parseCsvLine line = Js.split "," line.
Proof.
  intros Hfree. unfold SkuMappingService.parseCsvLine.
  rewrite parseCsvLine_from_unquoted by done.
  by destruct (split_nonempty "," line) as (seg & rest & ->).
Qed.

Lemma parseCsvLine_unquoted_witness :
  SkuMappingService.parseCsvLine "Office 365 E3,ENTERPRISEPACK,6fd2c87f,,PLAN1"
  = ["Office 365 E3"; "ENTERPRISEPACK"; "6fd2c87f"; ""; "PLAN1"].
Proof.
  rewrite (parseCsvLine_unquoted "Office 365 E3,ENTERPRISEPACK,6fd2c87f,,PLAN1" eq_refl).
  reflexivity.
Defined.

Lemma free_of_append c s1 s2 :
  SkuMappingService.free_of c (s1 +:+ s2)
  = SkuMappingService.free_of c s1 && SkuMappingService.free_of c s2.
Proof.
  induction s1 as [|a s1 IH]; [done|].
  rewrite append_cons. cbn [SkuMappingService.free_of]. by rewrite IH, andb_assoc.
Qed.

Lemma split_free sep s :
  SkuMappingService.free_of sep s = true -> Js.split sep s = [s].
Proof.
  induction s as [|c s IH]; [done|]. cbn.
  intros [Hc Hs]%andb_true_iff. apply negb_true_iff in Hc.
  by rewrite Hc, IH.
Qed.

Lemma split_free_app sep s rest :
  SkuMappingService.free_of sep s = true ->
  Js.split sep (s +:+ String sep rest) = s :: Js.split sep rest.
Proof.
  induction s as [|c s IH].
  - intros _. rewrite append_nil_l. cbn [Js.split]. by rewrite Ascii.eqb_refl.
  - cbn [SkuMappingService.free_of].
    intros [Hc Hs]%andb_true_iff. apply negb_true_iff in Hc.
    rewrite append_cons. cbn [Js.split]. by rewrite Hc, IH.
Qed.

Lemma split_join sep fields :
  fields <> [] ->
  Forall (fun f => SkuMappingService.free_of sep f = true) fields ->
  Js.split sep (Js.join (String sep "") fields) = fields.
Proof.
  intros Hne Hfree. unfold Js.join.
  induction Hfree as [|f fields Hf Hfree IH]; [done|].
  destruct fields as [|g fields].
  - cbn. by apply split_free.
  - cbn [String.concat]. change (String sep "" +:+ ?s) with (String sep s).
    rewrite split_free_app by done. f_equal. by apply IH.
Qed.

Lemma concat_cons2 sep (f g : string) fields :
  String.concat sep (f :: g :: fields) = f +:+ sep +:+ String.concat sep (g :: fields).
Proof. reflexivity. Qed.

Lemma free_of_join c sep fields :
  SkuMappingService.free_of c sep = true ->
  Forall (fun f => SkuMappingService.free_of c f = true) fields ->
  SkuMappingService.free_of c (Js.join sep fields) = true.
Proof.
  intros Hsep Hfree. unfold Js.join.
  induction Hfree as [|f fields Hf Hfree IH]; [done|].
  destruct fields as [|g fields]; [done|].
  by rewrite concat_cons2, !free_of_append, Hf, Hsep, IH.
Qed.

(** X11. Writing fields that contain neither a comma nor a double quote
    with commas between them and parsing the line gives the fields back. *)
Theorem parseCsvLine_join (fields : list string) :
  fields <> [] ->
  Forall (fun f => SkuMappingService.free_of "," f = true
                   /\ SkuMappingService.free_of SkuMappingService.quote f = true) fields ->
  SkuMappingService.parseCsvLine (Js.join "," fields) = fields.
Proof.
  intros Hne Hfree. unfold SkuMappingService.parseCsvLine.
  rewrite parseCsvLine_from_unquoted.
  - destruct (split_nonempty "," (Js.join "," fields)) as (seg & rest & Hsplit).
    rewrite Hsplit. cbn [app]. rewrite append_nil_l, <- Hsplit.
    apply split_join; [done|]. eapply Forall_impl; [exact Hfree|]. by intros f [? _].
  - apply free_of_join; [done|]. eapply Forall_impl; [exact Hfree|]. by intros f [_ ?].
Qed.

Lemma parseCsvLine_join_witness :
  SkuMappingService.parseCsvLine (Js.join "," ["Regular License"; "REGULAR_SKU"; ""])
  = ["Regular License"; "REGULAR_SKU"; ""].
Proof.
  apply parseCsvLine_join.
  - discriminate.
  - repeat constructor.
Defined.

Lemma concat_snoc_append sep fields cur s :
  String.concat sep (fields ++ [cur +:+ s]) = String.concat sep (fields ++ [cur]) +:+ s.
Proof.
  induction fields as [|f fields IH]; [done|].
  cbn [app]. destruct fields as [|g fields].
  - cbn. by rewrite !append_assoc.
  - cbn [app String.concat] in *. by rewrite IH, !append_assoc.
Qed.

Lemma concat_snoc_new sep fields cur :
  String.concat sep ((fields ++ [cur]) ++ [""]) = String.concat sep (fields ++ [cur]) +:+ sep.
Proof.
  induction fields as [|f fields IH].
  - cbn. by rewrite append_nil_r.
  - cbn [app]. destruct fields as [|g fields].
    + cbn. by rewrite append_nil_r, !append_assoc.
    + cbn [app String.concat] in *. by rewrite IH, !append_assoc.
Qed.

Lemma parseCsvLine_from_join line : forall fields cur inside,
  String.concat "," (SkuMappingService.parseCsvLine_from line fields cur inside)
  = String.concat "," (fields ++ [cur]) +:+ SkuMappingService.withoutQuotes line.
Proof.
  induction line as [|c line IH]; intros fields cur inside.
  - cbn. by rewrite append_nil_r.
  - cbn [SkuMappingService.parseCsvLine_from SkuMappingService.withoutQuotes].
    destruct (Ascii.eqb c SkuMappingService.quote) eqn:Hq; [apply IH|].
    destruct (Ascii.eqb c "," && negb inside) eqn:Hcomma.
    + apply andb_true_iff in Hcomma as [->%Ascii.eqb_eq _].
      rewrite IH, concat_snoc_new. by rewrite append_assoc.
    + rewrite IH, concat_snoc_append. by rewrite append_assoc.
Qed.

Lemma parseCsvLine_from_free line : forall fields cur inside,
  Forall (fun f => SkuMappingService.free_of SkuMappingService.quote f = true) fields ->
  SkuMappingService.free_of SkuMappingService.quote cur = true ->
  Forall (fun f => SkuMappingService.free_of SkuMappingService.quote f = true)
    (SkuMappingService.parseCsvLine_from line fields cur inside).
Proof.
  induction line as [|c line IH]; intros fields cur inside Hfields Hcur.
  - cbn. apply Forall_app. split; [done|]. by constructor.
  - cbn [SkuMappingService.parseCsvLine_from].
    destruct (Ascii.eqb c SkuMappingService.quote) eqn:Hq; [by apply IH|].
    destruct (Ascii.eqb c "," && negb inside).
    + apply IH; [|done]. apply Forall_app. split; [done|]. by constructor.
    + apply IH; [done|]. rewrite free_of_append, Hcur. cbn. by rewrite Hq.
Qed.

(** X12. Parsing loses nothing but the double quotes: the fields of any
    line, joined with commas again, are the line with its double quotes
    taken out, and no field contains a double quote. *)
Theorem parseCsvLine_keeps_text (line : string) :
  Js.join "," (SkuMappingService.parseCsvLine line) = SkuMappingService.withoutQuotes line
  /\ Forall (fun f => SkuMappingService.free_of SkuMappingService.quote f = true)
       (SkuMappingService.parseCsvLine line).
Proof.
  split.
  - unfold Js.join, SkuMappingService.parseCsvLine.
    by rewrite parseCsvLine_from_join.
  - apply parseCsvLine_from_free; [constructor | done].
Qed.

Lemma parseCsvLine_from_inside inner rest : forall cur,
  SkuMappingService.free_of SkuMappingService.quote inner = true ->
  SkuMappingService.free_of SkuMappingService.quote rest = true ->
  SkuMappingService.parseCsvLine_from
    (inner +:+ String SkuMappingService.quote (String "," rest)) [] cur true
  = (cur +:+ inner) :: Js.split "," rest.
Proof.
  induction inner as [|c inner IH]; intros cur Hinner Hrest.
  - rewrite append_nil_l. cbn [SkuMappingService.parseCsvLine_from].
    rewrite Ascii.eqb_refl. cbn [negb SkuMappingService.parseCsvLine_from].
    change (Ascii.eqb "," SkuMappingService.quote) with false.
    change (Ascii.eqb "," "," && negb false) with true. cbn iota.
    rewrite parseCsvLine_from_unquoted by done.
    destruct (split_nonempty "," rest) as (seg & tl & ->).
    cbn. by rewrite append_nil_r.
  - cbn [SkuMappingService.free_of] in Hinner.
    apply andb_true_iff in Hinner as [Hc Hinner]. apply negb_true_iff in Hc.
    rewrite append_cons. cbn [SkuMappingService.parseCsvLine_from negb].
    rewrite Hc, andb_false_r, IH by done. by rewrite append_assoc.
Qed.

(** X13. A first field written between double quotes keeps its commas:
    the line ["inner",rest] parses to [inner] followed by the fields of
    [rest], whatever commas [inner] contains. *)
Theorem parseCsvLine_quoted_field (inner rest : string) :
  SkuMappingService.free_of SkuMappingService.quote inner = true ->
  SkuMappingService.free_of SkuMappingService.quote rest = true ->
  SkuMappingService.parseCsvLine
    (String SkuMappingService.quote inner
     +:+ String SkuMappingService.quote (String "," rest))
  = inner :: Js.split "," rest.
Proof.
  intros Hinner Hrest. unfold SkuMappingService.parseCsvLine.
  rewrite append_cons. cbn [SkuMappingService.parseCsvLine_from].
  rewrite Ascii.eqb_refl. cbn [negb].
  by rewrite parseCsvLine_from_inside.
Qed.

Lemma parseCsvLine_quoted_field_witness :
  SkuMappingService.parseCsvLine
    (String SkuMappingService.quote "Office 365 E3, Extended"
     +:+ String SkuMappingService.quote ",ENTERPRISEPACK_EXTENDED,test-guid-1")
  = ["Office 365 E3, Extended"; "ENTERPRISEPACK_EXTENDED"; "test-guid-1"].
Proof.
  apply (parseCsvLine_quoted_field
           "Office 365 E3, Extended" "ENTERPRISEPACK_EXTENDED,test-guid-1");
    reflexivity.
Defined.

(** ** License details: what they depend on *)

Lemma sorted_set_unique (l1 l2 : list string) :
  StronglySorted String.le l1 -> StronglySorted String.le l2 ->
  NoDup l1 -> NoDup l2 ->
  (forall x, x ∈ l1 <-> x ∈ l2) ->
  l1 = l2.
Proof.
  intros Hs1 Hs2 Hn1 Hn2 Heq.
  apply (StronglySorted_unique String.le); [done | done |].
  by apply NoDup_Permutation.
Qed.

Lemma sort_set_unique (l1 l2 : list string) :
  NoDup l1 -> NoDup l2 -> (forall x, x ∈ l1 <-> x ∈ l2) -> Js.sort l1 = Js.sort l2.
Proof.
  intros Hn1 Hn2 Heq.
  apply sorted_set_unique; try apply sort_sorted; try by apply sort_NoDup.
  intros x. by rewrite !sort_elem_of.
Qed.

(** X14. The license names and the service plans of a user depend only
    on which assignments the user has, not on their order or on how often
    one is repeated; with the same number of assignments the whole result
    is the same. *)
Theorem getUserLicenseDetails_same_assignments
    (licenseSkuMap : gmap string LicenseSku.t) (licenses1 licenses2 : list AssignedLicense) :
  (forall a, a ∈ licenses1 <-> a ∈ licenses2) ->
  let details1 := LicenseService.getUserLicenseDetails licenseSkuMap (Some licenses1) in
  let details2 := LicenseService.getUserLicenseDetails licenseSkuMap (Some licenses2) in
  licenseSkus details1 = licenseSkus details2
  /\ servicePlans details1 = servicePlans details2
  /\ (length licenses1 = length licenses2 -> details1 = details2).
Proof.
  intros Hsame details1 details2.
  assert (licenseSkus details1 = licenseSkus details2
          /\ servicePlans details1 = servicePlans details2) as [Hnames Hplans].
  { subst details1 details2.
    destruct licenses1 as [|a1 l1], licenses2 as [|a2 l2].
    - done.
    - exfalso. eapply elem_of_nil, Hsame. left.
    - exfalso. eapply elem_of_nil, Hsame. left.
    - rewrite !getUserLicenseDetails_cons. cbn [licenseSkus servicePlans]. split.
      + apply sort_set_unique; try apply to_set_NoDup.
        intros x. rewrite !to_set_elem_of, !list_elem_of_fmap.
        split; intros (b & ? & Hb); exists b; (split; [done|]); by apply Hsame.
      + apply sort_set_unique; try (apply visit_plans_NoDup, NoDup_nil_2).
        intros x. rewrite !visit_plans_elem_of.
        split; (intros [|(b & Hb & ?)]; [by left|]); right; exists b;
          (split; [|done]); by apply Hsame. }
  repeat split; [done | done |].
  intros Hlen.
  assert (licenseCount details1 = licenseCount details2) as Hcount.
  { subst details1 details2.
    destruct licenses1 as [|a1 l1], licenses2 as [|a2 l2]; try done.
    by rewrite !getUserLicenseDetails_cons. }
  destruct details1, details2. cbn in *. congruence.
Qed.

Lemma getUserLicenseDetails_same_assignments_witness :
  LicenseService.getUserLicenseDetails Fixtures.enterpriseCatalog
    (Some [mkAssignedLicense "sku-9" None; mkAssignedLicense "sku-1" None])
  = LicenseService.getUserLicenseDetails Fixtures.enterpriseCatalog
      (Some [mkAssignedLicense "sku-1" None; mkAssignedLicense "sku-9" None]).
Proof.
  apply (getUserLicenseDetails_same_assignments Fixtures.enterpriseCatalog
           [mkAssignedLicense "sku-9" None; mkAssignedLicense "sku-1" None]
           [mkAssignedLicense "sku-1" None; mkAssignedLicense "sku-9" None]).
  - intros a. rewrite !elem_of_cons, !elem_of_nil. tauto.
  - reflexivity.
Defined.

Lemma to_set_from_length l : forall seen,
  (length (foldl (fun seen x => Js.add x seen) seen l) <= length seen + length l)%nat.
Proof.
  induction l as [|y l IH]; intros seen; cbn [foldl length]; [lia|].
  etrans; [apply IH|]. unfold Js.add. case_bool_decide; [lia|].
  rewrite length_app. cbn. lia.
Qed.

(** X15. The report never lists more license names than the user has
    assignments: [licenseSkus.length <= licenseCount]. *)
Theorem getUserLicenseDetails_names_bound
    (licenseSkuMap : gmap string LicenseSku.t)
    (assignedLicenses : option (list AssignedLicense)) :
  let details := LicenseService.getUserLicenseDetails licenseSkuMap assignedLicenses in
  (length (licenseSkus details) <= licenseCount details)%nat.
Proof.
  destruct assignedLicenses as [[|a ls]|]; cbn zeta; [done | | done].
  rewrite getUserLicenseDetails_cons. cbn [licenseSkus licenseCount].
  rewrite sort_length. unfold Js.to_set.
  etrans; [apply to_set_from_length|]. by rewrite length_map.
Qed.

(** ** Building the catalog *)

Section catalog_facts.
Variable mapping : SkuMappingService.Mapping.
Variable client_get : nat -> Exn LicenseCatalog.SkusResponse.
Variable retryOptions : Retry.RetryOptions.

Lemma or_else_nonempty o dflt : dflt <> "" -> Js.or_else o dflt <> "".
Proof.
  intros Hd. unfold Js.or_else. destruct o as [s|]; [|done].
  destruct (String.eqb s "") eqn:Hs; [done|]. by apply String.eqb_neq in Hs.
Qed.

Lemma friendlyName_nonempty sku :
  LicenseCatalog.skuId sku <> "" -> LicenseCatalog.friendlyName mapping sku <> "".
Proof.
  intros Hid. unfold LicenseCatalog.friendlyName. by do 3 apply or_else_nonempty.
Qed.

Lemma cache_all_lookup skus : forall licenseSkuMap id,
  foldl (LicenseCatalog.cache mapping) licenseSkuMap skus !! id
  = match last (filter (fun sku => LicenseCatalog.skuId sku = id) skus) with
    | Some sku => Some (LicenseCatalog.entryOf mapping sku)
    | None => licenseSkuMap !! id
    end.
Proof.
  induction skus as [|sku skus IH] using rev_ind; intros licenseSkuMap id; [done|].
  rewrite foldl_app, filter_app. cbn [foldl]. unfold LicenseCatalog.cache at 1.
  rewrite filter_cons, filter_nil.
  destruct (decide (LicenseCatalog.skuId sku = id)) as [<-|Hne].
  - by rewrite lookup_insert_eq, last_snoc.
  - rewrite lookup_insert_ne, app_nil_r by done. apply IH.
Qed.

Lemma buildLicenseSkuMap_success licenseSkuMap skus :
  Retry.outcome (Retry.retryWithBackoff client_get retryOptions)
    = inr (LicenseCatalog.mkSkusResponse (Some skus)) ->
  LicenseCatalog.buildLicenseSkuMap mapping client_get retryOptions licenseSkuMap
  = foldl (LicenseCatalog.cache mapping) licenseSkuMap skus.
Proof. intros Hout. unfold LicenseCatalog.buildLicenseSkuMap. by rewrite Hout. Qed.

Lemma buildLicenseSkuMap_cases licenseSkuMap :
  LicenseCatalog.buildLicenseSkuMap mapping client_get retryOptions licenseSkuMap
    = licenseSkuMap
  \/ exists skus,
       LicenseCatalog.buildLicenseSkuMap mapping client_get retryOptions licenseSkuMap
       = foldl (LicenseCatalog.cache mapping) licenseSkuMap skus.
Proof.
  unfold LicenseCatalog.buildLicenseSkuMap.
  destruct (Retry.outcome _) as [e|[[skus|]]]; cbn; [by left | | by left].
  right. by exists skus.
Qed.

Lemma cache_all_entries skus id entry :
  foldl (LicenseCatalog.cache mapping) ∅ skus !! id = Some entry ->
  exists sku, sku ∈ skus /\ LicenseCatalog.skuId sku = id
              /\ entry = LicenseCatalog.entryOf mapping sku.
Proof.
  rewrite cache_all_lookup, lookup_empty.
  destruct (last _) as [sku|] eqn:Hlast; [|done].
  intros [= <-]. apply last_Some_elem_of, list_elem_of_filter in Hlast as [Hid Hin].
  by exists sku.
Qed.

End catalog_facts.

(** X16. When the listing of subscribed SKUs arrives, the cache holds for
    every identifier the entry of the last listed SKU with that
    identifier, and what it held before for an identifier that is not
    listed. *)
Theorem buildLicenseSkuMap_lookup
    (mapping : SkuMappingService.Mapping)
    (client_get : nat -> Exn LicenseCatalog.SkusResponse)
    (retryOptions : Retry.RetryOptions)
    (licenseSkuMap : gmap string LicenseSku.t)
    (skus : list LicenseCatalog.SubscribedSku) (id : string) :
  Retry.outcome (Retry.retryWithBackoff client_get retryOptions)
    = inr (LicenseCatalog.mkSkusResponse (Some skus)) ->
  LicenseCatalog.buildLicenseSkuMap mapping client_get retryOptions licenseSkuMap !! id
  = match last (filter (fun sku => LicenseCatalog.skuId sku = id) skus) with
    | Some sku => Some (LicenseCatalog.entryOf mapping sku)
    | None => licenseSkuMap !! id
    end.
Proof.
  intros Hout. rewrite buildLicenseSkuMap_success with (skus := skus) by done.
  apply cache_all_lookup.
Qed.

Lemma buildLicenseSkuMap_lookup_witness :
  LicenseCatalog.buildLicenseSkuMap LicenseCatalog.officeMapping
    (LicenseCatalog.listing [LicenseCatalog.enterprisePack; LicenseCatalog.premiumPack])
    Fixtures.threeAttempts ∅ !! "sku-1"
  = Some (LicenseSku.mk "sku-1" "ENTERPRISEPACK" "Office 365 E3"
            (LicenseCatalog.servicePlans LicenseCatalog.enterprisePack)).
Proof.
  rewrite (buildLicenseSkuMap_lookup LicenseCatalog.officeMapping
             (LicenseCatalog.listing [LicenseCatalog.enterprisePack; LicenseCatalog.premiumPack])
             Fixtures.threeAttempts ∅
             [LicenseCatalog.enterprisePack; LicenseCatalog.premiumPack] "sku-1" eq_refl).
  reflexivity.
Defined.

(** X17. When the listing of subscribed SKUs cannot be fetched, or
    arrives without [value], the error is swallowed and the cache is left
    empty; every user's report then shows the raw SKU identifiers of the
    assignments, sorted and without duplicates, and no service plan. *)
Theorem buildLicenseSkuMap_failure_shows_ids
    (mapping : SkuMappingService.Mapping)
    (client_get : nat -> Exn LicenseCatalog.SkusResponse)
    (retryOptions : Retry.RetryOptions)
    (licenses : list AssignedLicense) :
  (forall skus, Retry.outcome (Retry.retryWithBackoff client_get retryOptions)
                <> inr (LicenseCatalog.mkSkusResponse (Some skus))) ->
  let licenseSkuMap :=
    LicenseCatalog.buildLicenseSkuMap mapping client_get retryOptions ∅ in
  licenseSkuMap = ∅
  /\ LicenseService.getUserLicenseDetails licenseSkuMap (Some licenses)
     = mkLicenseDetails (Js.sort (Js.to_set (map skuId licenses))) (length licenses) [].
Proof.
  intros Hfail licenseSkuMap.
  assert (licenseSkuMap = ∅) as ->.
  { subst licenseSkuMap. unfold LicenseCatalog.buildLicenseSkuMap.
    destruct (Retry.outcome _) as [e|[[skus|]]]; cbn; [done | | done].
    by destruct (Hfail skus). }
  split; [done|].
  destruct licenses as [|a ls]; [done|].
  rewrite getUserLicenseDetails_cons.
  assert (map (LicenseService.licenseName ∅) (a :: ls) = map skuId (a :: ls)) as ->.
  { apply map_ext. intros b. unfold LicenseService.licenseName. by rewrite lookup_empty. }
  assert (forall l names, (foldl (LicenseService.visit ∅) (names, []) l).2 = []) as ->.
  { induction l as [|b l IH]; intros names; [done|]. cbn [foldl].
    unfold LicenseService.visit at 2. rewrite lookup_empty. apply IH. }
  reflexivity.
Qed.

Lemma buildLicenseSkuMap_failure_shows_ids_witness :
  LicenseService.getUserLicenseDetails
    (LicenseCatalog.buildLicenseSkuMap LicenseCatalog.officeMapping
       LicenseCatalog.failingListing Fixtures.threeAttempts ∅)
    (Some [mkAssignedLicense "sku-2" None; mkAssignedLicense "sku-1" None;
           mkAssignedLicense "sku-2" None])
  = mkLicenseDetails ["sku-1"; "sku-2"] 3 [].
Proof.
  apply (buildLicenseSkuMap_failure_shows_ids LicenseCatalog.officeMapping
           LicenseCatalog.failingListing Fixtures.threeAttempts
           [mkAssignedLicense "sku-2" None; mkAssignedLicense "sku-1" None;
            mkAssignedLicense "sku-2" None]).
  intros skus. vm_compute. discriminate.
Defined.

(** X18. No license name in a report is empty: with the cache built by
    [buildLicenseSkuMap] from an empty one, whatever the listing and the
    friendly-name tables were, every name in [licenseSkus] of a user whose
    assignments carry a SKU identifier is a non-empty string. *)
Theorem getUserLicenseDetails_names_nonempty
    (mapping : SkuMappingService.Mapping)
    (client_get : nat -> Exn LicenseCatalog.SkusResponse)
    (retryOptions : Retry.RetryOptions)
    (assignedLicenses : option (list AssignedLicense)) :
  (forall a, a ∈ default [] assignedLicenses -> skuId a <> "") ->
  let licenseSkuMap :=
    LicenseCatalog.buildLicenseSkuMap mapping client_get retryOptions ∅ in
  forall name,
    name ∈ licenseSkus (LicenseService.getUserLicenseDetails licenseSkuMap assignedLicenses) ->
    name <> "".
Proof.
  intros Hids licenseSkuMap name.
  destruct assignedLicenses as [[|a ls]|]; [by intros ?%elem_of_nil | | by intros ?%elem_of_nil].
  rewrite getUserLicenseDetails_cons. cbn [licenseSkus default] in *.
  rewrite sort_elem_of, to_set_elem_of, list_elem_of_fmap.
  intros (b & -> & Hb). specialize (Hids b Hb).
  unfold LicenseService.licenseName.
  destruct (licenseSkuMap !! skuId b) as [entry|] eqn:Hentry; [|done].
  subst licenseSkuMap.
  destruct (buildLicenseSkuMap_cases mapping client_get retryOptions ∅) as [Heq|[skus Heq]];
    rewrite Heq in Hentry.
  - by rewrite lookup_empty in Hentry.
  - apply cache_all_entries in Hentry as (sku & _ & Hid & ->).
    cbn. apply friendlyName_nonempty. by rewrite Hid.
Qed.

Lemma getUserLicenseDetails_names_nonempty_witness :
  "Office 365 E3" <> "".
Proof.
  apply (getUserLicenseDetails_names_nonempty LicenseCatalog.officeMapping
           (LicenseCatalog.listing [LicenseCatalog.enterprisePack])
           Fixtures.threeAttempts (Some [mkAssignedLicense "sku-1" None])).
  - intros a ->%list_elem_of_singleton. discriminate.
  - vm_compute. left.
Defined.

(** X19. [checkPremiumSubscription] never fails. It answers [true]
    exactly when the listing arrives and one of the listed SKUs has a
    service plan named "AAD_PREMIUM"; a failed request, or a listing
    without [value], gives [false]. *)
Theorem checkPremiumSubscription_spec
    (client_get : nat -> Exn LicenseCatalog.SkusResponse)
    (retryOptions : Retry.RetryOptions) :
  exists hasPremium,
    LicenseCatalog.checkPremiumSubscription client_get retryOptions = ret hasPremium
    /\ (hasPremium = true <->
        exists skus sku plan,
          Retry.outcome (Retry.retryWithBackoff client_get retryOptions)
            = inr (LicenseCatalog.mkSkusResponse (Some skus))
          /\ sku ∈ skus /\ plan ∈ LicenseCatalog.servicePlans sku
          /\ servicePlanName plan = "AAD_PREMIUM").
Proof.
  unfold LicenseCatalog.checkPremiumSubscription.
  destruct (Retry.outcome _) as [e|[[skus|]]]; cbn.
  - exists false. split; [done|]. split; [done|]. by intros (? & ? & ? & ? & _).
  - eexists. split; [reflexivity|]. rewrite existsb_exists. split.
    + intros (sku & Hsku & (plan & Hplan & Hname%String.eqb_eq)%existsb_exists).
      exists skus, sku, plan. by rewrite <- !list_elem_of_In in *.
    + intros (skus' & sku & plan & [= <-] & Hsku & Hplan & Hname).
      exists sku. rewrite <- list_elem_of_In. split; [done|].
      apply existsb_exists. exists plan. rewrite <- list_elem_of_In.
      split; [done|]. by apply String.eqb_eq.
  - exists false. split; [done|]. split; [done|]. by intros (? & ? & ? & ? & _).
Qed.

(** ** The counters during the fan-out *)

Lemma length_filter_ne (i : nat) (l : list nat) :
  NoDup l -> i ∈ l -> S (length (filter (fun j => j <> i) l)) = length l.
Proof.
  intros Hnd Hi. induction Hnd as [|j l Hj Hnd IH]; [by apply elem_of_nil in Hi|].
  rewrite filter_cons. apply elem_of_cons in Hi as [<-|Hi].
  - rewrite decide_False by tauto. cbn. f_equal.
    clear IH. induction l as [|j l IH]; [done|].
    apply not_elem_of_cons in Hj as [Hne Hj].
    rewrite filter_cons, decide_True by done. cbn. f_equal.
    apply IH; [done|]. by apply NoDup_cons_1_2 in Hnd.
  - rewrite decide_True by (intros ->; done). cbn. f_equal. by apply IH.
Qed.

Section accounting.
Variable services : UserProcessor.Services.
Variable maxConcurrency : Z.
Variable users : list GraphUser.t.
Variable hasPremium : bool.
Variable now : Z.

Lemma step_accounted a started s s' :
  UserProcessor.Invariant services maxConcurrency users hasPremium now started s ->
  UserProcessor.step services users hasPremium a s = Some s' ->
  (processed (UserProcessor.stats s') + errors (UserProcessor.stats s')
   + length (PLimit.running (UserProcessor.limiter s'))
   + length (PLimit.queue (UserProcessor.limiter s')))%nat
  = (processed (UserProcessor.stats s) + errors (UserProcessor.stats s)
   + length (PLimit.running (UserProcessor.limiter s))
   + length (PLimit.queue (UserProcessor.limiter s)))%nat.
Proof.
  intros Hinv Hstep.
  destruct a as [|i]; cbn in Hstep.
  - unfold PLimit.next in Hstep.
    destruct (PLimit.queue (UserProcessor.limiter s)) as [|job rest] eqn:Hqueue; [done|].
    destruct (_ <? _); [|done]. injection Hstep as <-.
    cbn. rewrite length_app. cbn. lia.
  - case_bool_decide as Hi; [|done].
    destruct (users !! i) as [user|]; [|done].
    rewrite processUser_effect in Hstep. injection Hstep as <-.
    pose proof (length_filter_ne i _ (UserProcessor.inv_running_NoDup _ _ _ _ _ _ _ Hinv) Hi).
    cbn. destruct (UserProcessor.recordOf services user hasPremium); lia.
Qed.

Lemma run_accounted schedule : forall started s s',
  UserProcessor.Invariant services maxConcurrency users hasPremium now started s ->
  UserProcessor.run services users hasPremium schedule s = Some s' ->
  (processed (UserProcessor.stats s') + errors (UserProcessor.stats s')
   + length (PLimit.running (UserProcessor.limiter s'))
   + length (PLimit.queue (UserProcessor.limiter s')))%nat
  = (processed (UserProcessor.stats s) + errors (UserProcessor.stats s)
   + length (PLimit.running (UserProcessor.limiter s))
   + length (PLimit.queue (UserProcessor.limiter s)))%nat.
Proof.
  induction schedule as [|a schedule IH]; intros started s s' Hinv Hrun; cbn in Hrun.
  - by injection Hrun as <-.
  - destruct (UserProcessor.step services users hasPremium a s) as [s1|] eqn:Hstep; [|done].
    destruct (step_invariant _ _ _ _ _ a started s s1 Hinv Hstep) as [[started1 Hinv1] _].
    rewrite (IH started1 s1 s' Hinv1 Hrun). by eapply step_accounted.
Qed.

End accounting.

(** X20. At every point of the fan-out the counters add up: the users
    counted as processed, those counted as errors, those whose
    [processUser] is running and those still queued are together all the
    users, and [totalUsers] is their number. *)
Theorem processAllUsers_accounting
    (services : UserProcessor.Services) (maxConcurrency : Z)
    (users : list GraphUser.t) (hasPremium : bool) (now : Z)
    (schedule : list UserProcessor.Action) (s : UserProcessor.State) :
  UserProcessor.run services users hasPremium schedule
    (UserProcessor.start maxConcurrency users now) = Some s ->
  (processed (UserProcessor.stats s) + errors (UserProcessor.stats s)
   + length (PLimit.running (UserProcessor.limiter s))
   + length (PLimit.queue (UserProcessor.limiter s)) = length users)%nat
  /\ totalUsers (UserProcessor.stats s) = length users.
Proof.
  intros Hrun.
  pose proof (start_invariant services maxConcurrency users hasPremium now) as Hstart.
  split.
  - pose proof (run_accounted _ _ _ _ _ _ _ _ _ Hstart Hrun) as Hacc.
    rewrite Hacc, start_limiter. cbn. by rewrite length_seq.
  - destruct (run_invariant _ _ _ _ _ _ _ _ _ Hstart Hrun) as [started Hinv].
    apply Hinv.
Qed.

Lemma processAllUsers_accounting_witness :
  exists s,
    UserProcessor.run Fixtures.janeFails Fixtures.team true
      [UserProcessor.Start; UserProcessor.Start; UserProcessor.Settle 1]
      (UserProcessor.start 2 Fixtures.team 1700000000) = Some s
    /\ (processed (UserProcessor.stats s) + errors (UserProcessor.stats s)
        + length (PLimit.running (UserProcessor.limiter s))
        + length (PLimit.queue (UserProcessor.limiter s)) = 3)%nat.
Proof.
  destruct (UserProcessor.run Fixtures.janeFails Fixtures.team true
              [UserProcessor.Start; UserProcessor.Start; UserProcessor.Settle 1]
              (UserProcessor.start 2 Fixtures.team 1700000000)) as [s|] eqn:Hrun.
  - exists s. split; [reflexivity|].
    exact (proj1 (processAllUsers_accounting Fixtures.janeFails 2 Fixtures.team true
                    1700000000 _ s Hrun)).
  - vm_compute in Hrun. discriminate Hrun.
Defined.

(** ** The rows of the report *)

Lemma buildRecord_ID services user hasPremium record :
  UserProcessor.buildRecord services user hasPremium = inr record ->
  ID record = GraphUser.id user.
Proof.
  unfold UserProcessor.buildRecord, bind.
  destruct (UserProcessor.Promise_all2 _ _) as [e|both]; [done|].
  by intros [= <-].
Qed.

Lemma recordOf_IDs services hasPremium (users : list GraphUser.t) :
  map ID (omap (fun user => UserProcessor.recordOf services user hasPremium) users)
  = map GraphUser.id
      (List.filter (fun user => negb (UserProcessor.fails services user hasPremium)) users).
Proof.
  induction users as [|user users IH]; [done|].
  rewrite omap_cons_eq. cbn [List.filter].
  unfold UserProcessor.fails, UserProcessor.recordOf at 1.
  destruct (UserProcessor.buildRecord services user hasPremium) as [e|record] eqn:Hrecord;
    cbn [raises negb map].
  - apply IH.
  - cbn. rewrite (buildRecord_ID _ _ _ _ Hrecord). f_equal. apply IH.
Qed.

(** X21. The [ID] column of the rows that [processAllUsers] returns is
    the list of the identifiers of the users whose lookups all resolve, in
    the order of the input. *)
Theorem processAllUsers_ids
    (services : UserProcessor.Services) (maxConcurrency : Z)
    (users : list GraphUser.t) (hasPremium : bool) (now : Z)
    (schedule : list UserProcessor.Action)
    (out : list ProcessedUserRecord) (st : ProcessingStats) :
  UserProcessor.processAllUsers services maxConcurrency users hasPremium now schedule
  = Some (ret (out, st)) ->
  map ID out
  = map GraphUser.id
      (List.filter (fun user => negb (UserProcessor.fails services user hasPremium)) users).
Proof.
  intros (-> & _)%processAllUsers_result. apply recordOf_IDs.
Qed.

Lemma processAllUsers_ids_witness :
  exists out st,
    UserProcessor.processAllUsers Fixtures.janeFails 2 Fixtures.team true 1700000000
      Fixtures.outOfOrder = Some (ret (out, st))
    /\ map ID out = [GraphUser.id Fixtures.john; GraphUser.id Fixtures.ghost].
Proof.
  destruct (UserProcessor.processAllUsers Fixtures.janeFails 2 Fixtures.team true 1700000000
              Fixtures.outOfOrder) as [[error|[out st]]|] eqn:Hrun.
  - vm_compute in Hrun. discriminate Hrun.
  - exists out, st. split; [reflexivity|].
    exact (processAllUsers_ids Fixtures.janeFails 2 Fixtures.team true 1700000000
             Fixtures.outOfOrder out st Hrun).
  - vm_compute in Hrun. discriminate Hrun.
Defined.

Lemma filter_none {A} (f : A -> bool) (l : list A) :
  (forall x, f x = false) -> List.filter f l = [].
Proof.
  intros Hf. induction l as [|x l IH]; [done|]. cbn. by rewrite Hf.
Qed.

Lemma filter_all {A} (f : A -> bool) (l : list A) :
  (forall x, f x = true) -> List.filter f l = l.
Proof.
  intros Hf. induction l as [|x l IH]; [done|]. cbn. by rewrite Hf, IH.
Qed.

(** X22. With the services as [main] wires them, no user is ever left out
    of the report: whatever the batch endpoint and the membership lookup
    answer, [processAllUsers] returns one row per user, in input order,
    and ends with [errors = 0] and [processed = totalUsers]. *)
Theorem processAllUsers_repository_services
    (client_post : BatchRequest -> nat -> Exn BatchResponse)
    (client_get : string -> nat -> Exn GroupService.MemberOfResponse)
    (retryOptions : Retry.RetryOptions)
    (licenseSkuMap : gmap string LicenseSku.t)
    (maxConcurrency : Z) (users : list GraphUser.t) (hasPremium : bool) (now : Z)
    (schedule : list UserProcessor.Action)
    (out : list ProcessedUserRecord) (st : ProcessingStats) :
  UserProcessor.processAllUsers
    (repositoryServices client_post client_get retryOptions licenseSkuMap)
    maxConcurrency users hasPremium now schedule
  = Some (ret (out, st)) ->
  map ID out = map GraphUser.id users
  /\ st = mkStats (length users) (length users) 0 (Some now).
Proof.
  intros Hrun.
  destruct (processAllUsers_result _ _ _ _ _ _ _ _ Hrun) as (Hout & Hst & _).
  assert (map ID out = map GraphUser.id users) as Hids.
  { rewrite Hout, recordOf_IDs, filter_all; [done|].
    intros user. by rewrite repositoryServices_never_fail. }
  split; [done|].
  rewrite Hst, filter_none by (intros user; apply repositoryServices_never_fail).
  apply (f_equal length) in Hids. rewrite !length_map in Hids. by rewrite Hids.
Qed.

Lemma processAllUsers_repository_services_witness :
  exists out st,
    UserProcessor.processAllUsers
      (repositoryServices Fixtures.failingPost Fixtures.failingGet Fixtures.threeAttempts
         Fixtures.enterpriseCatalog)
      2 Fixtures.team true 1700000000 Fixtures.outOfOrder = Some (ret (out, st))
    /\ map ID out = ["12345678"; "87654321"; "00000000"]
    /\ st = mkStats 3 3 0 (Some 1700000000).
Proof.
  destruct (UserProcessor.processAllUsers
              (repositoryServices Fixtures.failingPost Fixtures.failingGet
                 Fixtures.threeAttempts Fixtures.enterpriseCatalog)
              2 Fixtures.team true 1700000000 Fixtures.outOfOrder) as [[error|[out st]]|] eqn:Hrun.
  - vm_compute in Hrun. discriminate Hrun.
  - exists out, st. split; [reflexivity|].
    exact (processAllUsers_repository_services Fixtures.failingPost Fixtures.failingGet
             Fixtures.threeAttempts Fixtures.enterpriseCatalog 2 Fixtures.team true
             1700000000 Fixtures.outOfOrder out st Hrun).
  - vm_compute in Hrun. discriminate Hrun.
Defined.

(** X23. When the subscription check cannot read the listing of
    subscribed SKUs it answers [false], and the report built with that
    answer shows "No Microsoft Entra ID Premium license" as the last
    sign-in of every user, whatever sign-in activity the users carry. *)
Theorem checkPremiumSubscription_failure_hides_sign_ins
    (client_get : nat -> Exn LicenseCatalog.SkusResponse)
    (retryOptions : Retry.RetryOptions)
    (services : UserProcessor.Services) (maxConcurrency : Z)
    (users : list GraphUser.t) (now : Z)
    (schedule : list UserProcessor.Action)
    (hasPremium : bool) (out : list ProcessedUserRecord) (st : ProcessingStats) :
  (forall skus, Retry.outcome (Retry.retryWithBackoff client_get retryOptions)
                <> inr (LicenseCatalog.mkSkusResponse (Some skus))) ->
  LicenseCatalog.checkPremiumSubscription client_get retryOptions = ret hasPremium ->
  UserProcessor.processAllUsers services maxConcurrency users hasPremium now schedule
  = Some (ret (out, st)) ->
  hasPremium = false
  /\ Forall (fun record =>
               Last_successful_sign_in record = "No Microsoft Entra ID Premium license") out.
Proof.
  intros Hfail Hcheck Hrun.
  assert (hasPremium = false) as ->.
  { unfold LicenseCatalog.checkPremiumSubscription in Hcheck.
    destruct (Retry.outcome _) as [e|[[skus|]]]; cbn in Hcheck.
    - by injection Hcheck as <-.
    - by destruct (Hfail skus).
    - by injection Hcheck as <-. }
  split; [done|].
  apply processAllUsers_result in Hrun as (-> & _).
  apply Forall_forall. intros record (user & _ & Hrecord)%list_elem_of_omap.
  apply recordOf_Some, buildRecord_derived in Hrecord as [_ ->].
  apply lastSignIn_no_premium.
Qed.

Lemma checkPremiumSubscription_failure_hides_sign_ins_witness :
  exists out st,
    UserProcessor.processAllUsers Fixtures.janeFails 2 Fixtures.team false 1700000000
      Fixtures.outOfOrder = Some (ret (out, st))
    /\ Forall (fun record =>
                 Last_successful_sign_in record = "No Microsoft Entra ID Premium license") out.
Proof.
  destruct (UserProcessor.processAllUsers Fixtures.janeFails 2 Fixtures.team false 1700000000
              Fixtures.outOfOrder) as [[error|[out st]]|] eqn:Hrun.
  - vm_compute in Hrun. discriminate Hrun.
  - exists out, st. split; [reflexivity|].
    refine (proj2 (checkPremiumSubscription_failure_hides_sign_ins
                     LicenseCatalog.failingListing Fixtures.threeAttempts
                     Fixtures.janeFails 2 Fixtures.team 1700000000 Fixtures.outOfOrder
                     false out st _ eq_refl Hrun)).
    intros skus. vm_compute. discriminate.
  - vm_compute in Hrun. discriminate Hrun.
Defined.

(** ** Reading the users page by page *)








Section listing_facts.
Variable client_get : string -> nat -> Exn UserService.UsersResponse.
Variable retryOptions : Retry.RetryOptions.

Lemma getAllUsers_loop_end fuel nextLink users :
  Js.truthy nextLink = false ->
  UserService.getAllUsers_loop client_get retryOptions fuel nextLink users
  = Some (ret users).
Proof.
  intros Hend. destruct nextLink as [link|]; destruct fuel; cbn [UserService.getAllUsers_loop];
    by rewrite ?Hend.
Qed.

Lemma getAllUsers_loop_listing nextLink pages failure :
  UserService.Listing client_get retryOptions nextLink pages failure ->
  forall fuel users,
    (length pages < fuel)%nat ->
    UserService.getAllUsers_loop client_get retryOptions fuel nextLink users
    = Some match failure with
           | None => ret (users ++ concat pages)
           | Some error => throw error
           end.
Proof.
  induction 1 as [nextLink Hend | link error Hlink Hout
                 | link response pages failure Hlink Hout Hrest IH];
    intros fuel users Hfuel.
  - rewrite getAllUsers_loop_end by done. cbn. by rewrite app_nil_r.
  - destruct fuel as [|fuel]; [cbn in Hfuel; lia|].
    cbn [UserService.getAllUsers_loop]. by rewrite Hlink, Hout.
  - destruct fuel as [|fuel]; [cbn in Hfuel; lia|].
    cbn [UserService.getAllUsers_loop]. rewrite Hlink, Hout.
    rewrite IH by (cbn in Hfuel; lia).
    destruct failure; [done|]. cbn [concat]. by rewrite <- app_assoc.
Qed.

Lemma getAllUsers_loop_returns fuel : forall nextLink users result,
  UserService.getAllUsers_loop client_get retryOptions fuel nextLink users = Some result ->
  exists pages failure,
    UserService.Listing client_get retryOptions nextLink pages failure
    /\ (length pages <= fuel)%nat.
Proof.
  induction fuel as [|fuel IH]; intros nextLink users result Hloop.
  - exists [], None. split; [|done]. apply UserService.listing_end.
    destruct nextLink as [link|]; [|done]. cbn [UserService.getAllUsers_loop] in Hloop.
    by destruct (Js.truthy (Some link)).
  - destruct nextLink as [link|]; [|exists [], None; split; [by constructor | cbn; lia]].
    cbn [UserService.getAllUsers_loop] in Hloop.
    destruct (Js.truthy (Some link)) eqn:Hlink;
      [|exists [], None; split; [by constructor | cbn; lia]].
    destruct (Retry.outcome _) as [error|response] eqn:Hout.
    + exists [], (Some error). split; [by constructor | cbn; lia].
    + destruct (IH _ _ _ Hloop) as (pages & failure & Hlisting & Hlen).
      exists (UserService.value response :: pages), failure.
      split; [by eapply UserService.listing_page | cbn; lia].
Qed.

End listing_facts.

(** X25. [getAllUsers] returns the users of all the pages, in the order
    of the pages, when the service hands out finitely many pages and every
    request succeeds; when a request fails for good, the error is thrown
    again and the users read so far are dropped. It returns at all only
    over such a finite listing. *)
Theorem getAllUsers_pages
    (client_get : string -> nat -> Exn UserService.UsersResponse)
    (retryOptions : Retry.RetryOptions) (hasPremium : bool) :
  (forall pages failure fuel,
     UserService.Listing client_get retryOptions
       (Some (UserService.firstLink hasPremium)) pages failure ->
     (length pages < fuel)%nat ->
     UserService.getAllUsers client_get retryOptions fuel hasPremium
     = Some match failure with
            | None => ret (concat pages)
            | Some error => throw error
            end)
  /\ (forall fuel result,
        UserService.getAllUsers client_get retryOptions fuel hasPremium = Some result ->
        exists pages failure,
          UserService.Listing client_get retryOptions
            (Some (UserService.firstLink hasPremium)) pages failure
          /\ (length pages <= fuel)%nat).
Proof.
  split.
  - intros pages failure fuel Hlisting Hfuel. unfold UserService.getAllUsers.
    by rewrite (getAllUsers_loop_listing _ _ _ _ _ Hlisting).
  - intros fuel result. apply getAllUsers_loop_returns.
Qed.

Lemma getAllUsers_pages_witness :
  UserService.getAllUsers
    (UserService.twoPages [Fixtures.john] [Fixtures.jane; Fixtures.ghost])
    Fixtures.threeAttempts 5 true
  = Some (ret [Fixtures.john; Fixtures.jane; Fixtures.ghost]).
Proof.
  apply (proj1 (getAllUsers_pages
                  (UserService.twoPages [Fixtures.john] [Fixtures.jane; Fixtures.ghost])
                  Fixtures.threeAttempts true)
           [[Fixtures.john]; [Fixtures.jane; Fixtures.ghost]] None 5%nat).
  - apply (UserService.listing_page _ _ (UserService.firstLink true)
             (UserService.mkUsersResponse [Fixtures.john]
                (Some ("https://graph.microsoft.com/v1.0" +:+ UserService.secondPage)))
             [[Fixtures.jane; Fixtures.ghost]] None); [reflexivity | reflexivity |].
    apply (UserService.listing_page _ _ UserService.secondPage
             (UserService.mkUsersResponse [Fixtures.jane; Fixtures.ghost] None)
             [] None); [reflexivity | reflexivity |].
    apply UserService.listing_end. reflexivity.
  - cbn. lia.
Defined.

(** X26. When a page's next link leads back to the page itself,
    [getAllUsers] never returns: the loop asks for the same page again
    and again, however many turns it is given. *)
Theorem getAllUsers_circular
    (client_get : string -> nat -> Exn UserService.UsersResponse)
    (retryOptions : Retry.RetryOptions)
    (link : string) (response : UserService.UsersResponse) :
  Js.truthy (Some link) = true ->
  Retry.outcome (Retry.retryWithBackoff (client_get link) retryOptions) = inr response ->
  UserService.nextLinkOf response = Some link ->
  forall fuel users,
    UserService.getAllUsers_loop client_get retryOptions fuel (Some link) users = None.
Proof.
  intros Hlink Hout Hnext fuel.
  induction fuel as [|fuel IH]; intros users; cbn [UserService.getAllUsers_loop];
    rewrite Hlink; [done|].
  rewrite Hout, Hnext. apply IH.
Qed.

Lemma getAllUsers_circular_witness :
  UserService.getAllUsers (UserService.circular [Fixtures.john]) Fixtures.threeAttempts
    1000 false = None.
Proof.
  apply (getAllUsers_circular (UserService.circular [Fixtures.john]) Fixtures.threeAttempts
           (UserService.firstLink false)
           (UserService.mkUsersResponse [Fixtures.john]
              (Some ("https://graph.microsoft.com/v1.0" +:+ UserService.firstLink false))));
    reflexivity.
Defined.

(** X27. From the listing to the report, as [main] chains them: when the
    listing of users comes in completely, the rows that [processAllUsers]
    returns over the repository's services are, by their [ID], the users
    of all pages in the order of the pages, one row for each. *)
Theorem report_covers_listing
    (client_get_users : string -> nat -> Exn UserService.UsersResponse)
    (client_post : BatchRequest -> nat -> Exn BatchResponse)
    (client_get : string -> nat -> Exn GroupService.MemberOfResponse)
    (retryOptions : Retry.RetryOptions)
    (licenseSkuMap : gmap string LicenseSku.t)
    (maxConcurrency : Z) (hasPremium : bool) (now : Z)
    (pages : list (list GraphUser.t)) (fuel : nat)
    (schedule : list UserProcessor.Action) :
  UserService.Listing client_get_users retryOptions
    (Some (UserService.firstLink hasPremium)) pages None ->
  (length pages < fuel)%nat ->
  exists users,
    UserService.getAllUsers client_get_users retryOptions fuel hasPremium = Some (ret users)
    /\ users = concat pages
    /\ forall out st,
         UserProcessor.processAllUsers
           (repositoryServices client_post client_get retryOptions licenseSkuMap)
           maxConcurrency users hasPremium now schedule = Some (ret (out, st)) ->
         map ID out = map GraphUser.id (concat pages)
         /\ processed st = length (concat pages)
         /\ errors st = 0%nat.
Proof.
  intros Hlisting Hfuel. exists (concat pages).
  split; [|split; [done|]].
  - unfold UserService.getAllUsers.
    by rewrite (getAllUsers_loop_listing _ _ _ _ _ Hlisting).
  - intros out st Hrun.
    destruct (processAllUsers_result _ _ _ _ _ _ _ _ Hrun) as (Hout & Hst & _).
    assert (map ID out = map GraphUser.id (concat pages)) as Hids.
    { rewrite Hout, recordOf_IDs, filter_all; [done|].
      intros user. by rewrite repositoryServices_never_fail. }
    split; [done|].
    rewrite Hst, filter_none by (intros user; apply repositoryServices_never_fail).
    apply (f_equal length) in Hids. rewrite !length_map in Hids. by rewrite Hids.
Qed.

Lemma report_covers_listing_witness :
  exists users,
    UserService.getAllUsers
      (UserService.twoPages [Fixtures.john] [Fixtures.jane; Fixtures.ghost])
      Fixtures.threeAttempts 5 true = Some (ret users)
    /\ users = [Fixtures.john; Fixtures.jane; Fixtures.ghost].
Proof.
  destruct (report_covers_listing
              (UserService.twoPages [Fixtures.john] [Fixtures.jane; Fixtures.ghost])
              Fixtures.failingPost Fixtures.failingGet Fixtures.threeAttempts
              Fixtures.enterpriseCatalog 2 true 1700000000
              [[Fixtures.john]; [Fixtures.jane; Fixtures.ghost]] 5 Fixtures.outOfOrder)
    as (users & Hget & Husers & _).
  - apply (UserService.listing_page _ _ (UserService.firstLink true)
             (UserService.mkUsersResponse [Fixtures.john]
                (Some ("https://graph.microsoft.com/v1.0" +:+ UserService.secondPage)))
             [[Fixtures.jane; Fixtures.ghost]] None); [reflexivity | reflexivity |].
    apply (UserService.listing_page _ _ UserService.secondPage
             (UserService.mkUsersResponse [Fixtures.jane; Fixtures.ghost] None)
             [] None); [reflexivity | reflexivity |].
    apply UserService.listing_end. reflexivity.
  - cbn. lia.
  - exists users. split; [exact Hget | exact Husers].
Defined.

Example getAllUsers_second_page_fails :
  UserService.getAllUsers (UserService.brokenSecondPage [Fixtures.john])
    Fixtures.threeAttempts 5 true
  = Some (throw (mkError (Some 500) (Some "Server Error"))).
Proof. vm_compute. reflexivity. Qed.

(** ** Tenants *)

Lemma visit_tenants orgs : forall tenants,
  foldl TenantService.visit tenants orgs
  = tenants ++ flat_map (TenantService.visit []) orgs.
Proof.
  induction orgs as [|org orgs IH]; intros tenants; cbn [foldl flat_map].
  - by rewrite app_nil_r.
  - rewrite IH, app_assoc. f_equal.
Qed.

Lemma or_else_cases o dflt :
  Js.or_else o dflt = dflt \/ (o = Some (Js.or_else o dflt) /\ Js.or_else o dflt <> "").
Proof.
  unfold Js.or_else. destruct o as [s|]; [|by left].
  destruct (String.eqb s "") eqn:Hs; [by left|]. right.
  split; [done|]. by apply String.eqb_neq.
Qed.

Lemma or_else_truthy s dflt : s <> "" -> Js.or_else (Some s) dflt = s.
Proof. intros Hs. unfold Js.or_else. by apply String.eqb_neq in Hs as ->. Qed.

(** X28. [getAvailableTenants] gives one tenant for each organization of
    the listing, in order, with the organization's [id] and [tenantType],
    and with a name and a default domain that are never empty; a listing
    without [value] gives no tenant; and when the request fails, the error
    thrown is always the same fixed one, whatever the cause was. *)
Theorem getAvailableTenants_spec (client_get : Exn TenantService.OrganizationsResponse) :
  (forall error,
     client_get = inl error ->
     TenantService.getAvailableTenants client_get
     = throw (TenantService.Error
                "Unable to fetch available tenants. Make sure you have the necessary permissions."))
  /\ (client_get = inr (TenantService.mkOrganizationsResponse None) ->
      TenantService.getAvailableTenants client_get = ret [])
  /\ (forall organizations,
        client_get = inr (TenantService.mkOrganizationsResponse (Some organizations)) ->
        exists tenants,
          TenantService.getAvailableTenants client_get = ret tenants
          /\ map TenantService.tenant_id tenants = map TenantService.id organizations
          /\ map TenantService.tenant_tenantType tenants
             = map TenantService.tenantType organizations
          /\ Forall (fun tenant =>
                       TenantService.tenant_displayName tenant <> ""
                       /\ TenantService.defaultDomain tenant <> "") tenants).
Proof.
  split; [|split].
  - by intros error ->.
  - by intros ->.
  - intros organizations ->.
    exists (flat_map (TenantService.visit []) organizations). split.
    { unfold TenantService.getAvailableTenants.
      cbn [try_catch bind ret TenantService.value]. by rewrite visit_tenants. }
    induction organizations as [|org organizations (IHid & IHtype & IHnames)];
      [by repeat split|].
    cbn [flat_map map app TenantService.visit].
    cbn [TenantService.tenant_id TenantService.tenant_tenantType].
    split; [by f_equal|]. split; [by f_equal|].
    constructor; [|done].
    cbn [TenantService.tenant_displayName TenantService.defaultDomain].
    split; [by apply or_else_nonempty|]. by do 2 apply or_else_nonempty.
Qed.

Lemma getAvailableTenants_spec_witness :
  exists tenants,
    TenantService.getAvailableTenants
      (inr (TenantService.mkOrganizationsResponse
              (Some [TenantService.contoso; TenantService.bare])))
    = ret tenants
    /\ map TenantService.tenant_id tenants = ["tenant-1"; "tenant-2"]
    /\ map TenantService.tenant_tenantType tenants = [Some "AAD"; None]
    /\ Forall (fun tenant =>
                 TenantService.tenant_displayName tenant <> ""
                 /\ TenantService.defaultDomain tenant <> "") tenants.
Proof.
  apply (proj2 (proj2 (getAvailableTenants_spec
                         (inr (TenantService.mkOrganizationsResponse
                                 (Some [TenantService.contoso; TenantService.bare])))))
           [TenantService.contoso; TenantService.bare] eq_refl).
Defined.

(** X29. [getTenantById] never fails: a failed request and an empty
    response both give [null]. For an organization it gives a tenant whose
    default domain is the name of the first verified domain marked as
    default when that name is not empty, and in every case is either
    "unknown" or the name of one of the organization's verified domains. *)
Theorem getTenantById_spec
    (client_get_one : string -> Exn (option TenantService.Organization))
    (tenantId : string) :
  exists result,
    TenantService.getTenantById client_get_one tenantId = ret result
    /\ (forall org,
          client_get_one ("/organization/" +:+ tenantId) = inr (Some org) ->
          exists tenant,
            result = Some tenant
            /\ TenantService.tenant_id tenant = TenantService.id org
            /\ (TenantService.defaultDomain tenant = "unknown"
                \/ exists domains domain,
                     TenantService.verifiedDomains org = Some domains
                     /\ domain ∈ domains
                     /\ TenantService.name domain = Some (TenantService.defaultDomain tenant))
            /\ (forall domains domain name,
                  TenantService.verifiedDomains org = Some domains ->
                  List.find (fun domain => default false (TenantService.isDefault domain))
                    domains = Some domain ->
                  TenantService.name domain = Some name -> name <> "" ->
                  TenantService.defaultDomain tenant = name))
    /\ ((forall org, client_get_one ("/organization/" +:+ tenantId) <> inr (Some org)) ->
        result = None).
Proof.
  unfold TenantService.getTenantById.
  destruct (client_get_one ("/organization/" +:+ tenantId)) as [error|[org|]]; cbn.
  - exists None. split; [done|]. split; [by intros org [=]|done].
  - eexists. split; [reflexivity|]. split; [|by intros Hnone; destruct (Hnone org)].
    intros ? [= <-]. eexists. split; [reflexivity|].
    cbn [TenantService.tenant_id TenantService.defaultDomain]. split; [done|]. split.
    + destruct (TenantService.verifiedDomains org) as [domains|] eqn:Hdomains; cbn; [|by left].
      match goal with |- context [Js.or_else ?o ?d] =>
        destruct (or_else_cases o d) as [-> | [Hfound _]] end.
      * match goal with |- context [Js.or_else ?o ?d] =>
          destruct (or_else_cases o d) as [-> | [Hfirst _]] end; [by left|].
        right. destruct (domains !! 0%nat) as [domain|] eqn:Hdomain; [|done].
        exists domains, domain. split; [done|]. split; [|done].
        by eapply list_elem_of_lookup_2.
      * right. destruct (List.find _ domains) as [domain|] eqn:Hfind; [|done].
        exists domains, domain. split; [done|]. split; [|done].
        apply list_elem_of_In. by eapply find_some.
    + intros domains domain name Hdomains Hfind Hname Hne.
      rewrite Hdomains. cbn. rewrite Hfind. cbn. rewrite Hname.
      by apply or_else_truthy.
  - exists None. split; [done|]. split; [by intros org [=]|done].
Qed.

Lemma getTenantById_spec_witness :
  exists tenant,
    TenantService.getTenantById (fun path => inr (Some TenantService.contoso)) "tenant-1"
    = ret (Some tenant)
    /\ TenantService.defaultDomain tenant = "contoso.com".
Proof.
  destruct (getTenantById_spec (fun path => inr (Some TenantService.contoso)) "tenant-1")
    as (result & Hget & Hfound & _).
  destruct (Hfound TenantService.contoso eq_refl) as (tenant & -> & _ & _ & Hdefault).
  exists tenant. split; [exact Hget|].
  apply (Hdefault _ (TenantService.mkVerifiedDomain (Some true) (Some "contoso.com"))
           "contoso.com" eq_refl eq_refl eq_refl).
  discriminate.
Defined.

(** ** The friendly-name tables *)

Section tables_facts.
Variable trim : string -> string.
Variable toLowerCase : string -> string.

(** Whether the loop stores the name of a row under [key]. *)
Let stores (key name : string) (seen : list string) : bool :=
  negb (bool_decide (key ∈ seen)) && Js.truthy (Some key) && Js.truthy (Some name).

Lemma visitLine_row tables seenStringIds seenGuids rawLine :
  SkuMappingService.visitLine trim toLowerCase (tables, seenStringIds, seenGuids) rawLine
  = match SkuMappingService.rowOf trim toLowerCase rawLine with
    | None => (tables, seenStringIds, seenGuids)
    | Some (name, stringId, guid) =>
        (SkuMappingService.mkMapping
           (if stores stringId name seenStringIds
            then <[ stringId := name ]> (SkuMappingService.mappingByStringId tables)
            else SkuMappingService.mappingByStringId tables)
           (if stores guid name seenGuids
            then <[ guid := name ]> (SkuMappingService.mappingByGuid tables)
            else SkuMappingService.mappingByGuid tables),
         if stores stringId name seenStringIds
         then Js.add stringId seenStringIds else seenStringIds,
         if stores guid name seenGuids then Js.add guid seenGuids else seenGuids)
    end.
Proof.
  unfold SkuMappingService.visitLine, SkuMappingService.rowOf, stores.
  destruct (negb (Js.truthy (Some (trim rawLine)))); [done|].
  destruct (SkuMappingService.parseCsvLine (trim rawLine)) as [|f0 [|f1 [|f2 rest]]];
    try done.
  cbn [length Nat.ltb Nat.leb].
  destruct (negb (bool_decide (trim f1 ∈ seenStringIds)) && _ && _);
    destruct (negb (bool_decide (toLowerCase (trim f2) ∈ seenGuids)) && _ && _);
    by destruct tables.
Qed.

(** One table and its set of seen keys, as the loop updates them. *)
Lemma first_wins_step (table : gmap string string) (seen : list string)
    (key k name : string) (later : option string) :
  key <> "" ->
  (forall x, x ∈ seen <-> is_Some (table !! x)) ->
  let table' := if stores k name seen then <[ k := name ]> table else table in
  let seen' := if stores k name seen then Js.add k seen else seen in
  (forall x, x ∈ seen' <-> is_Some (table' !! x))
  /\ match table' !! key with
     | Some found => Some found
     | None => later
     end
     = match table !! key with
       | Some found => Some found
       | None => if String.eqb k key && Js.truthy (Some name) then Some name else later
       end.
Proof.
  intros Hkey Hseen table' seen'. subst table' seen'. unfold stores.
  destruct (decide (k ∈ seen)) as [Hin|Hin].
  - rewrite (bool_decide_eq_true_2 _ Hin). cbn [negb andb]. split; [done|].
    destruct (String.eqb_spec k key) as [->|Hne]; cbn [andb]; [|done].
    apply Hseen in Hin as [found ->]. done.
  - rewrite (bool_decide_eq_false_2 _ Hin). cbn [negb andb].
    assert (table !! k = None) as Hnone.
    { apply eq_None_not_Some. by rewrite <- Hseen. }
    destruct (Js.truthy (Some k)) eqn:Hk; cbn [andb].
    + destruct (Js.truthy (Some name)) eqn:Hname.
      * split.
        -- intros x. rewrite add_elem_of, lookup_insert_is_Some, Hseen.
           split.
           ++ intros [->|Hx]; [by left|]. right. split; [|done].
              intros ->. rewrite Hnone in Hx. by destruct Hx.
           ++ intros [->|[_ Hx]]; tauto.
        -- destruct (String.eqb_spec k key) as [->|Hne]; cbn [andb].
           ++ by rewrite lookup_insert_eq, Hnone.
           ++ by rewrite lookup_insert_ne.
      * split; [done|]. by rewrite andb_false_r.
    + split; [done|].
      destruct (String.eqb_spec k key) as [->|Hne]; cbn [andb]; [|done].
      cbn in Hk. apply negb_false_iff, String.eqb_eq in Hk. done.
Qed.

Lemma visitLine_all lines key : forall tables seenStringIds seenGuids,
  key <> "" ->
  (forall x, x ∈ seenStringIds <->
             is_Some (SkuMappingService.mappingByStringId tables !! x)) ->
  (forall x, x ∈ seenGuids <-> is_Some (SkuMappingService.mappingByGuid tables !! x)) ->
  let tables' :=
    (foldl (SkuMappingService.visitLine trim toLowerCase)
       (tables, seenStringIds, seenGuids) lines).1.1 in
  SkuMappingService.mappingByStringId tables' !! key
  = match SkuMappingService.mappingByStringId tables !! key with
    | Some found => Some found
    | None =>
        (fun row => row.1.1) <$>
        List.find (fun row => String.eqb row.1.2 key && Js.truthy (Some row.1.1))
          (omap (SkuMappingService.rowOf trim toLowerCase) lines)
    end
  /\ SkuMappingService.mappingByGuid tables' !! key
     = match SkuMappingService.mappingByGuid tables !! key with
       | Some found => Some found
       | None =>
           (fun row => row.1.1) <$>
           List.find (fun row => String.eqb row.2 key && Js.truthy (Some row.1.1))
             (omap (SkuMappingService.rowOf trim toLowerCase) lines)
       end.
Proof.
  induction lines as [|rawLine lines IH]; intros tables seenS seenG Hkey HS HG; cbn zeta.
  - cbn. split; by destruct (_ !! key).
  - cbn [foldl]. rewrite visitLine_row, omap_cons_eq.
    destruct (SkuMappingService.rowOf trim toLowerCase rawLine) as [[[name stringId] guid]|];
      [|by apply IH].
    destruct (first_wins_step (SkuMappingService.mappingByStringId tables) seenS key
                stringId name
                ((fun row => row.1.1) <$>
                 List.find (fun row => String.eqb row.1.2 key && Js.truthy (Some row.1.1))
                   (omap (SkuMappingService.rowOf trim toLowerCase) lines)) Hkey HS)
      as [HS' HlookS].
    destruct (first_wins_step (SkuMappingService.mappingByGuid tables) seenG key
                guid name
                ((fun row => row.1.1) <$>
                 List.find (fun row => String.eqb row.2 key && Js.truthy (Some row.1.1))
                   (omap (SkuMappingService.rowOf trim toLowerCase) lines)) Hkey HG)
      as [HG' HlookG].
    cbn zeta in *.
    destruct (IH (SkuMappingService.mkMapping _ _) _ _ Hkey HS' HG') as [IHS IHG].
    cbn zeta in *. rewrite IHS, IHG. cbn [SkuMappingService.mappingByStringId
                                           SkuMappingService.mappingByGuid].
    rewrite HlookS, HlookG. cbn [List.find fst snd].
    split.
    + destruct (SkuMappingService.mappingByStringId tables !! key); [done|].
      by destruct (String.eqb stringId key && Js.truthy (Some name)).
    + destruct (SkuMappingService.mappingByGuid tables !! key); [done|].
      by destruct (String.eqb guid key && Js.truthy (Some name)).
Qed.

End tables_facts.

(** X30. In the tables that [parseCsvAndBuildMap] builds from empty ones,
    the first row counts: a key that is not empty is mapped to the display
    name of the first row under the header that has this key in its
    string-identifier column (for the GUID table: in its GUID column, in
    lower case) and a display name that is not empty; later rows for the
    same key, blank lines and lines with fewer than three fields change
    nothing. *)
Theorem parseCsvAndBuildMap_first_wins
    (trim toLowerCase : string -> string) (csvContent key : string) :
  key <> "" ->
  let tables :=
    SkuMappingService.parseCsvAndBuildMap trim toLowerCase SkuMappingService.noMapping
      csvContent in
  SkuMappingService.getFriendlyNameByStringId tables key
  = SkuMappingService.firstName trim toLowerCase (fun row => row.1.2) key csvContent
  /\ SkuMappingService.getFriendlyNameByGuid tables key
     = SkuMappingService.firstName trim toLowerCase (fun row => row.2) key csvContent.
Proof.
  intros Hkey tables. subst tables.
  unfold SkuMappingService.parseCsvAndBuildMap, SkuMappingService.firstName,
    SkuMappingService.getFriendlyNameByStringId, SkuMappingService.getFriendlyNameByGuid.
  destruct (visitLine_all trim toLowerCase
              (drop 1 (Js.split SkuMappingService.newline csvContent)) key
              SkuMappingService.noMapping [] [] Hkey) as [HS HG].
  - intros x. cbn. rewrite lookup_empty, elem_of_nil. split; [done | by intros []].
  - intros x. cbn. rewrite lookup_empty, elem_of_nil. split; [done | by intros []].
  - cbn zeta in *. rewrite HS, HG. cbn. by rewrite !lookup_empty.
Qed.

Lemma parseCsvAndBuildMap_first_wins_witness :
  SkuMappingService.getFriendlyNameByStringId
    (SkuMappingService.parseCsvAndBuildMap SkuMappingService.trimBlanks
       SkuMappingService.lowerCaseAscii SkuMappingService.noMapping
       SkuMappingService.sampleCsv)
    "ENTERPRISEPACK"
  = Some "Office 365 E3".
Proof.
  rewrite (proj1 (parseCsvAndBuildMap_first_wins SkuMappingService.trimBlanks
                    SkuMappingService.lowerCaseAscii SkuMappingService.sampleCsv
                    "ENTERPRISEPACK" ltac:(discriminate))).
  reflexivity.
Defined.
